(** * Region layout compiler of the hex editor tab (src/Tab.cpp)

    A shallow embedding of [REHex::Tab::compute_regions],
    [REHex::Tab::repopulate_regions], [repopulate_regions_freeze] and
    [repopulate_regions_thaw], and the properties of the region list they
    build.

    Conventions of the embedding:
    - a [BitOffset] is an integer number of bits;
    - an [assert] of the source is fatal: the computation stops with
      [Abort site], where [site] names the assertion;
    - a [while] loop is a [Fixpoint] on a fuel counter; running out of fuel
      is the separate outcome [OutOfFuel], and the fuel handed to each loop
      is shown to be enough;
    - a pointer into the comment tree ([next_comment]) is a zipper: the node,
      its following siblings, and the chain of its ancestors;
    - [std::vector::push_back] appends at the end of a list, [std::stack] is
      a list whose head is the top;
    - an [int] of the tool pane code is an integer of 32 bits whose sums
      and differences wrap around. *)

From Stdlib Require Import ZArith List Bool Lia String.
Import ListNotations.
Local Open Scope Z_scope.

(** ** BitOffset *)

(** Modelled from the spec: the class BitOffset, whose declaration is not
    under src/.  A pair (whole bytes, sub-byte bits in
    0..7) with total order by (bytes, bits) and arithmetic that carries
    across the bit boundary is represented by its total number of bits,
    [8 * bytes + bits]: the order and the arithmetic of the pair are the
    order and the arithmetic of that number. *)
Definition BitOffset := Z.

(** [BitOffset(byte, bit)]. *)
Definition mkBitOffset (byte bit : Z) : BitOffset := 8 * byte + bit.

(** The conversion [BitOffset(off_t)] applied to a byte count. *)
Definition of_bytes (byte : Z) : BitOffset := mkBitOffset byte 0.

Definition BitOffset_ZERO : BitOffset := 0.

(** [byte()] truncates to whole bytes, [bit()] is what is left. *)
Definition byte (b : BitOffset) : Z := Z.quot b 8.
Definition bit (b : BitOffset) : Z := Z.rem b 8.
Definition byte_aligned (b : BitOffset) : bool := bit b =? 0.

(** [a % b] on BitOffsets. *)
Definition bo_mod (a b : BitOffset) : BitOffset := Z.rem a b.

(** ** Outcome of a computation with assertions *)

(** The assertions of [compute_regions] and [repopulate_regions], by what
    they check. *)
Inductive assertion : Type :=
| A_within_buffer     (* next_data + remain_data <= buffer_length *)
| A_comment_ahead     (* next_comment is NULL or not before next_data *)
| A_limit_nested      (* new nesting boundary <= boundary on top *)
| A_limit_ahead       (* boundary on top > next_data *)
| A_type_present      (* types_iter != types.end() *)
| A_type_covers       (* current type range contains next_data *)
| A_length_positive   (* typed region length > 0 *)
| A_buffer_empty.     (* no regions => buffer_length == 0 *)

Inductive outcome (A : Type) : Type :=
| Ok (a : A)
| Abort (site : assertion)
| OutOfFuel.
Arguments Ok {A} a.
Arguments Abort {A} site.
Arguments OutOfFuel {A}.

Definition bind {A B : Type} (m : outcome A) (k : A -> outcome B) : outcome B :=
  match m with
  | Ok a => k a
  | Abort s => Abort s
  | OutOfFuel => OutOfFuel
  end.

Definition assert (site : assertion) (b : bool) : outcome unit :=
  if b then Ok tt else Abort site.

Notation "x <- m ;; k" := (bind m (fun x => k))
  (at level 61, m at next level, right associativity).
Notation "' pat <- m ;; k" := (bind m (fun x => match x with pat => k end))
  (at level 61, pat pattern, m at next level, right associativity).
Notation "'check' s 'that' b ;; k" := (bind (assert s b) (fun _ => k))
  (at level 61, s at level 0, b at next level, right associativity).

(** ** Comment tree *)

(** Modelled from the spec: the comment tree behind [doc->get_comments()],
    whose class is not under src/.  Comments are keyed by (offset, length)
    and linked to parent, first child and next sibling, forming an ordered
    forest.  The source reads [key.offset], [key.length] and [value.text] of
    a node and follows [get_first_child()], [get_next()] and
    [get_parent()]. *)
Record Key : Type := mkKey { offset : BitOffset; length : BitOffset }.

(** A node: key, text and children in order.  A list of nodes is a list of
    siblings. *)
#[warnings="-register-all"]
Inductive Node : Type :=
| mkNode (key : Key) (text : string) (children : list Node).

Definition key (n : Node) : Key := let (k, _, _) := n in k.
Definition text (n : Node) : string := let (_, t, _) := n in t.
Definition children (n : Node) : list Node := let (_, _, c) := n in c.

(** A non-NULL node pointer: the node, its next siblings, and for each
    ancestor (nearest first) the ancestor and its next siblings. *)
Record NodePtr : Type := mkPtr {
  cur : Node;
  nexts : list Node;
  above : list (Node * list Node)
}.

(** A node pointer that may be NULL. *)
Definition Ptr := option NodePtr.

Definition first_root_node (roots : list Node) : Ptr :=
  match roots with
  | [] => None
  | r :: rs => Some (mkPtr r rs [])
  end.

Definition get_first_child (p : NodePtr) : Ptr :=
  match children (cur p) with
  | [] => None
  | c :: cs => Some (mkPtr c cs ((cur p, nexts p) :: above p))
  end.

Definition get_next (p : NodePtr) : Ptr :=
  match nexts p with
  | [] => None
  | n :: ns => Some (mkPtr n ns (above p))
  end.

Definition get_parent (p : NodePtr) : Ptr :=
  match above p with
  | [] => None
  | (a, an) :: ab => Some (mkPtr a an ab)
  end.

(** [while(p->get_next() == NULL && p->get_parent() != NULL) p = p->get_parent();]
    The loop is a recursion on the chain of ancestors. *)
Fixpoint climb_from (c : Node) (ns : list Node) (ab : list (Node * list Node))
  : NodePtr :=
  match ns, ab with
  | [], (a, an) :: ab' => climb_from a an ab'
  | _, _ => mkPtr c ns ab
  end.

Definition climb (p : NodePtr) : NodePtr := climb_from (cur p) (nexts p) (above p).

(** The [else] branch shared by both cursor loops: climb, then take the next
    sibling. *)
Definition next_sibling_up (p : NodePtr) : Ptr := get_next (climb p).

(** One step of depth-first iteration: first child if any, else the next
    sibling of the nearest ancestor-or-self that has one. *)
Definition next_depth_first (p : NodePtr) : Ptr :=
  match get_first_child p with
  | Some c => Some c
  | None => next_sibling_up p
  end.

(** One iteration of the loop that skips the comments before [next_data]. *)
Definition skip_step (next_data : BitOffset) (p : NodePtr) : Ptr :=
  match get_first_child p with
  | Some fc =>
      if (offset (key (cur fc)) =? offset (key (cur p)))
         || (offset (key (cur fc)) >=? next_data)
      then get_first_child p
      else next_sibling_up p
  | None => next_sibling_up p
  end.

(** Keys in depth-first order, of a node, of siblings, of what a pointer has
    still ahead of it (itself included). *)
Fixpoint node_keys (n : Node) : list Key :=
  match n with
  | mkNode k _ cs => k :: flat_map node_keys cs
  end.

Definition forest_keys (ns : list Node) : list Key := flat_map node_keys ns.

Definition above_keys (ab : list (Node * list Node)) : list Key :=
  flat_map (fun a => forest_keys (snd a)) ab.

Definition ahead_keys (p : Ptr) : list Key :=
  match p with
  | None => []
  | Some p => node_keys (cur p) ++ forest_keys (nexts p) ++ above_keys (above p)
  end.

Definition ahead (p : Ptr) : nat := List.length (ahead_keys p).

(** [while(next_comment != NULL && next_comment->key.offset < next_data)] *)
Fixpoint skip_comments (fuel : nat) (next_data : BitOffset) (p : Ptr)
  : outcome Ptr :=
  match p with
  | None => Ok None
  | Some q =>
      if offset (key (cur q)) <? next_data then
        match fuel with
        | O => OutOfFuel
        | S fuel' => skip_comments fuel' next_data (skip_step next_data q)
        end
      else Ok p
  end.

(** ** Data types, regions, document *)

Inductive InlineCommentMode : Type :=
| ICM_HIDDEN | ICM_FULL | ICM_SHORT | ICM_FULL_INDENT | ICM_SHORT_INDENT.

Inductive DocumentDisplayMode : Type :=
| DDM_NORMAL | DDM_VIRTUAL.

(** Modelled from the spec: the type partition behind
    [doc->get_data_types()], an ordered map from ranges to a type name and
    its options, and the segment map behind [doc->get_virt_to_real_segs()],
    an ordered map from virtual byte ranges to real offsets; their classes
    are not under src/.  Both are the lists of their entries in order, an
    iterator is the list of the entries from it on. *)
Record TypeInfo : Type := mkTypeInfo { name : string; options : string }.

(** An entry of the data-type range map: [first.offset], [first.length],
    [second]. *)
Record TypeRange : Type := mkTypeRange {
  t_offset : BitOffset;
  t_length : BitOffset;
  t_info : TypeInfo
}.

(** An entry of the virtual-to-real segment map, in bytes: [first.offset],
    [first.length], [second]. *)
Record Segment : Type := mkSegment {
  virt_offset : Z;
  seg_length : Z;
  real_offset : Z
}.

(** What the compiler reads of the document. *)
Record Document : Type := mkDocument {
  buffer_length : Z;
  get_comments : list Node;
  get_data_types : list TypeRange;
  get_virt_to_real_segs : list Segment
}.

(** The last element of a vector, if any ([v.back()] when [!v.empty()]). *)
Definition back {A : Type} (l : list A) : option A := last (map Some l) None.

Section Compiler.

(** What a region built by a type's factory carries besides its extent. *)
Variable Payload : Type.

(** Modelled from the spec: a type descriptor of the registry (the class
    is not under src/), with its word size, its fixed size (0 when it has
    none) and its factory, under the names the source reads them by.  The
    factory receives (offset, length, virtual offset); an empty
    [std::function] is [None]. *)
Record DataType : Type := mkDataType {
  region_factory : option (BitOffset -> BitOffset -> BitOffset -> Payload);
  region_fixed_size : BitOffset;
  word_size : BitOffset
}.

(** [DataTypeRegistry::get_type], a parameter of the development; a NULL
    result is [None]. *)
Variable get_type : TypeInfo -> option DataType.

(** Modelled from the spec: the regions (their classes are not under
    src/), a closed union of comment marker, typed data block, raw data
    block and bit-remainder block, each with the arguments the source
    constructs it with.  A region made by a type's factory is its own
    variant, with the offset, length and virtual offset the factory was
    given: it is none of the three built-in classes. *)
Inductive Region : Type :=
| CommentRegion (c_offset c_length : BitOffset) (c_text : string)
    (truncate : bool) (indent_offset indent_length : BitOffset)
| TypedRegion (d_offset d_length virt : BitOffset) (payload : Payload)
| DataRegionDocHighlight (d_offset d_length virt : BitOffset)
| BitArrayRegion (d_offset d_length virt : BitOffset).

Definition is_comment (r : Region) : bool :=
  match r with CommentRegion _ _ _ _ _ _ => true | _ => false end.

(** [dynamic_cast<DataRegionDocHighlight*>(r) != NULL] *)
Definition is_DataRegionDocHighlight (r : Region) : bool :=
  match r with DataRegionDocHighlight _ _ _ => true | _ => false end.

Definition is_typed (r : Region) : bool :=
  match r with TypedRegion _ _ _ _ => true | _ => false end.

(** Real offset, length in the domain and virtual offset of a region.  A
    comment marker sits at its comment's offset, takes nothing of the
    domain, and its virtual position is where its indentation starts. *)
Definition r_offset (r : Region) : BitOffset :=
  match r with
  | CommentRegion o _ _ _ _ _ => o
  | TypedRegion o _ _ _ | DataRegionDocHighlight o _ _ | BitArrayRegion o _ _ => o
  end.

Definition r_length (r : Region) : BitOffset :=
  match r with
  | CommentRegion _ _ _ _ _ _ => 0
  | TypedRegion _ l _ _ | DataRegionDocHighlight _ l _ | BitArrayRegion _ l _ => l
  end.

Definition r_virt (r : Region) : BitOffset :=
  match r with
  | CommentRegion _ _ _ _ v _ => v
  | TypedRegion _ _ v _ | DataRegionDocHighlight _ _ v | BitArrayRegion _ _ v => v
  end.

(** The regions that take bytes of the domain, in order. *)
Definition data_regions (rs : list Region) : list Region :=
  filter (fun r => negb (is_comment r)) rs.

(** ** compute_regions *)

Definition nest_of (m : InlineCommentMode) : bool :=
  match m with ICM_SHORT_INDENT | ICM_FULL_INDENT => true | _ => false end.

Definition truncate_of (m : InlineCommentMode) : bool :=
  match m with ICM_SHORT | ICM_SHORT_INDENT => true | _ => false end.

(** [while(types_iter != types.end() && offset + length <= next_data) ++types_iter;] *)
Fixpoint skip_types (next_data : BitOffset) (ts : list TypeRange) : list TypeRange :=
  match ts with
  | [] => []
  | t :: ts' =>
      if t_offset t + t_length t <=? next_data then skip_types next_data ts' else ts
  end.

(** [while(!dr_limit.empty() && dr_limit.top() <= next_data) dr_limit.pop();] *)
Fixpoint pop_limits (next_data : BitOffset) (dr_limit : list BitOffset)
  : list BitOffset :=
  match dr_limit with
  | [] => []
  | top :: rest =>
      if top <=? next_data then pop_limits next_data rest else dr_limit
  end.

(** The variables of the main loop. *)
Record LoopState : Type := mkLoopState {
  next_comment : Ptr;
  types_iter : list TypeRange;
  next_data : BitOffset;
  next_virt : BitOffset;
  remain_data : BitOffset;
  regions : list Region;
  dr_limit : list BitOffset
}.

Section Loop.

Variable doc : Document.
Variable inline_comment_mode : InlineCommentMode.

Local Abbreviation nest := (nest_of inline_comment_mode).
Local Abbreviation truncate := (truncate_of inline_comment_mode).

(** The body of the loop over the comments at [next_data], for the comment
    [p]: the marker pushed on [regions] and the nesting stack afterwards. *)
Definition comment_marker (next_virt remain_data : BitOffset) (p : NodePtr)
  : Region :=
  let indent_offset := next_virt in
  let indent_length :=
    if nest then Z.min (length (key (cur p))) remain_data else BitOffset_ZERO in
  CommentRegion (offset (key (cur p))) (length (key (cur p))) (text (cur p))
    truncate indent_offset indent_length.

Definition push_limit (p : NodePtr) (dr_limit : list BitOffset)
  : outcome (list BitOffset) :=
  if nest && (length (key (cur p)) >? 0) then
    let limit := offset (key (cur p)) + length (key (cur p)) in
    check A_limit_nested that
      (match dr_limit with [] => true | top :: _ => top >=? limit end) ;;
    Ok (limit :: dr_limit)
  else Ok dr_limit.

(** [while(next_comment != NULL && next_comment->key.offset == next_data)] *)
Fixpoint emit_comments (fuel : nat) (next_data next_virt remain_data : BitOffset)
  (p : Ptr) (regions : list Region) (dr_limit : list BitOffset)
  : outcome (Ptr * list Region * list BitOffset) :=
  match p with
  | None => Ok (p, regions, dr_limit)
  | Some q =>
      if offset (key (cur q)) =? next_data then
        match fuel with
        | O => OutOfFuel
        | S fuel' =>
            let regions := regions ++ [comment_marker next_virt remain_data q] in
            dr_limit <- push_limit q dr_limit ;;
            emit_comments fuel' next_data next_virt remain_data
              (next_depth_first q) regions dr_limit
        end
      else Ok (p, regions, dr_limit)
  end.

(** The length left to [dr_length] by the next comment ahead. *)
Definition clamp_comment (next_data : BitOffset) (p : Ptr) (dr_length : BitOffset)
  : BitOffset :=
  match p with
  | Some q =>
      if dr_length >? offset (key (cur q)) - next_data
      then offset (key (cur q)) - next_data
      else dr_length
  | None => dr_length
  end.

(** The length left to [dr_length] by the nesting boundary on top. *)
Definition clamp_limit (next_data : BitOffset) (dr_limit : list BitOffset)
  (dr_length : BitOffset) : outcome BitOffset :=
  match dr_limit with
  | top :: _ =>
      if next_data + dr_length >=? top then
        check A_limit_ahead that (top >? next_data) ;;
        Ok (top - next_data)
      else Ok dr_length
  | [] => Ok dr_length
  end.

(** The length of the region made by a factory of [dt] out of [dr_length]. *)
Definition typed_length (dt : DataType) (dr_length : BitOffset) : BitOffset :=
  if (region_fixed_size dt >? BitOffset_ZERO) && (dr_length >? region_fixed_size dt)
  then region_fixed_size dt
  else if negb (bo_mod dr_length (word_size dt) =? BitOffset_ZERO)
  then dr_length - bo_mod dr_length (word_size dt)
  else dr_length.

(** [dt != NULL && dt->region_factory && dt->region_fixed_size <= dr_length]:
    the type and its factory when the condition holds. *)
Definition factory_for (dt : option DataType) (dr_length : BitOffset)
  : option (DataType * (BitOffset -> BitOffset -> BitOffset -> Payload)) :=
  match dt with
  | Some d =>
      match region_factory d with
      | Some factory =>
          if region_fixed_size d <=? dr_length then Some (d, factory) else None
      | None => None
      end
  | None => None
  end.

(** The data region for [dr_length] bits at [next_data] with the type [dt]
    (the [if(dt != NULL && ...) ... else ...] statement), together with the
    length it was given. *)
Definition make_data_region (dt : option DataType)
  (next_data next_virt dr_length : BitOffset) : outcome (Region * BitOffset) :=
  match factory_for dt dr_length with
  | Some (d, factory) =>
      let dr_length := typed_length d dr_length in
      check A_length_positive that (dr_length >? BitOffset_ZERO) ;;
      Ok (TypedRegion next_data dr_length next_virt
            (factory next_data dr_length next_virt), dr_length)
  | None =>
      if dr_length <? mkBitOffset 1 0 then
        Ok (BitArrayRegion next_data dr_length next_virt, dr_length)
      else
        let dr_length :=
          if negb (byte_aligned dr_length) then mkBitOffset (byte dr_length) 0
          else dr_length in
        Ok (DataRegionDocHighlight next_data dr_length next_virt, dr_length)
  end.

(** [dr_length] once the next comment and the nesting boundary on top have
    clamped [remain_data]. *)
Definition clamped_length (next_data remain_data : BitOffset) (p : Ptr)
  (dr_limit : list BitOffset) : outcome BitOffset :=
  let dr_length := remain_data in
  let dr_length := clamp_comment next_data p dr_length in
  clamp_limit next_data dr_limit dr_length.

(** What is left of the type range [t] at [next_data]. *)
Definition type_remaining (t : TypeRange) (next_data : BitOffset) : BitOffset :=
  t_length t - (next_data - t_offset t).

(** One iteration of [while(remain_data > 0)]. *)
Definition loop_body (st : LoopState) : outcome LoopState :=
  check A_within_buffer that
    (next_data st + remain_data st <=? mkBitOffset (buffer_length doc) 0) ;;
  check A_comment_ahead that
    (match next_comment st with
     | None => true
     | Some q => offset (key (cur q)) >=? next_data st
     end) ;;
  let limits := pop_limits (next_data st) (dr_limit st) in
  '(comment', regions', limits') <-
    emit_comments (ahead (next_comment st)) (next_data st) (next_virt st)
      (remain_data st) (next_comment st) (regions st) limits ;;
  dr_length <- clamped_length (next_data st) (remain_data st) comment' limits' ;;
  match types_iter st with
  | [] => Abort A_type_present
  | t :: types_rest =>
      check A_type_covers that
        ((t_offset t <=? next_data st)
         && (t_offset t + t_length t >? next_data st)) ;;
      let dr_length := Z.min dr_length (type_remaining t (next_data st)) in
      let dt := get_type (t_info t) in
      '(region, dr_length) <-
        make_data_region dt (next_data st) (next_virt st) dr_length ;;
      let data' := next_data st + dr_length in
      Ok (mkLoopState comment'
            (if data' >=? t_offset t + t_length t
             then types_rest else types_iter st)
            data'
            (next_virt st + dr_length)
            (remain_data st - dr_length)
            (regions' ++ [region])
            limits')
  end.

(** [while(remain_data > 0) { ... } return regions;] *)
Fixpoint main_loop (fuel : nat) (st : LoopState) : outcome (list Region) :=
  if remain_data st >? 0 then
    match fuel with
    | O => OutOfFuel
    | S fuel' => st' <- loop_body st ;; main_loop fuel' st'
    end
  else Ok (regions st).

(** [compute_regions] up to the main loop: the cursors are moved to
    [real_offset_base] and the comment cursor is dropped when inline comments
    are hidden. *)
Definition initial_state (real_offset_base virt_offset_base length : BitOffset)
  : outcome LoopState :=
  let comments := get_comments doc in
  let types := get_data_types doc in
  comment' <-
    skip_comments (ahead (first_root_node comments)) real_offset_base
      (first_root_node comments) ;;
  let types' := skip_types real_offset_base types in
  let comment' :=
    match inline_comment_mode with
    | ICM_HIDDEN => None
    | _ => comment'
    end in
  Ok (mkLoopState comment' types' real_offset_base virt_offset_base
        length [] []).

(** [compute_regions] with the main loop bounded by [fuel] iterations. *)
Definition compute_regions_in (fuel : nat)
  (real_offset_base virt_offset_base length : BitOffset)
  : outcome (list Region) :=
  st <- initial_state real_offset_base virt_offset_base length ;;
  main_loop fuel st.

(** [compute_regions]: every iteration of the main loop that does not abort
    takes at least one bit of a well-ordered document (shown below), so
    [length] iterations are allowed. *)
Definition compute_regions (real_offset_base virt_offset_base length : BitOffset)
  : outcome (list Region) :=
  compute_regions_in (Z.to_nat length) real_offset_base virt_offset_base length.

End Loop.

(** ** repopulate_regions *)

(** The text of the marker shown when there are no virtual sections. *)
Definition C_TEXT : string :=
  "No virtual sections defined, displaying file data instead.".

(** The region that stands for the virtual view of a file without virtual
    sections. *)
Definition no_sections_marker : Region :=
  CommentRegion (of_bytes (-1)) (of_bytes 0) C_TEXT false (of_bytes (-1)) (of_bytes 0).

(** The zero-length data region put at [at_byte], where the cursor can go. *)
Definition anchor (at_byte : Z) : Region :=
  DataRegionDocHighlight (of_bytes at_byte) (of_bytes 0) (of_bytes at_byte).

(** What the file view does with the regions computed for the whole file:
    an empty list gets a data region, and so does a list whose last region
    is not a [DataRegionDocHighlight]. *)
Definition close_file_regions (doc : Document) (file_regions : list Region)
  : outcome (list Region) :=
  match back file_regions with
  | None =>
      check A_buffer_empty that (buffer_length doc =? 0) ;;
      Ok (file_regions ++ [anchor 0])
  | Some last_region =>
      if negb (is_DataRegionDocHighlight last_region)
      then Ok (file_regions ++ [anchor (buffer_length doc)])
      else Ok file_regions
  end.

(** The block after the label [DO_FILE_VIEW]. *)
Definition file_view (doc : Document) (mode : InlineCommentMode)
  : outcome (list Region) :=
  file_regions <-
    compute_regions doc mode (of_bytes 0) (of_bytes 0) (of_bytes (buffer_length doc)) ;;
  close_file_regions doc file_regions.

(** The loop over the virtual segments. *)
Fixpoint virtual_view (doc : Document) (mode : InlineCommentMode)
  (segs : list Segment) : outcome (list Region) :=
  match segs with
  | [] => Ok []
  | i :: segs' =>
      let real_offset_base := real_offset i in
      let virt_offset_base := virt_offset i in
      let length := seg_length i in
      v_regions <-
        compute_regions doc mode (of_bytes real_offset_base)
          (of_bytes virt_offset_base) (of_bytes length) ;;
      rest <- virtual_view doc mode segs' ;;
      Ok (v_regions ++ rest)
  end.

(** The region list [repopulate_regions] hands to the document control when
    it is not frozen. *)
Definition prepare_regions (doc : Document) (ddm : DocumentDisplayMode)
  (mode : InlineCommentMode) : outcome (list Region) :=
  match ddm with
  | DDM_VIRTUAL =>
      match get_virt_to_real_segs doc with
      | [] =>
          file_regions <- file_view doc mode ;;
          Ok (no_sections_marker :: file_regions)
      | segs => virtual_view doc mode segs
      end
  | DDM_NORMAL => file_view doc mode
  end.

(** The fields of the tab that region computing reads and writes;
    [doc_ctrl_regions] is the list held by the document control and
    [compiles] counts the calls of [replace_all_regions]. *)
Record Tab : Type := mkTab {
  doc : Document;
  document_display_mode : DocumentDisplayMode;
  inline_comment_mode : InlineCommentMode;
  repopulate_regions_frozen : bool;
  repopulate_regions_pending : bool;
  doc_ctrl_regions : list Region;
  compiles : nat
}.

Definition repopulate_regions (t : Tab) : outcome Tab :=
  if repopulate_regions_frozen t then
    Ok (mkTab (doc t) (document_display_mode t) (inline_comment_mode t)
          (repopulate_regions_frozen t) true (doc_ctrl_regions t) (compiles t))
  else
    regions' <- prepare_regions (doc t) (document_display_mode t)
                  (inline_comment_mode t) ;;
    Ok (mkTab (doc t) (document_display_mode t) (inline_comment_mode t)
          (repopulate_regions_frozen t) (repopulate_regions_pending t)
          regions' (S (compiles t))).

Definition repopulate_regions_freeze (t : Tab) : Tab :=
  mkTab (doc t) (document_display_mode t) (inline_comment_mode t)
    true (repopulate_regions_pending t) (doc_ctrl_regions t) (compiles t).

Definition repopulate_regions_thaw (t : Tab) : outcome Tab :=
  let t := mkTab (doc t) (document_display_mode t) (inline_comment_mode t)
             false (repopulate_regions_pending t) (doc_ctrl_regions t)
             (compiles t) in
  if repopulate_regions_pending t then
    t <- repopulate_regions t ;;
    Ok (mkTab (doc t) (document_display_mode t) (inline_comment_mode t)
          (repopulate_regions_frozen t) false (doc_ctrl_regions t) (compiles t))
  else Ok t.

End Compiler.

Arguments mkDataType {Payload} region_factory region_fixed_size word_size.
Arguments region_factory {Payload} d.
Arguments region_fixed_size {Payload} d.
Arguments word_size {Payload} d.
Arguments CommentRegion {Payload} c_offset c_length c_text truncate
  indent_offset indent_length.
Arguments TypedRegion {Payload} d_offset d_length virt payload.
Arguments DataRegionDocHighlight {Payload} d_offset d_length virt.
Arguments BitArrayRegion {Payload} d_offset d_length virt.
Arguments is_comment {Payload} r.
Arguments is_DataRegionDocHighlight {Payload} r.
Arguments is_typed {Payload} r.
Arguments r_offset {Payload} r.
Arguments r_length {Payload} r.
Arguments r_virt {Payload} r.
Arguments data_regions {Payload} rs.
Arguments mkLoopState {Payload} next_comment types_iter next_data next_virt
  remain_data regions dr_limit.
Arguments next_comment {Payload} l.
Arguments types_iter {Payload} l.
Arguments next_data {Payload} l.
Arguments next_virt {Payload} l.
Arguments remain_data {Payload} l.
Arguments regions {Payload} l.
Arguments dr_limit {Payload} l.
Arguments comment_marker {Payload} inline_comment_mode next_virt remain_data p.
Arguments emit_comments {Payload} inline_comment_mode fuel next_data next_virt
  remain_data p regions dr_limit.
Arguments typed_length {Payload} dt dr_length.
Arguments factory_for {Payload} dt dr_length.
Arguments make_data_region {Payload} dt next_data next_virt dr_length.
Arguments loop_body {Payload} get_type doc inline_comment_mode st.
Arguments main_loop {Payload} get_type doc inline_comment_mode fuel st.
Arguments initial_state {Payload} doc inline_comment_mode real_offset_base
  virt_offset_base length.
Arguments compute_regions_in {Payload} get_type doc inline_comment_mode fuel
  real_offset_base virt_offset_base length.
Arguments compute_regions {Payload} get_type doc inline_comment_mode
  real_offset_base virt_offset_base length.
Arguments no_sections_marker {Payload}.
Arguments anchor {Payload} at_byte.
Arguments close_file_regions {Payload} doc file_regions.
Arguments file_view {Payload} get_type doc mode.
Arguments virtual_view {Payload} get_type doc mode segs.
Arguments prepare_regions {Payload} get_type doc ddm mode.
Arguments mkTab {Payload} doc document_display_mode inline_comment_mode
  repopulate_regions_frozen repopulate_regions_pending doc_ctrl_regions compiles.
Arguments doc {Payload} t.
Arguments document_display_mode {Payload} t.
Arguments inline_comment_mode {Payload} t.
Arguments repopulate_regions_frozen {Payload} t.
Arguments repopulate_regions_pending {Payload} t.
Arguments doc_ctrl_regions {Payload} t.
Arguments compiles {Payload} t.
Arguments repopulate_regions {Payload} get_type t.
Arguments repopulate_regions_freeze {Payload} t.
Arguments repopulate_regions_thaw {Payload} get_type t.

(** ** The handlers that have the regions computed *)

Definition set_inline_comment_mode {Payload : Type}
  (get_type : TypeInfo -> option (@DataType Payload))
  (inline_comment_mode' : InlineCommentMode) (t : Tab Payload)
  : outcome (Tab Payload) :=
  let t := mkTab (doc t) (document_display_mode t) inline_comment_mode'
             (repopulate_regions_frozen t) (repopulate_regions_pending t)
             (doc_ctrl_regions t) (compiles t) in
  repopulate_regions get_type t.

Definition set_document_display_mode {Payload : Type}
  (get_type : TypeInfo -> option (@DataType Payload))
  (document_display_mode' : DocumentDisplayMode) (t : Tab Payload)
  : outcome (Tab Payload) :=
  let t := mkTab (doc t) document_display_mode' (inline_comment_mode t)
             (repopulate_regions_frozen t) (repopulate_regions_pending t)
             (doc_ctrl_regions t) (compiles t) in
  repopulate_regions get_type t.

Definition OnDocumentDataErase {Payload : Type}
  (get_type : TypeInfo -> option (@DataType Payload)) (t : Tab Payload)
  : outcome (Tab Payload) :=
  repopulate_regions get_type t.

Definition OnDocumentDataInsert {Payload : Type}
  (get_type : TypeInfo -> option (@DataType Payload)) (t : Tab Payload)
  : outcome (Tab Payload) :=
  repopulate_regions get_type t.

(** [doc_ctrl->Refresh()] paints the regions there are again. *)
Definition OnDocumentDataOverwrite {Payload : Type} (t : Tab Payload)
  : outcome (Tab Payload) :=
  Ok t.

Definition OnDocumentCommentModified {Payload : Type}
  (get_type : TypeInfo -> option (@DataType Payload)) (t : Tab Payload)
  : outcome (Tab Payload) :=
  repopulate_regions get_type t.

Definition OnDocumenHighlightsChanged {Payload : Type} (t : Tab Payload)
  : outcome (Tab Payload) :=
  Ok t.

Definition OnDocumentDataTypesChanged {Payload : Type}
  (get_type : TypeInfo -> option (@DataType Payload)) (t : Tab Payload)
  : outcome (Tab Payload) :=
  repopulate_regions get_type t.

Definition OnDocumentMappingsChanged {Payload : Type}
  (get_type : TypeInfo -> option (@DataType Payload)) (t : Tab Payload)
  : outcome (Tab Payload) :=
  match document_display_mode t with
  | DDM_VIRTUAL => repopulate_regions get_type t
  | DDM_NORMAL => Ok t
  end.

Definition OnBulkUpdatesFrozen {Payload : Type} (t : Tab Payload)
  : outcome (Tab Payload) :=
  Ok (repopulate_regions_freeze t).

Definition OnBulkUpdatesThawed {Payload : Type}
  (get_type : TypeInfo -> option (@DataType Payload)) (t : Tab Payload)
  : outcome (Tab Payload) :=
  repopulate_regions_thaw get_type t.

(** ** Notices of a deleted or modified backing file *)

(** Modelled from the spec: the answers of the modal dialogs (classes of
    the toolkit, not under src/).  A message dialog returns one of the
    standard identifiers; the dialog that asks whether to reload returns the
    identifier of one of its three buttons. *)
Inductive Response : Type := wxID_YES | wxID_NO | wxID_CANCEL.

Inductive ReloadResponse : Type := ID_RELOAD | ID_AUTO_RELOAD | ID_IGNORE.

(** What the document and the user answer while a notice is handled:
    [doc->is_dirty()], the button pressed in each dialog, and the file name
    [document_save_as_dialog] returns (empty when it is cancelled). *)
Record Answers : Type := mkAnswers {
  is_dirty : bool;
  file_deleted_response : Response;
  document_save_as_dialog : string;
  discard_response : Response;
  reload_response : ReloadResponse
}.

(** A window owned by the tab. *)
Definition Window := nat.

(** What a handler does to its collaborators, in order: windows hidden and
    shown, modal dialogs run, the document saved or reloaded, an event
    forwarded to the listeners of the tab.  A save or reload that throws
    shows a message box and changes nothing of the tab. *)
Inductive Effect : Type :=
| Hide (w : Window)
| ShowWithoutActivating (w : Window)
| FileDeletedDialog
| SaveAsDialog
| DiscardChangesDialog
| ReloadDialog
| doc_save
| doc_save_as (new_filename : string)
| doc_reload
| Forward.

(** The fields of the tab that the notices read and write. *)
Record Notices : Type := mkNotices {
  child_windows_hidden : bool;
  parent_window_active : bool;
  file_deleted_dialog_pending : bool;
  file_modified_dialog_pending : bool;
  auto_reload : bool;
  search_dialogs : list Window;
  doc_properties : option Window;
  goto_offset_dialog : option Window
}.

Definition set_child_windows_hidden (b : bool) (s : Notices) : Notices :=
  mkNotices b (parent_window_active s) (file_deleted_dialog_pending s)
    (file_modified_dialog_pending s) (auto_reload s) (search_dialogs s)
    (doc_properties s) (goto_offset_dialog s).

Definition set_parent_window_active_field (b : bool) (s : Notices) : Notices :=
  mkNotices (child_windows_hidden s) b (file_deleted_dialog_pending s)
    (file_modified_dialog_pending s) (auto_reload s) (search_dialogs s)
    (doc_properties s) (goto_offset_dialog s).

Definition set_file_deleted_dialog_pending (b : bool) (s : Notices) : Notices :=
  mkNotices (child_windows_hidden s) (parent_window_active s) b
    (file_modified_dialog_pending s) (auto_reload s) (search_dialogs s)
    (doc_properties s) (goto_offset_dialog s).

Definition set_file_modified_dialog_pending (b : bool) (s : Notices) : Notices :=
  mkNotices (child_windows_hidden s) (parent_window_active s)
    (file_deleted_dialog_pending s) b (auto_reload s) (search_dialogs s)
    (doc_properties s) (goto_offset_dialog s).

Definition set_auto_reload (b : bool) (s : Notices) : Notices :=
  mkNotices (child_windows_hidden s) (parent_window_active s)
    (file_deleted_dialog_pending s) (file_modified_dialog_pending s) b
    (search_dialogs s) (doc_properties s) (goto_offset_dialog s).

(** The three loops over the child windows of the tab, with what is done
    to each window. *)
Definition each_child_window (f : Window -> Effect) (s : Notices) : list Effect :=
  map f (search_dialogs s)
  ++ match doc_properties s with Some w => [f w] | None => [] end
  ++ match goto_offset_dialog s with Some w => [f w] | None => [] end.

Definition file_deleted_dialog (u : Answers) (s : Notices)
  : Notices * list Effect :=
  if child_windows_hidden s || negb (parent_window_active s) then
    (set_file_deleted_dialog_pending true s, [])
  else
    let s := set_file_deleted_dialog_pending false s in
    match file_deleted_response u with
    | wxID_YES => (s, [FileDeletedDialog; doc_save])
    | wxID_NO =>
        let new_filename := document_save_as_dialog u in
        if String.eqb new_filename EmptyString
        then (s, [FileDeletedDialog; SaveAsDialog])
        else (s, [FileDeletedDialog; SaveAsDialog; doc_save_as new_filename])
    | wxID_CANCEL => (s, [FileDeletedDialog])
    end.

Definition file_modified_dialog (u : Answers) (s : Notices)
  : Notices * list Effect :=
  if child_windows_hidden s || negb (parent_window_active s) then
    (set_file_modified_dialog_pending true s, [])
  else
    let s := set_file_modified_dialog_pending false s in
    if is_dirty u then
      match discard_response u with
      | wxID_NO => (s, [DiscardChangesDialog])
      | _ => (s, [DiscardChangesDialog; doc_reload])
      end
    else if negb (auto_reload s) then
      match reload_response u with
      | ID_IGNORE => (s, [ReloadDialog])
      | ID_AUTO_RELOAD => (set_auto_reload true s, [ReloadDialog; doc_reload])
      | ID_RELOAD => (s, [ReloadDialog; doc_reload])
      end
    else (s, [doc_reload]).

(** The pending notice shown, if there is one: the statement that ends
    [unhide_child_windows] and is guarded in [set_parent_window_active]. *)
Definition pending_dialogs (u : Answers) (s : Notices) : Notices * list Effect :=
  if file_deleted_dialog_pending s then
    let s := set_file_modified_dialog_pending false s in
    file_deleted_dialog u s
  else if file_modified_dialog_pending s then
    file_modified_dialog u s
  else (s, []).

Definition hide_child_windows (s : Notices) : Notices * list Effect :=
  let s := set_child_windows_hidden true s in
  (s, each_child_window Hide s).

Definition unhide_child_windows (u : Answers) (s : Notices)
  : Notices * list Effect :=
  let s := set_child_windows_hidden false s in
  let shown_windows := each_child_window ShowWithoutActivating s in
  let (s, dialogs) := pending_dialogs u s in
  (s, shown_windows ++ dialogs).

Definition set_parent_window_active (u : Answers) (parent_window_active' : bool)
  (s : Notices) : Notices * list Effect :=
  let s := set_parent_window_active_field parent_window_active' s in
  if parent_window_active' && negb (child_windows_hidden s)
  then pending_dialogs u s
  else (s, []).

Definition OnDocumentFileDeleted (u : Answers) (s : Notices)
  : Notices * list Effect :=
  let (s, dialogs) := file_deleted_dialog u s in
  (s, Forward :: dialogs).

Definition OnDocumentFileModified (u : Answers) (s : Notices)
  : Notices * list Effect :=
  let (s, dialogs) := file_modified_dialog u s in
  (s, dialogs ++ [Forward]).

(** ** Keys and paste *)

(** Modelled from the spec: the calls the handlers of keys and paste make
    on the document, the document control and the toolkit (classes not under
    src/), with the arguments that vary from call to call: offsets and
    lengths in bytes or as BitOffset as the source passes them, the bytes,
    bits or text written, and the cursor position asked for. *)
Inductive Command : Type :=
| insert_data (at_byte : Z) (data : list Z) (new_cursor_pos : BitOffset)
| overwrite_data (at_offset : BitOffset) (data : list Z) (to_write : Z)
    (new_cursor_pos : BitOffset)
| overwrite_bits (at_offset : BitOffset) (bits : list bool)
    (new_cursor_pos : BitOffset)
| replace_data (at_byte old_length : Z) (data : list Z)
    (new_cursor_pos : BitOffset)
| erase_data (at_byte erase_length : Z) (new_cursor_pos : BitOffset)
| insert_text (at_byte : Z) (utf8_text : string)
| overwrite_text (at_offset : BitOffset) (utf8_text : string)
| replace_text (at_byte old_length : Z) (utf8_text : string)
| clear_selection
| set_insert_mode (insert_mode : bool)
| EditCommentDialog_run_modal (c_offset c_length : BitOffset)
| compare_range (at_byte range_length : Z)
| VirtualMappingDialog_ShowModal (at_byte range_length : Z)
| wxBell.

(** What the handlers read of the document control and the document:
    [get_cursor_position()], [get_insert_mode()], [get_selection_linear()],
    [has_selection()], [hex_view_active()], [ascii_view_active()],
    [get_cursor_state() == CSTATE_ASCII] and [doc->buffer_length()]. *)
Record View : Type := mkView {
  get_cursor_position : BitOffset;
  get_insert_mode : bool;
  get_selection_linear : BitOffset * BitOffset;
  has_selection : bool;
  hex_view_active : bool;
  ascii_view_active : bool;
  cursor_state_ascii : bool;
  doc_buffer_length : Z
}.

(** [GetKeyCode()], [GetUnicodeKey()] and [GetModifiers()] of a key
    event. *)
Record KeyEvent : Type := mkKeyEvent {
  GetKeyCode : Z;
  GetUnicodeKey : Z;
  GetModifiers : Z
}.

(** Is the given value a 7-bit ASCII character representing a hex digit?
    The characters '0', '9', 'A', 'F', 'a', 'f' are 48, 57, 65, 70, 97,
    102. *)
Definition isasciihex (c : Z) : bool :=
  ((c >=? 48) && (c <=? 57))
  || ((c >=? 65) && (c <=? 70))
  || ((c >=? 97) && (c <=? 102)).

Section Editing.

(** [REHex::parse_hex_string]; [None] when it throws [ParseError]. *)
Variable parse_hex_string : string -> option (list Z).

(** [REHex::parse_ascii_nibble]. *)
Variable parse_ascii_nibble : Z -> Z.

(** [wxString(wxUniChar(ukey)).utf8_str()]. *)
Variable utf8_str : Z -> string.

(** Key codes and modifier sets of the toolkit. *)
Variables WXK_NONE WXK_INSERT WXK_DELETE WXK_BACK : Z.
Variables wxMOD_NONE wxMOD_SHIFT : Z.

(** The lambda [paste_data] of [paste_text]; [size] is the length of
    [data]. *)
Definition paste_data (v : View) (data : list Z) : list Command :=
  let size := Z.of_nat (List.length data) in
  let cursor_pos := get_cursor_position v in
  let insert_mode := get_insert_mode v in
  let (selection_off, selection_length) := get_selection_linear v in
  if selection_length >? BitOffset_ZERO then
    if byte_aligned selection_off && byte_aligned selection_length then
      [replace_data (byte selection_off) (byte selection_length) data
         (selection_off + mkBitOffset size 0);
       clear_selection]
    else [wxBell]
  else if has_selection v then [wxBell]
  else if insert_mode then
    if byte_aligned cursor_pos then
      [insert_data (byte cursor_pos) data (cursor_pos + mkBitOffset size 0)]
    else [wxBell]
  else
    let to_end := byte (mkBitOffset (doc_buffer_length v) 0 - cursor_pos) in
    let to_write := Z.min to_end size in
    [overwrite_data cursor_pos data to_write
       (cursor_pos + mkBitOffset to_write 0)].

(** The lambda [paste_text] of [paste_text]; [write_text_ok] tells whether
    the document answers [WRITE_TEXT_OK] to the call made. *)
Definition paste_utf8_text (write_text_ok : bool) (v : View) (utf8_text : string)
  : list Command :=
  let cursor_pos := get_cursor_position v in
  let insert_mode := get_insert_mode v in
  let (selection_off, selection_length) := get_selection_linear v in
  let bell_unless_ok := if write_text_ok then [] else [wxBell] in
  if selection_length >? 0 then
    if byte_aligned selection_off && byte_aligned selection_length then
      [replace_text (byte selection_off) (byte selection_length) utf8_text;
       clear_selection] ++ bell_unless_ok
    else [wxBell]
  else if has_selection v then [wxBell]
  else if insert_mode then
    if byte_aligned cursor_pos then
      [insert_text (byte cursor_pos) utf8_text] ++ bell_unless_ok
    else [wxBell]
  else [overwrite_text cursor_pos utf8_text] ++ bell_unless_ok.

Definition paste_text (write_text_ok : bool) (v : View) (text : string)
  : list Command :=
  if cursor_state_ascii v then paste_utf8_text write_text_ok v text
  else
    match parse_hex_string text with
    | Some clipboard_data => paste_data v clipboard_data
    | None => []
    end.

(** [OnDocumentCtrlChar]: the calls made and whether the event is skipped,
    for a key event that the region under the cursor has handled or not
    ([region_OnChar]), with the offset of the data region under the cursor
    ([region], NULL is [None]); [None] when the assertion on the region
    fails. *)
Definition OnDocumentCtrlChar (region_OnChar : bool) (event : KeyEvent)
  (v : View) (region : option BitOffset) : option (list Command * bool) :=
  if region_OnChar then Some ([], false)
  else
    let key := GetKeyCode event in
    let ukey := GetUnicodeKey event in
    let modifiers := GetModifiers event in
    let cursor_pos := get_cursor_position v in
    match region with
    | None => None
    | Some d_offset =>
        let cursor_pos_within_region := cursor_pos - d_offset in
        let (selection_off, selection_length) := get_selection_linear v in
        let insert_mode := get_insert_mode v in
        if hex_view_active v
           && ((modifiers =? wxMOD_NONE) || (modifiers =? wxMOD_SHIFT))
           && isasciihex key
        then
          let nibble := parse_ascii_nibble key in
          if insert_mode
             && negb (bo_mod cursor_pos_within_region (mkBitOffset 1 0)
                      =? mkBitOffset 0 4)
          then
            if negb (byte_aligned cursor_pos) then Some ([wxBell], false)
            else
              let byte' := Z.land (Z.shiftl nibble 4) 255 in
              Some ([insert_data (byte cursor_pos) [byte']
                       (cursor_pos + mkBitOffset 0 4);
                     clear_selection], false)
          else
            let nibble_bits :=
              [negb (Z.land nibble 8 =? 0); negb (Z.land nibble 4 =? 0);
               negb (Z.land nibble 2 =? 0); negb (Z.land nibble 1 =? 0)] in
            Some ([overwrite_bits cursor_pos nibble_bits
                     (cursor_pos + mkBitOffset 0 4);
                   clear_selection], false)
        else if ascii_view_active v
                && ((modifiers =? wxMOD_NONE) || (modifiers =? wxMOD_SHIFT))
                && negb (ukey =? WXK_NONE) && negb (key =? 9)
        then
          let utf8_key := utf8_str ukey in
          if insert_mode then
            if byte_aligned cursor_pos
            then Some ([insert_text (byte cursor_pos) utf8_key], false)
            else Some ([wxBell], false)
          else Some ([overwrite_text cursor_pos utf8_key], false)
        else if modifiers =? wxMOD_NONE then
          if key =? WXK_INSERT then
            Some ([set_insert_mode (negb insert_mode)], false)
          else if key =? WXK_DELETE then
            if selection_length >? 0 then
              if byte_aligned selection_off && byte_aligned selection_length
              then Some ([erase_data (byte selection_off) (byte selection_length)
                            selection_off;
                          clear_selection], false)
              else Some ([wxBell], false)
            else if has_selection v then Some ([wxBell], false)
            else if byte_aligned cursor_pos
                    && byte_aligned cursor_pos_within_region
                    && (byte cursor_pos + 1 <? doc_buffer_length v)
            then Some ([erase_data (byte cursor_pos) 1 cursor_pos], false)
            else if byte_aligned cursor_pos
                    && byte_aligned cursor_pos_within_region
                    && (byte cursor_pos <? doc_buffer_length v)
            then Some ([erase_data (byte cursor_pos) 1
                          (cursor_pos - of_bytes 1)], false)
            else Some ([], false)
          else if key =? WXK_BACK then
            if selection_length >? BitOffset_ZERO then
              if byte_aligned selection_off && byte_aligned selection_length
              then Some ([erase_data (byte selection_off) (byte selection_length)
                            selection_off;
                          clear_selection], false)
              else Some ([wxBell], false)
            else if has_selection v then Some ([wxBell], false)
            else if (bit cursor_pos =? 4) && (bit cursor_pos_within_region =? 4)
            then Some ([erase_data (byte cursor_pos) 1
                          (cursor_pos - mkBitOffset 1 4)], false)
            else if (bit cursor_pos =? 0) && (bit cursor_pos_within_region =? 0)
            then Some ([erase_data (byte cursor_pos - 1) 1
                          (cursor_pos - mkBitOffset 1 0)], false)
            else Some ([wxBell], false)
          else if key =? 47 then
            if cursor_pos <? of_bytes (doc_buffer_length v)
            then Some ([EditCommentDialog_run_modal cursor_pos 0], false)
            else Some ([], false)
          else Some ([], true)
        else Some ([], true)
    end.

End Editing.

(** ** Context menus *)

Definition compare_selection (v : View) : list Command :=
  let (selection_off, selection_length) := get_selection_linear v in
  if (selection_length >? BitOffset_ZERO)
     && byte_aligned selection_off && byte_aligned selection_length
  then [compare_range (byte selection_off) (byte selection_length)]
  else [wxBell].

(** An item of a menu: whether it is enabled, and what its handler does
    when the item is chosen, [None] when an assertion of the handler
    fails. *)
Record MenuItem : Type := mkMenuItem {
  enabled : bool;
  chosen : option (list Command)
}.

(** The item "Compare selection..." of the menu of [OnDataRightClick]. *)
Definition compare_selection_item (v : View) : MenuItem :=
  let (selection_off, selection_length) := get_selection_linear v in
  mkMenuItem
    ((selection_length >? BitOffset_ZERO)
     && byte_aligned selection_off && byte_aligned selection_length)
    (if byte_aligned selection_off then
       if byte_aligned selection_length
       then Some [compare_range (byte selection_off) (byte selection_length)]
       else None
     else None).

(** The item "Set virtual address mapping..." of the same menu, which is
    there when at least a bit is selected. *)
Definition virtual_mapping_item (v : View) : option MenuItem :=
  let (selection_off, selection_length) := get_selection_linear v in
  if selection_length >? 0 then
    Some (mkMenuItem
            (byte_aligned selection_off && byte_aligned selection_off)
            (if byte_aligned selection_off then
               if byte_aligned selection_length
               then Some [VirtualMappingDialog_ShowModal (byte selection_off)
                            (byte selection_length)]
               else None
             else None))
  else None.

(** [OnCommentLeftClick], for the offset and the length of the comment
    that the event carries. *)
Definition OnCommentLeftClick (c_offset c_length : BitOffset) : list Command :=
  if c_offset <? 0 then []
  else [EditCommentDialog_run_modal c_offset c_length].

(** The lambda [add_comment] of the item "Copy comment(s)" of the menu of
    [OnCommentRightClick]: the comment is pushed on [selected_comments],
    then the loop over its children calls the lambda for each.  The
    iterator [comments.find(comment->key)] is the key; [fuel] bounds the
    calls and iterations in a row. *)
Fixpoint add_comment (fuel : nat) (comment : NodePtr)
  (selected_comments : list Key) {struct fuel} : outcome (list Key) :=
  match fuel with
  | O => OutOfFuel
  | S fuel' =>
      let selected_comments := selected_comments ++ [key (cur comment)] in
      add_comment_children fuel' (get_first_child comment) selected_comments
  end
with add_comment_children (fuel : nat) (comment : Ptr)
  (selected_comments : list Key) {struct fuel} : outcome (list Key) :=
  match comment with
  | None => Ok selected_comments
  | Some child =>
      match fuel with
      | O => OutOfFuel
      | S fuel' =>
          selected_comments <- add_comment fuel' child selected_comments ;;
          add_comment_children fuel' (get_next child) selected_comments
      end
  end.

(** The handler of "Copy comment(s)" for the node [root_comment] that
    [find_node] gave for the comment clicked: the comments put on the
    clipboard, [None] when the assertion that there is one fails.  Twice as
    many steps as there are comments in the subtree are allowed (shown
    below to be enough). *)
Definition copy_comments (root_comment : NodePtr) : outcome (option (list Key)) :=
  selected_comments <-
    add_comment (2 * List.length (node_keys (cur root_comment))) root_comment [] ;;
  if (0 <? List.length selected_comments)%nat
  then Ok (Some selected_comments)
  else Ok None.

(** ** Tool panes *)

(** The [int] of the code, taken as 32 bits in two's complement: a sum or a
    difference that leaves [INT_MIN .. INT_MAX] comes back into it from the
    other end. *)
Definition INT_MIN : Z := - 2 ^ 31.
Definition INT_MAX : Z := 2 ^ 31 - 1.

Definition int_wrap (x : Z) : Z := (x - INT_MIN) mod 2 ^ 32 + INT_MIN.

Definition int_add (a b : Z) : Z := int_wrap (a + b).
Definition int_sub (a b : Z) : Z := int_wrap (a - b).

(** Modelled from the spec: what the tab reads of the windows of the
    toolkit (classes not under src/).  Sizes are pixel counts in [int],
    taken along the axis of the splitter: heights for the horizontal tool
    pane, widths for the vertical one. *)

(** A page of a tool notebook: [IsShown()], [GetBestSize()],
    [GetMinSize()], [GetMaxSize()], [GetSize()]. *)
Record Page : Type := mkPage {
  IsShown : bool;
  GetBestSize : Z;
  GetMinSize : Z;
  GetMaxSize : Z;
  GetSize : Z
}.

(** A splitter with the tool notebook in its second pane: the current page
    of the notebook (NULL is [None]), the client size and the sash size of
    the splitter, the size of the notebook, whether the splitter is split
    and where its sash is. *)
Record Pane : Type := mkPane {
  GetCurrentPage : option Page;
  GetClientSize : Z;
  GetSashSize : Z;
  notebook_GetSize : Z;
  IsSplit : bool;
  GetSashPosition : Z
}.

Definition hsplit_clamp_sash (h : Pane) (sash_position : Z) : Z :=
  match GetCurrentPage h with
  | None => sash_position
  | Some ht_current_page =>
      let htp_mh := Z.max (GetMinSize ht_current_page) 0 in
      let htp_Mh := GetMaxSize ht_current_page in
      let hs_ch := GetClientSize h in
      let hs_ss := GetSashSize h in
      let extra_h := int_sub (notebook_GetSize h) (GetSize ht_current_page) in
      let sash_max := int_sub hs_ch (int_add (int_add htp_mh extra_h) hs_ss) in
      if sash_position >? sash_max then sash_max
      else
        if htp_Mh >? 0 then
          let sash_min :=
            int_sub hs_ch (int_add (int_add htp_Mh extra_h) hs_ss) in
          if sash_position <? sash_min then sash_min else sash_position
        else sash_position
  end.

Definition vsplit_clamp_sash (v : Pane) (sash_position : Z) : Z :=
  match GetCurrentPage v with
  | None => sash_position
  | Some vt_current_page =>
      let vtp_mw := Z.max (GetMinSize vt_current_page) 0 in
      let vtp_Mw := GetMaxSize vt_current_page in
      let vs_cw := GetClientSize v in
      let vs_ss := GetSashSize v in
      let extra_w := int_sub (notebook_GetSize v) (GetSize vt_current_page) in
      let sash_max := int_sub vs_cw (int_add (int_add vtp_mw extra_w) vs_ss) in
      if sash_position >? sash_max then sash_max
      else
        if vtp_Mw >? 0 then
          let sash_min :=
            int_sub vs_cw (int_add (int_add vtp_Mw extra_w) vs_ss) in
          if sash_position <? sash_min then sash_min else sash_position
        else sash_position
  end.

(** What a handler does to a splitter and to the idle events of the tab. *)
Inductive PaneEffect : Type :=
| SetSashPosition (sash_position : Z)
| Unsplit
| Split
| Bind_wxEVT_IDLE
| Unbind_wxEVT_IDLE.

(** [OnSize], for the horizontal and the vertical pane: the sash positions
    set. *)
Definition OnSize (h v : Pane) : list PaneEffect * list PaneEffect :=
  ((if IsSplit h then
      let hs_sp := GetSashPosition h in
      let hs_cp := hsplit_clamp_sash h hs_sp in
      if negb (hs_sp =? hs_cp) then [SetSashPosition hs_cp] else []
    else []),
   (if IsSplit v then
      let vs_sp := GetSashPosition v in
      let vs_cp := vsplit_clamp_sash v vs_sp in
      if negb (vs_sp =? vs_cp) then [SetSashPosition vs_cp] else []
    else [])).

(** [OnHSplitterSashPosChanging] and [OnVSplitterSashPosChanging]: the sash
    position the event is left with, for the one it came with. *)
Definition OnHSplitterSashPosChanging (h : Pane) (pos : Z) : Z :=
  let clamp := hsplit_clamp_sash h pos in
  if negb (pos =? clamp) then clamp else pos.

Definition OnVSplitterSashPosChanging (v : Pane) (pos : Z) : Z :=
  let clamp := vsplit_clamp_sash v pos in
  if negb (pos =? clamp) then clamp else pos.

(** The fields of the tab for the deferred adjusting of one tool pane:
    [vtools_adjust_pending], [vtools_adjust_force], [vtools_initial_size]
    for the vertical pane, and the same with [htools] for the horizontal
    one. *)
Record Adjust : Type := mkAdjust {
  adjust_pending : bool;
  adjust_force : bool;
  initial_size : Z
}.

Definition vtools_adjust_on_idle (force_resize : bool) (a : Adjust)
  : Adjust * list PaneEffect :=
  let a := if force_resize
           then mkAdjust (adjust_pending a) true (initial_size a)
           else a in
  if negb (adjust_pending a)
  then (mkAdjust true (adjust_force a) (initial_size a), [Bind_wxEVT_IDLE])
  else (a, []).

Definition htools_adjust_on_idle (force_resize : bool) (a : Adjust)
  : Adjust * list PaneEffect :=
  let a := if force_resize
           then mkAdjust (adjust_pending a) true (initial_size a)
           else a in
  if negb (adjust_pending a)
  then (mkAdjust true (adjust_force a) (initial_size a), [Bind_wxEVT_IDLE])
  else (a, []).

(** The sash position set for the current page, where the pane is split
    and the page shown: by the size saved, by the best size when the resize
    is forced, by the minimum or the maximum size when the page is beyond
    it; or none. *)
Definition vtools_adjust (v : Pane) (force_resize : bool) (a : Adjust)
  : Adjust * list PaneEffect :=
  if adjust_pending a then vtools_adjust_on_idle force_resize a
  else
    let done (effects : list PaneEffect) :=
      (mkAdjust (adjust_pending a) false (-1), effects) in
    match GetCurrentPage v with
    | Some vt_current_page =>
        if negb (IsShown vt_current_page) then
          if IsSplit v then done [Unsplit] else done []
        else
          if negb (IsSplit v) then
            let (a, effects) := vtools_adjust_on_idle true a in
            (a, Split :: effects)
          else
            let vtp_bw := Z.max (GetBestSize vt_current_page) 0 in
            let vtp_mw := GetMinSize vt_current_page in
            let vtp_Mw := GetMaxSize vt_current_page in
            let vtp_cw := GetSize vt_current_page in
            if initial_size a >? 0 then
              let adj_width := int_sub (initial_size a) vtp_cw in
              done [SetSashPosition (int_sub (GetSashPosition v) adj_width)]
            else if force_resize then
              let adj_width := int_sub vtp_bw vtp_cw in
              done [SetSashPosition (int_sub (GetSashPosition v) adj_width)]
            else if (vtp_mw >? 0) && (vtp_cw <? vtp_mw) then
              let adj_width := int_sub vtp_mw vtp_cw in
              done [SetSashPosition (int_sub (GetSashPosition v) adj_width)]
            else if (vtp_Mw >? 0) && (vtp_cw >? vtp_Mw) then
              let adj_width := int_sub vtp_Mw vtp_cw in
              done [SetSashPosition (int_sub (GetSashPosition v) adj_width)]
            else done []
    | None => if IsSplit v then done [Unsplit] else done []
    end.

Definition htools_adjust (h : Pane) (force_resize : bool) (a : Adjust)
  : Adjust * list PaneEffect :=
  if adjust_pending a then htools_adjust_on_idle force_resize a
  else
    let done (effects : list PaneEffect) :=
      (mkAdjust (adjust_pending a) (adjust_force a) (-1), effects) in
    match GetCurrentPage h with
    | Some ht_current_page =>
        if negb (IsShown ht_current_page) then
          if IsSplit h then done [Unsplit] else done []
        else
          if negb (IsSplit h) then
            let (a, effects) := htools_adjust_on_idle true a in
            (a, Split :: effects)
          else
            let htp_bh := Z.max (GetBestSize ht_current_page) 0 in
            let htp_mh := GetMinSize ht_current_page in
            let htp_Mh := GetMaxSize ht_current_page in
            let htp_ch := GetSize ht_current_page in
            if initial_size a >? 0 then
              let adj_height := int_sub (initial_size a) htp_ch in
              done [SetSashPosition (int_sub (GetSashPosition h) adj_height)]
            else if force_resize then
              let adj_height := int_sub htp_bh htp_ch in
              done [SetSashPosition (int_sub (GetSashPosition h) adj_height)]
            else if (htp_mh >? 0) && (htp_ch <? htp_mh) then
              let adj_height := int_sub htp_mh htp_ch in
              done [SetSashPosition (int_sub (GetSashPosition h) adj_height)]
            else if (htp_Mh >? 0) && (htp_ch >? htp_Mh) then
              let adj_height := int_sub htp_Mh htp_ch in
              done [SetSashPosition (int_sub (GetSashPosition h) adj_height)]
            else done []
    | None => if IsSplit h then done [Unsplit] else done []
    end.

Definition vtools_adjust_now_idle (v : Pane) (a : Adjust)
  : Adjust * list PaneEffect :=
  let force_resize := adjust_force a in
  let a := mkAdjust false false (initial_size a) in
  let (a, effects) := vtools_adjust v force_resize a in
  (a, Unbind_wxEVT_IDLE :: effects).

Definition htools_adjust_now_idle (h : Pane) (a : Adjust)
  : Adjust * list PaneEffect :=
  let force_resize := adjust_force a in
  let a := mkAdjust false false (initial_size a) in
  let (a, effects) := htools_adjust h force_resize a in
  (a, Unbind_wxEVT_IDLE :: effects).

(** ** Vocabulary of the properties *)

(** The offsets [l] never go down. *)
Fixpoint ascending (l : list Z) : bool :=
  match l with
  | [] => true
  | x :: l' =>
      match l' with
      | [] => true
      | y :: _ => (x <=? y) && ascending l'
      end
  end.

(** The comments of a document, walked depth first, are met at offsets
    that never go down: roots and siblings are in ascending order and
    children do not start before their parent or after its next sibling. *)
Definition comments_ordered (doc : Document) : bool :=
  ascending (map offset (forest_keys (get_comments doc))).

(** [rs] lie end to end from [from] to [to], each taking at least one
    bit. *)
Fixpoint tiles {Payload : Type} (from : BitOffset) (rs : list (Region Payload))
  (to : BitOffset) : Prop :=
  match rs with
  | [] => from = to
  | r :: rs' =>
      r_offset r = from /\ 0 < r_length r /\ tiles (from + r_length r) rs' to
  end.

Definition total_length {Payload : Type} (rs : list (Region Payload)) : BitOffset :=
  fold_right (fun r acc => r_length r + acc) 0 rs.

(** The virtual position of [r] is [delta] after its real position. *)
Definition in_lockstep {Payload : Type} (delta : BitOffset) (r : Region Payload)
  : Prop :=
  r_virt r - r_offset r = delta.

(** The length of the indented range a comment marker carries (zero for
    the other regions). *)
Definition indent_length_of {Payload : Type} (r : Region Payload) : BitOffset :=
  match r with
  | CommentRegion _ _ _ _ _ l => l
  | _ => 0
  end.

(** The length of the comment a marker stands for. *)
Definition comment_length_of {Payload : Type} (r : Region Payload) : BitOffset :=
  match r with
  | CommentRegion _ l _ _ _ _ => l
  | _ => 0
  end.

(** What holds of the main loop each time round when it compiles
    [length] bits from [base]: the data regions built so far lie end to end
    from [base] to [next_data], [remain_data] is what is left of [length],
    and the comments ahead are met at ascending offsets. *)
Definition covered {Payload : Type} (base length : BitOffset)
  (st : LoopState Payload) : Prop :=
  tiles base (data_regions (regions st)) (next_data st)
  /\ next_data st + remain_data st = base + length
  /\ 0 <= remain_data st
  /\ ascending (map offset (ahead_keys (next_comment st))) = true.

(** A comment that starts inside a comment met before it, depth first,
    ends inside it too. *)
Fixpoint well_nested (ks : list Key) : bool :=
  match ks with
  | [] => true
  | c :: post =>
      forallb (fun c' =>
                 (length c <=? 0)
                 || (offset c + length c <=? offset c')
                 || (offset c' + length c' <=? offset c + length c)) post
      && well_nested post
  end.

Definition comments_nested (doc : Document) : bool :=
  well_nested (forest_keys (get_comments doc)).

(** The comment [n] lies in [lo, hi] and has no negative length, and its
    children lie inside it, one after the other in order: each child, with
    what is below it, starts at or after the end of the child before. *)
Fixpoint node_wf (lo hi : BitOffset) (n : Node) {struct n} : Prop :=
  match n with
  | mkNode k _ cs =>
      lo <= offset k /\ 0 <= length k /\ offset k + length k <= hi
      /\ (fix siblings (lo' : BitOffset) (ns : list Node) {struct ns} : Prop :=
            match ns with
            | [] => True
            | c :: ns' =>
                node_wf lo' (offset k + length k) c
                /\ siblings (offset (key c) + length (key c)) ns'
            end) (offset k) cs
  end.

(** The siblings [ns] lie in [lo, hi], one after the other in order. *)
Fixpoint siblings_wf (hi lo : BitOffset) (ns : list Node) {struct ns} : Prop :=
  match ns with
  | [] => True
  | c :: ns' =>
      node_wf lo hi c /\ siblings_wf hi (offset (key c) + length (key c)) ns'
  end.

(** The comments of a document are a forest in order: the invariant of the
    comment tree. *)
Definition comments_well_formed (doc : Document) : Prop :=
  exists hi, siblings_wf hi 0 (get_comments doc).

(** The type ranges [ts] lie end to end from [from] to [to], none empty. *)
Fixpoint types_cover (from : BitOffset) (ts : list TypeRange) (to : BitOffset)
  : Prop :=
  match ts with
  | [] => from = to
  | t :: ts' =>
      t_offset t = from /\ 0 < t_length t
      /\ types_cover (from + t_length t) ts' to
  end.

(** The type ranges of a document are a partition of its bytes. *)
Definition types_partition (doc : Document) : Prop :=
  types_cover 0 (get_data_types doc) (mkBitOffset (buffer_length doc) 0).

(** The type of the range [t] has no factory, or its factory is never left
    with an empty length: a positive length at least its fixed size is still
    positive once clamped to the fixed size or rounded down to words. *)
Definition keeps_positive {Payload : Type}
  (get_type : TypeInfo -> option (@DataType Payload)) (t : TypeRange) : Prop :=
  forall dr dty factory,
    0 < dr -> factory_for (get_type (t_info t)) dr = Some (dty, factory) ->
    0 < typed_length dty dr.

(** Every comment of [ks] that starts before a nesting boundary of [lim]
    ends at or before it. *)
Definition limits_respected (lim : list BitOffset) (ks : list Key) : Prop :=
  forall l c, In l lim -> In c ks -> offset c < l -> offset c + length c <= l.

(** The type cursor [ts] is at the range that holds [nd], the ranges after
    it follow end to end up to [to]; or it is at the end and [nd] is not
    before [to]. *)
Definition types_at (nd : BitOffset) (ts : list TypeRange) (to : BitOffset) : Prop :=
  match ts with
  | [] => to <= nd
  | t :: ts' =>
      t_offset t <= nd < t_offset t + t_length t
      /\ types_cover (t_offset t + t_length t) ts' to
  end.

(** What holds of the main loop each time round in a compile of a
    well-formed document, besides [covered]: the assertions of the next
    iteration on the buffer, the comments, the nesting stack and the type
    ranges cannot fail. *)
Definition ready {Payload : Type} (d : Document) (mode : InlineCommentMode)
  (base length : BitOffset) (st : LoopState Payload) : Prop :=
  covered base length st
  /\ base + length <= mkBitOffset (buffer_length d) 0
  /\ match next_comment st with
     | None => True
     | Some q => next_data st <= offset (key (cur q))
     end
  /\ (nest_of mode = true ->
      well_nested (ahead_keys (next_comment st)) = true
      /\ limits_respected (dr_limit st) (ahead_keys (next_comment st)))
  /\ types_at (next_data st) (types_iter st) (mkBitOffset (buffer_length d) 0).

(** The keys of the comments whose markers are in [rs], in the order of the
    markers. *)
Definition marker_keys {Payload : Type} (rs : list (Region Payload)) : list Key :=
  map (fun r => mkKey (r_offset r) (comment_length_of r)) (filter is_comment rs).

(** The first data region of [rs], if any. *)
Definition first_data_region {Payload : Type} (rs : list (Region Payload))
  : option (Region Payload) :=
  find (fun r => negb (is_comment r)) rs.

(** Every comment marker of [rs] has a data region after it, and the first
    one after it starts at the offset of the comment. *)
Fixpoint markers_lead {Payload : Type} (rs : list (Region Payload)) : bool :=
  match rs with
  | [] => true
  | r :: rs' =>
      (if is_comment r then
         match first_data_region rs' with
         | Some data => r_offset data =? r_offset r
         | None => false
         end
       else true)
      && markers_lead rs'
  end.

(** No comment of the subtree [n] that starts before [base] has a comment
    below it that starts at [base] or later. *)
Fixpoint closed_before (base : BitOffset) (n : Node) : bool :=
  match n with
  | mkNode k _ cs =>
      (if offset k <? base
       then forallb (fun c => offset c <? base) (flat_map node_keys cs)
       else true)
      && forallb (closed_before base) cs
  end.

(** The same of all the nodes a pointer can still reach by going down, to
    the next sibling, or up and to the next sibling. *)
Definition reach_closed_before (base : BitOffset) (p : Ptr) : bool :=
  match p with
  | None => true
  | Some q =>
      closed_before base (cur q)
      && forallb (closed_before base) (nexts q)
      && forallb (fun a => forallb (closed_before base) (snd a)) (above q)
  end.

(** What holds of the main loop each time round, besides [covered], of
    the comments [ks] that were ahead when it started: the markers pushed so
    far and the comments still ahead make up [ks], the markers pushed are of
    comments that start before the end of the range, and the comment cursor
    is not before [next_data]. *)
Definition shown {Payload : Type} (ks : list Key) (base length : BitOffset)
  (st : LoopState Payload) : Prop :=
  covered base length st
  /\ match next_comment st with
     | None => True
     | Some q => next_data st <= offset (key (cur q))
     end
  /\ marker_keys (regions st) ++ ahead_keys (next_comment st) = ks
  /\ Forall (fun k => offset k < base + length) (marker_keys (regions st)).

(** The data region [r] does not cross the end of the comment of the
    marker [m]: if it starts before the end of the comment, it ends at or
    before it. *)
Definition ends_inside {Payload : Type} (m r : Region Payload) : Prop :=
  is_comment r = false ->
  r_offset r < r_offset m + comment_length_of m ->
  r_offset r + r_length r <= r_offset m + comment_length_of m.

(** No data region of [rs] crosses the end of a comment of at least one
    bit whose marker comes before it in [rs]. *)
Fixpoint regions_nested {Payload : Type} (rs : list (Region Payload)) : Prop :=
  match rs with
  | [] => True
  | m :: post =>
      (is_comment m = true -> 0 < comment_length_of m ->
       Forall (ends_inside m) post)
      /\ regions_nested post
  end.

(** What holds of the main loop each time round in a mode that nests,
    besides [covered]: the regions so far are nested, the nesting boundaries
    ascend from the top of the stack, and the end of each comment of at
    least one bit that has its marker is behind [next_data] or on the
    stack. *)
Definition nesting {Payload : Type} (st : LoopState Payload) : Prop :=
  regions_nested (regions st)
  /\ ascending (dr_limit st) = true
  /\ Forall (fun m =>
               is_comment m = true -> 0 < comment_length_of m ->
               r_offset m + comment_length_of m <= next_data st
               \/ In (r_offset m + comment_length_of m) (dr_limit st))
       (regions st).

(** The virtual segment [seg] lies inside the file. *)
Definition segment_in_file (d : Document) (seg : Segment) : Prop :=
  0 <= real_offset seg /\ 0 <= seg_length seg
  /\ real_offset seg + seg_length seg <= buffer_length d.

(** The number of bits of the file that a view shows: the file, or the
    virtual segments when the virtual view has any. *)
Definition shown_length (d : Document) (ddm : DocumentDisplayMode) : BitOffset :=
  match ddm, get_virt_to_real_segs d with
  | DDM_VIRTUAL, seg :: segs =>
      fold_right (fun s acc => of_bytes (seg_length s) + acc) 0 (seg :: segs)
  | _, _ => of_bytes (buffer_length d)
  end.

(** The calls the host makes on a tab to have its regions computed. *)
Inductive TabCall : Type :=
| CallRepopulate   (* repopulate_regions() *)
| CallFreeze       (* repopulate_regions_freeze() *)
| CallThaw.        (* repopulate_regions_thaw() *)

Definition call {Payload : Type}
  (get_type : TypeInfo -> option (@DataType Payload)) (c : TabCall)
  (t : Tab Payload) : outcome (Tab Payload) :=
  match c with
  | CallRepopulate => repopulate_regions get_type t
  | CallFreeze => Ok (repopulate_regions_freeze t)
  | CallThaw => repopulate_regions_thaw get_type t
  end.

(** A sequence of calls, one after the other. *)
Fixpoint calls {Payload : Type}
  (get_type : TypeInfo -> option (@DataType Payload)) (cs : list TabCall)
  (t : Tab Payload) : outcome (Tab Payload) :=
  match cs with
  | [] => Ok t
  | c :: cs' => t' <- call get_type c t ;; calls get_type cs' t'
  end.

(** A tab as its constructor initialises it, before the first call. *)
Definition new_tab {Payload : Type} (d : Document) (ddm : DocumentDisplayMode)
  (mode : InlineCommentMode) : Tab Payload :=
  mkTab d ddm mode false false [] 0.

(** Modelled from the spec: what happens to a tab between two compiles.
    The document is owned and changed by the host, which raises an event
    after each change; the tab answers it with the handler it has bound to
    it.  An event comes with what it tells has changed of the document: the
    whole document after bytes were erased or inserted, the comments, the
    type ranges, or the virtual segments; overwritten bytes and changed
    highlights leave what the compiler reads of the document as it was.  The
    host also sets the two display modes and brackets bulk updates. *)
Inductive TabEvent : Type :=
| SetInlineCommentMode (mode : InlineCommentMode)
| SetDocumentDisplayMode (ddm : DocumentDisplayMode)
| DATA_ERASE (after : Document)
| DATA_INSERT (after : Document)
| DATA_OVERWRITE
| EV_COMMENT_MODIFIED (comments : list Node)
| EV_HIGHLIGHTS_CHANGED
| EV_TYPES_CHANGED (types : list TypeRange)
| EV_MAPPINGS_CHANGED (segs : list Segment)
| BULK_UPDATES_FROZEN
| BULK_UPDATES_THAWED.

(** The tab once its document has become [d]. *)
Definition with_doc {Payload : Type} (d : Document) (t : Tab Payload)
  : Tab Payload :=
  mkTab d (document_display_mode t) (inline_comment_mode t)
    (repopulate_regions_frozen t) (repopulate_regions_pending t)
    (doc_ctrl_regions t) (compiles t).

Definition handle {Payload : Type}
  (get_type : TypeInfo -> option (@DataType Payload)) (e : TabEvent)
  (t : Tab Payload) : outcome (Tab Payload) :=
  let d := doc t in
  match e with
  | SetInlineCommentMode mode => set_inline_comment_mode get_type mode t
  | SetDocumentDisplayMode ddm => set_document_display_mode get_type ddm t
  | DATA_ERASE after => OnDocumentDataErase get_type (with_doc after t)
  | DATA_INSERT after => OnDocumentDataInsert get_type (with_doc after t)
  | DATA_OVERWRITE => OnDocumentDataOverwrite t
  | EV_COMMENT_MODIFIED comments =>
      OnDocumentCommentModified get_type
        (with_doc (mkDocument (buffer_length d) comments (get_data_types d)
                     (get_virt_to_real_segs d)) t)
  | EV_HIGHLIGHTS_CHANGED => OnDocumenHighlightsChanged t
  | EV_TYPES_CHANGED types =>
      OnDocumentDataTypesChanged get_type
        (with_doc (mkDocument (buffer_length d) (get_comments d) types
                     (get_virt_to_real_segs d)) t)
  | EV_MAPPINGS_CHANGED segs =>
      OnDocumentMappingsChanged get_type
        (with_doc (mkDocument (buffer_length d) (get_comments d)
                     (get_data_types d) segs) t)
  | BULK_UPDATES_FROZEN => OnBulkUpdatesFrozen t
  | BULK_UPDATES_THAWED => OnBulkUpdatesThawed get_type t
  end.

(** A sequence of events, one after the other. *)
Fixpoint handles {Payload : Type}
  (get_type : TypeInfo -> option (@DataType Payload)) (es : list TabEvent)
  (t : Tab Payload) : outcome (Tab Payload) :=
  match es with
  | [] => Ok t
  | e :: es' => t' <- handle get_type e t ;; handles get_type es' t'
  end.

(** The regions the document control holds are those of the document as
    it is and of the modes as they are, unless a request is pending; and a
    request is pending only during a freeze. *)
Definition regions_current {Payload : Type}
  (get_type : TypeInfo -> option (@DataType Payload)) (t : Tab Payload) : Prop :=
  (repopulate_regions_frozen t = false -> repopulate_regions_pending t = false)
  /\ (repopulate_regions_pending t = false ->
      prepare_regions get_type (doc t) (document_display_mode t)
        (inline_comment_mode t) = Ok (doc_ctrl_regions t)).

(** What can happen to the notices of a tab: the calls of its host and
    the two events of its document, each with the answers given while it is
    handled. *)
Inductive NoticeCall : Type :=
| CallHideChildWindows
| CallUnhideChildWindows (u : Answers)
| CallSetParentWindowActive (u : Answers) (parent_window_active' : bool)
| CallSetAutoReload (auto_reload' : bool)
| BACKING_FILE_DELETED (u : Answers)
| BACKING_FILE_MODIFIED (u : Answers).

Definition notice (c : NoticeCall) (s : Notices) : Notices * list Effect :=
  match c with
  | CallHideChildWindows => hide_child_windows s
  | CallUnhideChildWindows u => unhide_child_windows u s
  | CallSetParentWindowActive u b => set_parent_window_active u b s
  | CallSetAutoReload b => (set_auto_reload b s, [])
  | BACKING_FILE_DELETED u => OnDocumentFileDeleted u s
  | BACKING_FILE_MODIFIED u => OnDocumentFileModified u s
  end.

(** A sequence of them, one after the other, with all the effects. *)
Fixpoint notices (cs : list NoticeCall) (s : Notices) : Notices * list Effect :=
  match cs with
  | [] => (s, [])
  | c :: cs' =>
      let (s1, effects1) := notice c s in
      let (s2, effects2) := notices cs' s1 in
      (s2, effects1 ++ effects2)
  end.

(** The fields as the constructor of the tab initialises them, with the
    child windows [ws] open. *)
Definition new_notices (ws : list Window) : Notices :=
  mkNotices false true false false false ws None None.

(** A modal dialog is run. *)
Definition is_dialog (e : Effect) : bool :=
  match e with
  | FileDeletedDialog | SaveAsDialog | DiscardChangesDialog | ReloadDialog => true
  | _ => false
  end.

(** The tab can show a dialog: its child windows are not hidden and its
    parent window is active. *)
Definition can_show (s : Notices) : bool :=
  negb (child_windows_hidden s) && parent_window_active s.

(** A dialog is run or the document is saved or reloaded: what a notice
    can lead to, besides windows hidden and shown and events forwarded. *)
Definition answers_notice (e : Effect) : bool :=
  match e with
  | Hide _ | ShowWithoutActivating _ | Forward => false
  | _ => true
  end.

(** The answers given while [c] is handled, if it can come to any. *)
Definition answers_of (c : NoticeCall) : option Answers :=
  match c with
  | CallUnhideChildWindows u | CallSetParentWindowActive u _
  | BACKING_FILE_DELETED u | BACKING_FILE_MODIFIED u => Some u
  | CallHideChildWindows | CallSetAutoReload _ => None
  end.

(** The reload among [es] was agreed to: the changes of a dirty document
    were given up in the dialog that asks; a clean document is reloaded
    because the tab reloads by itself or the user said yes in the dialog. *)
Definition consent (u : Answers) (s : Notices) (es : list Effect) : Prop :=
  (is_dirty u = true ->
   discard_response u <> wxID_NO /\ In DiscardChangesDialog es)
  /\ (is_dirty u = false ->
      auto_reload s = true
      \/ (reload_response u <> ID_IGNORE /\ In ReloadDialog es)).


(** The size the sash position [sash_position] leaves to the page [page]
    of the notebook in the second pane of [p]: what is left of the client
    size of the splitter once the first pane, the sash and what the notebook
    adds around its page are taken off. *)
Definition page_room (p : Pane) (page : Page) (sash_position : Z) : Z :=
  GetClientSize p - sash_position - GetSashSize p
  - (notebook_GetSize p - GetSize page).

(** The sizes read off the pane [p] and its page [page] are sizes of
    windows on a screen: none is beyond [2^28] pixels either way, so that
    nothing the clamp computes from them leaves [int]. *)
Definition screen_size (x : Z) : Prop := - 2 ^ 28 <= x <= 2 ^ 28.

Definition on_screen (p : Pane) (page : Page) : Prop :=
  screen_size (GetClientSize p) /\ screen_size (GetSashSize p)
  /\ screen_size (notebook_GetSize p) /\ screen_size (GetSize page)
  /\ screen_size (GetMinSize page) /\ screen_size (GetMaxSize page).

(** The sash position [clamp] gives for [pos] leaves the page at least its
    minimum size, taken at least zero, and at most its maximum size when
    that is set; it is [pos] when [pos] does so already; and clamping it
    again changes nothing. *)
Definition clamps_to_page (clamp : Pane -> Z -> Z) (p : Pane) (page : Page)
  (pos : Z) : Prop :=
  Z.max (GetMinSize page) 0 <= page_room p page (clamp p pos)
  /\ (0 < GetMaxSize page -> page_room p page (clamp p pos) <= GetMaxSize page)
  /\ (Z.max (GetMinSize page) 0 <= page_room p page pos ->
      (0 < GetMaxSize page -> page_room p page pos <= GetMaxSize page) ->
      clamp p pos = pos)
  /\ clamp p (clamp p pos) = clamp p pos.

(** What can happen to the deferred adjusting of a tool pane: a call of
    [vtools_adjust] or [vtools_adjust_on_idle] (or of their [htools] twins),
    and an idle event of the toolkit. *)
Inductive AdjustCall : Type :=
| CallAdjust (p : Pane) (force_resize : bool)
| CallAdjustOnIdle (force_resize : bool)
| wxEVT_IDLE (p : Pane).

(** The number of handlers bound to the idle event once [effects] are
    done, [bound] before. *)
Fixpoint bound_after (effects : list PaneEffect) (bound : nat) : nat :=
  match effects with
  | [] => bound
  | Bind_wxEVT_IDLE :: effects' => bound_after effects' (S bound)
  | Unbind_wxEVT_IDLE :: effects' => bound_after effects' (pred bound)
  | _ :: effects' => bound_after effects' bound
  end.

(** A call on the vertical pane, or on the horizontal one, with the
    number of handlers bound to the idle event: the toolkit runs the idle
    handler of the tab only when it is bound. *)
Definition vtools_call (c : AdjustCall) (s : Adjust * nat)
  : (Adjust * nat) * list PaneEffect :=
  let (a, bound) := s in
  let (a', effects) :=
    match c with
    | CallAdjust p force_resize => vtools_adjust p force_resize a
    | CallAdjustOnIdle force_resize => vtools_adjust_on_idle force_resize a
    | wxEVT_IDLE p =>
        match bound with
        | O => (a, [])
        | S _ => vtools_adjust_now_idle p a
        end
    end in
  ((a', bound_after effects bound), effects).

Definition htools_call (c : AdjustCall) (s : Adjust * nat)
  : (Adjust * nat) * list PaneEffect :=
  let (a, bound) := s in
  let (a', effects) :=
    match c with
    | CallAdjust p force_resize => htools_adjust p force_resize a
    | CallAdjustOnIdle force_resize => htools_adjust_on_idle force_resize a
    | wxEVT_IDLE p =>
        match bound with
        | O => (a, [])
        | S _ => htools_adjust_now_idle p a
        end
    end in
  ((a', bound_after effects bound), effects).

(** A sequence of calls, one after the other, with all the effects. *)
Fixpoint adjust_calls
  (call1 : AdjustCall -> Adjust * nat -> (Adjust * nat) * list PaneEffect)
  (cs : list AdjustCall) (s : Adjust * nat) : (Adjust * nat) * list PaneEffect :=
  match cs with
  | [] => (s, [])
  | c :: cs' =>
      let (s1, effects1) := call1 c s in
      let (s2, effects2) := adjust_calls call1 cs' s1 in
      (s2, effects1 ++ effects2)
  end.

(** The idle handler is bound once while an adjust is pending and not at
    all otherwise, and a resize is to be forced only while an adjust is
    pending. *)
Definition adjust_settled (s : Adjust * nat) : Prop :=
  snd s = (if adjust_pending (fst s) then 1%nat else 0%nat)
  /\ (adjust_force (fst s) = true -> adjust_pending (fst s) = true).

(** Whether a call asks for a forced resize; an idle event asks for
    nothing. *)
Definition asks_force (c : AdjustCall) : bool :=
  match c with
  | CallAdjust _ force_resize | CallAdjustOnIdle force_resize => force_resize
  | wxEVT_IDLE _ => false
  end.

Definition is_idle_event (c : AdjustCall) : bool :=
  match c with wxEVT_IDLE _ => true | _ => false end.

(** The fields as the constructor of the tab initialises them, with no
    handler bound. *)
Definition new_adjust : Adjust * nat := (mkAdjust false false (-1), O).

(** The number that the bits [bits] spell, the most significant first. *)
Definition bits_value (bits : list bool) : Z :=
  fold_left (fun acc (b : bool) => 2 * acc + (if b then 1 else 0)) bits 0.

(** The sash position [sash_position] leaves the page between its minimum
    size, taken at least zero, and its maximum size when that is set. *)
Definition page_in_bounds (p : Pane) (page : Page) (sash_position : Z) : Prop :=
  Z.max (GetMinSize page) 0 <= page_room p page sash_position
  /\ (0 < GetMaxSize page -> page_room p page sash_position <= GetMaxSize page).

(** The sash position of [p] once [effects] are done. *)
Definition sash_after (p : Pane) (effects : list PaneEffect) : Z :=
  fold_left (fun pos e => match e with SetSashPosition pos' => pos' | _ => pos end)
    effects (GetSashPosition p).

(** A registry that knows no type, and one that knows a little-endian
    32-bit word. *)
Definition no_types : TypeInfo -> option (@DataType string) := fun _ => None.

Definition untyped : TypeInfo := mkTypeInfo "" "".
Definition u32le : TypeInfo := mkTypeInfo "u32le" "".

Definition word_types : TypeInfo -> option (@DataType string) :=
  fun t =>
    if String.eqb (name t) "u32le"
    then Some (mkDataType (Some (fun _ _ _ => "u32le"%string)) 0 32)
    else None.



(** Ten untyped bytes with the comment "A" on bytes 2..4. *)
Definition doc_one_comment : Document :=
  mkDocument 10 [mkNode (mkKey 16 24) "A" []] [mkTypeRange 0 80 untyped] [].

(** Twelve bytes: two 32-bit words and four untyped bytes, with an empty
    comment at byte 4. *)
Definition doc_words : Document :=
  mkDocument 12 [mkNode (mkKey 32 0) "z" []]
    [mkTypeRange 0 64 u32le; mkTypeRange 64 32 untyped] [].



(** 300 untyped bytes seen through two virtual segments: virtual 0..4 is
    real 100..104, virtual 5..9 is real 200..204. *)
Definition doc_two_segments : Document :=
  mkDocument 300 [] [mkTypeRange 0 2400 untyped]
    [mkSegment 0 5 100; mkSegment 5 5 200].

(** Two bytes with nested comments and a comment at the end of the file. *)
Definition doc_end_comment : Document :=
  mkDocument 2
    [mkNode (mkKey 0 16) "A"
       [mkNode (mkKey 0 8) "B" []; mkNode (mkKey 12 0) "C" []];
     mkNode (mkKey 16 0) "end" []]
    [mkTypeRange 0 16 untyped] [].

(** A file of no byte with a comment at its end. *)
Definition doc_empty : Document :=
  mkDocument 0 [mkNode (mkKey 0 0) "empty" []] [] [].

(** One byte with a comment in the middle of it. *)
Definition doc_half_byte : Document :=
  mkDocument 1 [mkNode (mkKey 4 0) "h" []] [mkTypeRange 0 8 untyped] [].

(** Eight bytes that are two 32-bit words, as a file and as one virtual
    segment. *)
Definition doc_all_words : Document :=
  mkDocument 8 [] [mkTypeRange 0 64 u32le] [].

Definition doc_all_words_virtual : Document :=
  mkDocument 8 [] [mkTypeRange 0 64 u32le] [mkSegment 0 8 0].

(** Thirty-two untyped bytes with a comment on bytes 0..7 that has two
    comments below it and a comment on bytes 16..17, seen through a virtual
    segment on bytes 16..23. *)
Definition doc_nested_comments : Document :=
  mkDocument 32
    [mkNode (mkKey 0 64) "P"
       [mkNode (mkKey 8 8) "c1" []; mkNode (mkKey 40 8) "c2" []];
     mkNode (mkKey 128 16) "R" []]
    [mkTypeRange 0 256 untyped] [mkSegment 0 8 16].

(** The regions compiled for the virtual segment [seg] of [d]. *)
Definition compile_segment {Payload : Type}
  (get_type : TypeInfo -> option (@DataType Payload)) (d : Document)
  (mode : InlineCommentMode) (seg : Segment) : outcome (list (Region Payload)) :=
  compute_regions get_type d mode (of_bytes (real_offset seg))
    (of_bytes (virt_offset seg)) (of_bytes (seg_length seg)).

(** * Properties *)

(** ** BitOffset as a number of bits *)

(** The number of bits stands for one pair (bytes, bits): the accessors give
    back the pair it was made of, the pair of the accessors makes the number
    again, and the order of the numbers is the order of the pairs, bytes
    first. *)
Lemma byte_bit_mkBitOffset (b k : Z) :
  0 <= b -> 0 <= k < 8 ->
  byte (mkBitOffset b k) = b /\ bit (mkBitOffset b k) = k.
Proof.
  intros Hb Hk. unfold byte, bit, mkBitOffset.
  assert (Hq : Z.quot (8 * b + k) 8 = b).
  { rewrite Z.quot_div_nonneg by lia.
    symmetry. apply (Z.div_unique_pos _ _ _ k); lia. }
  split; [exact Hq|].
  pose proof (Z.quot_rem' (8 * b + k) 8). lia.
Qed.

Lemma mkBitOffset_byte_bit (x : BitOffset) : mkBitOffset (byte x) (bit x) = x.
Proof.
  unfold mkBitOffset, byte, bit. pose proof (Z.quot_rem' x 8). lia.
Qed.

Lemma mkBitOffset_lt (b1 k1 b2 k2 : Z) :
  0 <= k1 < 8 -> 0 <= k2 < 8 ->
  (mkBitOffset b1 k1 < mkBitOffset b2 k2 <-> b1 < b2 \/ (b1 = b2 /\ k1 < k2)).
Proof. unfold mkBitOffset. lia. Qed.

Lemma mkBitOffset_add (b1 k1 b2 k2 : Z) :
  mkBitOffset b1 k1 + mkBitOffset b2 k2
  = mkBitOffset (b1 + b2 + (k1 + k2) / 8) ((k1 + k2) mod 8).
Proof.
  unfold mkBitOffset. pose proof (Z.div_mod (k1 + k2) 8). lia.
Qed.

(** ** The outcome monad *)

Lemma bind_Ok {A B : Type} (m : outcome A) (k : A -> outcome B) (b : B) :
  bind m k = Ok b -> exists a, m = Ok a /\ k a = Ok b.
Proof.
  destruct m as [a| |]; simpl; intros H; try discriminate.
  exists a; split; [reflexivity | assumption].
Qed.

Lemma assert_Ok (s : assertion) (b : bool) (u : unit) :
  assert s b = Ok u -> b = true.
Proof. destruct b; simpl; [reflexivity | discriminate]. Qed.

Lemma bind_fuel {A B : Type} (m : outcome A) (k : A -> outcome B) :
  m <> OutOfFuel -> (forall a, m = Ok a -> k a <> OutOfFuel) ->
  bind m k <> OutOfFuel.
Proof.
  destruct m as [a| |]; simpl; intros Hm Hk.
  - apply Hk; reflexivity.
  - discriminate.
  - exfalso; apply Hm; reflexivity.
Qed.

Lemma assert_fuel (s : assertion) (b : bool) : assert s b <> OutOfFuel.
Proof. destruct b; discriminate. Qed.

(** Takes an equation [bind m k = Ok b] apart, assertions included. *)
Ltac unbind H :=
  let a := fresh "a" in
  let Ha := fresh "Ha" in
  apply bind_Ok in H; destruct H as (a & Ha & H);
  try (apply assert_Ok in Ha).

Ltac unbind_as H x Hx :=
  apply bind_Ok in H; destruct H as (x & Hx & H);
  try (apply assert_Ok in Hx).

(** ** The comment cursor *)

Lemma ahead_keys_climb (c : Node) (ns : list Node) (ab : list (Node * list Node)) :
  ahead_keys (get_next (climb_from c ns ab)) = forest_keys ns ++ above_keys ab.
Proof.
  revert c ns; induction ab as [|[a an] ab IH]; intros c ns.
  - destruct ns as [|n ns]; simpl; [reflexivity|].
    unfold get_next, forest_keys; simpl.
    rewrite ?app_nil_r, <- ?app_assoc; reflexivity.
  - destruct ns as [|n ns]; simpl.
    + rewrite IH; reflexivity.
    + unfold get_next, forest_keys; simpl.
      rewrite ?app_nil_r, <- ?app_assoc; reflexivity.
Qed.

Lemma ahead_keys_next_sibling_up (p : NodePtr) :
  ahead_keys (Some p) = node_keys (cur p) ++ ahead_keys (next_sibling_up p).
Proof.
  unfold next_sibling_up, climb. rewrite ahead_keys_climb. reflexivity.
Qed.

Lemma node_keys_unfold (n : Node) :
  node_keys n = key n :: forest_keys (children n).
Proof. destruct n; reflexivity. Qed.

(** Iterating depth first leaves the node behind and nothing else. *)
Lemma ahead_keys_next_depth_first (p : NodePtr) :
  ahead_keys (Some p) = key (cur p) :: ahead_keys (next_depth_first p).
Proof.
  unfold next_depth_first, get_first_child.
  destruct (children (cur p)) as [|c cs] eqn:E.
  - rewrite ahead_keys_next_sibling_up, node_keys_unfold, E. reflexivity.
  - simpl. rewrite node_keys_unfold, E. simpl.
    rewrite <- !app_assoc. reflexivity.
Qed.

(** A step of the skipping loop leaves the node behind, and its subtree too
    when it does not go down. *)
Lemma ahead_keys_skip_step (next_data : BitOffset) (p : NodePtr) :
  exists behind,
    ahead_keys (Some p) = key (cur p) :: behind ++ ahead_keys (skip_step next_data p).
Proof.
  assert (Hup : exists behind,
             ahead_keys (Some p)
             = key (cur p) :: behind ++ ahead_keys (next_sibling_up p)).
  { exists (forest_keys (children (cur p))).
    rewrite ahead_keys_next_sibling_up, node_keys_unfold. reflexivity. }
  unfold skip_step.
  destruct (get_first_child p) as [fc|] eqn:E; [|exact Hup].
  destruct (_ || _); [|exact Hup].
  exists []. simpl.
  pose proof (ahead_keys_next_depth_first p) as H.
  unfold next_depth_first in H. rewrite E in H. exact H.
Qed.

Lemma ahead_next_depth_first (p : NodePtr) :
  ahead (Some p) = S (ahead (next_depth_first p)).
Proof. unfold ahead. rewrite ahead_keys_next_depth_first. reflexivity. Qed.

Lemma ahead_skip_step (next_data : BitOffset) (p : NodePtr) :
  (ahead (skip_step next_data p) < ahead (Some p))%nat.
Proof.
  unfold ahead. destruct (ahead_keys_skip_step next_data p) as [behind ->].
  simpl. rewrite length_app. lia.
Qed.

(** The skipping loop ends within as many steps as there are comments
    ahead; it stops at a comment that is not before [next_data], or at NULL,
    and what is then ahead was ahead before. *)
Lemma skip_comments_total (next_data : BitOffset) (fuel : nat) (p : Ptr) :
  (ahead p <= fuel)%nat ->
  exists p' behind,
    skip_comments fuel next_data p = Ok p'
    /\ ahead_keys p = behind ++ ahead_keys p'
    /\ match p' with
       | None => True
       | Some q => next_data <= offset (key (cur q))
       end.
Proof.
  revert p; induction fuel as [|fuel IH]; intros p Hfuel.
  - destruct p as [q|].
    + exfalso. unfold ahead in Hfuel. rewrite ahead_keys_next_depth_first in Hfuel.
      simpl in Hfuel. lia.
    + exists None, []. repeat split.
  - destruct p as [q|]; cbn [skip_comments].
    + destruct (offset (key (cur q)) <? next_data) eqn:E.
      * pose proof (ahead_skip_step next_data q) as Hlt.
        destruct (IH (skip_step next_data q)) as (p' & behind & Hs & Hk & Hp');
          [lia|].
        destruct (ahead_keys_skip_step next_data q) as [b Hb].
        exists p', (key (cur q) :: b ++ behind). repeat split; try assumption.
        rewrite Hb, Hk. simpl. rewrite <- app_assoc. reflexivity.
      * exists (Some q), []. repeat split. apply Z.ltb_ge in E. exact E.
    + exists None, []. repeat split.
Qed.

(** ** Ascending offsets *)

Lemma ascending_tail (x : Z) (l : list Z) :
  ascending (x :: l) = true -> ascending l = true.
Proof.
  destruct l as [|y l]; [reflexivity|].
  cbn [ascending]. intros H. apply andb_true_iff in H. apply H.
Qed.

Lemma ascending_suffix (behind l : list Z) :
  ascending (behind ++ l) = true -> ascending l = true.
Proof.
  induction behind as [|x behind IH]; simpl app; intros H; [exact H|].
  apply IH. exact (ascending_tail _ _ H).
Qed.

Lemma ascending_head (x : Z) (l : list Z) :
  ascending (x :: l) = true -> Forall (fun y => x <= y) l.
Proof.
  revert x; induction l as [|y l IH]; intros x H; constructor.
  - cbn [ascending] in H. apply andb_true_iff in H. lia.
  - cbn [ascending] in H. apply andb_true_iff in H. destruct H as [Hxy Hl].
    apply Z.leb_le in Hxy.
    eapply Forall_impl; [|exact (IH y Hl)]. simpl; intros; lia.
Qed.

(** ** A forest in order is met at ascending offsets and is well nested *)

Lemma Node_forall_ind (P : Node -> Prop) :
  (forall k t cs, Forall P cs -> P (mkNode k t cs)) -> forall n, P n.
Proof.
  intros H. fix IH 1. intros [k t cs]. apply H.
  induction cs as [|c cs IHcs]; constructor; [apply IH | exact IHcs].
Qed.

Lemma node_wf_unfold (lo hi : BitOffset) (k : Key) (t : string) (cs : list Node) :
  node_wf lo hi (mkNode k t cs)
  <-> lo <= offset k /\ 0 <= length k /\ offset k + length k <= hi
      /\ siblings_wf (offset k + length k) (offset k) cs.
Proof.
  cbn [node_wf].
  assert (Hsame : forall lo' ns,
             (fix siblings (lo' : BitOffset) (ns : list Node) {struct ns} : Prop :=
                match ns with
                | [] => True
                | c :: ns' =>
                    node_wf lo' (offset k + length k) c
                    /\ siblings (offset (key c) + length (key c)) ns'
                end) lo' ns
             <-> siblings_wf (offset k + length k) lo' ns).
  { intros lo' ns; revert lo'; induction ns as [|c ns IH]; intros lo'; simpl.
    - tauto.
    - rewrite IH. tauto. }
  rewrite Hsame. tauto.
Qed.

Lemma ascending_app (l1 l2 : list Z) :
  ascending l1 = true -> ascending l2 = true ->
  (forall x y, In x l1 -> In y l2 -> x <= y) ->
  ascending (l1 ++ l2) = true.
Proof.
  induction l1 as [|x l1 IH]; intros H1 H2 Hle; [exact H2|].
  simpl app. destruct l1 as [|x' l1].
  - simpl app. destruct l2 as [|y l2]; [reflexivity|].
    cbn [ascending]. apply andb_true_iff. split; [|exact H2].
    apply Z.leb_le. apply Hle; left; reflexivity.
  - cbn [ascending] in H1. apply andb_true_iff in H1. destruct H1 as [Hxx' H1].
    change (ascending (x :: x' :: l1 ++ l2) = true). cbn [ascending].
    apply andb_true_iff. split; [exact Hxx'|].
    apply IH; [exact H1 | exact H2|].
    intros a b Ha Hb. apply Hle; [right; exact Ha | exact Hb].
Qed.

Lemma ascending_cons (x : Z) (l : list Z) :
  ascending l = true -> (forall y, In y l -> x <= y) -> ascending (x :: l) = true.
Proof.
  intros Hl Hle. apply (ascending_app [x] l); [reflexivity | exact Hl|].
  intros a b [<-|[]] Hb. apply Hle. exact Hb.
Qed.

Lemma well_nested_app (l1 l2 : list Key) :
  well_nested l1 = true -> well_nested l2 = true ->
  (forall c c', In c l1 -> In c' l2 ->
     0 < length c -> offset c' < offset c + length c ->
     offset c' + length c' <= offset c + length c) ->
  well_nested (l1 ++ l2) = true.
Proof.
  induction l1 as [|c l1 IH]; intros H1 H2 Hcross; [exact H2|].
  simpl app. cbn [well_nested] in *.
  apply andb_true_iff in H1. destruct H1 as [Hc H1].
  apply andb_true_iff. split.
  - rewrite forallb_app. apply andb_true_iff. split; [exact Hc|].
    apply forallb_forall. intros c' Hc'.
    destruct (Z_le_gt_dec (length c) 0); [apply orb_true_iff; left;
      apply orb_true_iff; left; lia|].
    destruct (Z_le_gt_dec (offset c + length c) (offset c'));
      [apply orb_true_iff; left; apply orb_true_iff; right; lia|].
    apply orb_true_iff; right.
    assert (offset c' + length c' <= offset c + length c); [|lia].
    apply (Hcross c c'); [left; reflexivity | exact Hc' | lia | lia].
  - apply IH; [exact H1 | exact H2|].
    intros a b Ha Hb. apply Hcross; [right; exact Ha | exact Hb].
Qed.

(** What is shown of a comment in order, with what is below it: it lies in
    the bounds given, the keys met from it on lie inside it, ascend, and are
    well nested. *)
Lemma siblings_wf_keys (hi : BitOffset) (ns : list Node) :
  Forall (fun n => forall lo hi,
            node_wf lo hi n ->
            lo <= offset (key n) /\ offset (key n) + length (key n) <= hi
            /\ Forall (fun c => offset (key n) <= offset c /\ 0 <= length c
                                /\ offset c + length c
                                   <= offset (key n) + length (key n))
                 (node_keys n)
            /\ ascending (map offset (node_keys n)) = true
            /\ well_nested (node_keys n) = true) ns ->
  forall lo,
    siblings_wf hi lo ns ->
    Forall (fun c => lo <= offset c /\ 0 <= length c
                     /\ offset c + length c <= hi) (forest_keys ns)
    /\ ascending (map offset (forest_keys ns)) = true
    /\ well_nested (forest_keys ns) = true.
Proof.
  induction 1 as [|n ns Hn _ IH]; intros lo Hwf.
  - repeat split. constructor.
  - destruct Hwf as [Hwn Hwns].
    destruct (Hn lo hi Hwn) as (Hlo & Hhi & Hin & Hasc & Hnest).
    destruct (IH _ Hwns) as (Hin' & Hasc' & Hnest').
    rewrite Forall_forall in Hin, Hin'.
    unfold forest_keys. cbn [flat_map]. fold (forest_keys ns).
    assert (Hlen : 0 <= length (key n)).
    { specialize (Hin (key n)). rewrite node_keys_unfold in Hin.
      specialize (Hin (or_introl eq_refl)). lia. }
    repeat split.
    + apply Forall_forall. intros c Hc. apply in_app_or in Hc.
      destruct Hc as [Hc|Hc]; [specialize (Hin c Hc) | specialize (Hin' c Hc)]; lia.
    + rewrite map_app. apply ascending_app; [exact Hasc | exact Hasc'|].
      intros x y Hx Hy. apply in_map_iff in Hx, Hy.
      destruct Hx as (c & <- & Hc). destruct Hy as (c' & <- & Hc').
      specialize (Hin c Hc). specialize (Hin' c' Hc'). lia.
    + apply well_nested_app; [exact Hnest | exact Hnest'|].
      intros c c' Hc Hc' _ Hlt.
      specialize (Hin c Hc). specialize (Hin' c' Hc'). lia.
Qed.

Lemma node_wf_keys (n : Node) (lo hi : BitOffset) :
  node_wf lo hi n ->
  lo <= offset (key n) /\ offset (key n) + length (key n) <= hi
  /\ Forall (fun c => offset (key n) <= offset c /\ 0 <= length c
                      /\ offset c + length c <= offset (key n) + length (key n))
       (node_keys n)
  /\ ascending (map offset (node_keys n)) = true
  /\ well_nested (node_keys n) = true.
Proof.
  revert lo hi. induction n as [k t cs IH] using Node_forall_ind. intros lo hi Hwf.
  apply node_wf_unfold in Hwf. destruct Hwf as (Hlo & Hlen & Hhi & Hcs).
  destruct (siblings_wf_keys _ cs IH _ Hcs) as (Hin & Hasc & Hnest).
  rewrite node_keys_unfold. cbn [key children].
  rewrite Forall_forall in Hin.
  split; [exact Hlo|]. split; [exact Hhi|]. split; [|split].
  - constructor; [lia|]. apply Forall_forall. intros c Hc.
    specialize (Hin c Hc). lia.
  - cbn [map]. apply ascending_cons; [exact Hasc|].
    intros y Hy. apply in_map_iff in Hy. destruct Hy as (c & <- & Hc).
    specialize (Hin c Hc). lia.
  - cbn [well_nested]. apply andb_true_iff. split; [|exact Hnest].
    apply forallb_forall. intros c Hc. specialize (Hin c Hc).
    apply orb_true_iff. right. lia.
Qed.

(** The comments of a forest in order are met at ascending offsets, depth
    first, and are well nested. *)
Lemma comments_well_formed_ordered (d : Document) :
  comments_well_formed d ->
  comments_ordered d = true /\ comments_nested d = true.
Proof.
  intros [hi Hwf]. unfold comments_ordered, comments_nested.
  destruct (siblings_wf_keys hi (get_comments d)) with (lo := 0)
    as (_ & Hasc & Hnest); [|exact Hwf|split; assumption].
  apply Forall_forall. intros n _ lo' hi'. apply node_wf_keys.
Qed.

Section Properties.

Variable Payload : Type.
Variable get_type : TypeInfo -> option (@DataType Payload).

Implicit Types (r : Region Payload) (rs ms : list (Region Payload)).
Implicit Types (st : LoopState Payload) (p : Ptr) (q : NodePtr).
Implicit Types (mode : InlineCommentMode) (d : Document).

(** ** The loop over the comments at one offset *)

Lemma push_limit_Ok mode q (lim lim' : list BitOffset) :
  push_limit mode q lim = Ok lim' ->
  (nest_of mode && (length (key (cur q)) >? 0) = false /\ lim' = lim)
  \/ (nest_of mode && (length (key (cur q)) >? 0) = true
      /\ lim' = (offset (key (cur q)) + length (key (cur q))) :: lim).
Proof.
  unfold push_limit.
  destruct (nest_of mode && (length (key (cur q)) >? 0)); intros H.
  - unbind H. injection H as <-. right; split; reflexivity.
  - injection H as <-. left; split; reflexivity.
Qed.

Lemma push_limit_fuel mode q (lim : list BitOffset) :
  push_limit mode q lim <> OutOfFuel.
Proof.
  unfold push_limit. destruct (_ && _); [|discriminate].
  apply bind_fuel; [apply assert_fuel | discriminate].
Qed.

(** The comment loop ends within as many steps as there are comments
    ahead. *)
Lemma emit_comments_fuel mode (fuel : nat) (nd nv rem : BitOffset) p rs
  (lim : list BitOffset) :
  (ahead p <= fuel)%nat ->
  emit_comments mode fuel nd nv rem p rs lim <> OutOfFuel.
Proof.
  revert p rs lim; induction fuel as [|fuel IH]; intros p rs lim Hfuel.
  - destruct p as [q|]; [|discriminate].
    exfalso. rewrite ahead_next_depth_first in Hfuel. lia.
  - destruct p as [q|]; cbn [emit_comments]; [|discriminate].
    destruct (_ =? _); [|discriminate].
    apply bind_fuel; [apply push_limit_fuel|].
    intros lim' _. apply IH. rewrite ahead_next_depth_first in Hfuel. lia.
Qed.

(** What the comment loop leaves: the markers [ms] of the comments it went
    over, all at [nd]; a cursor that is NULL or not at [nd], with nothing
    ahead that was not ahead before; and the boundaries [pushed] of the
    comments that nest, all beyond [nd]. *)
Lemma emit_comments_Ok mode (fuel : nat) (nd nv rem : BitOffset) p rs
  (lim : list BitOffset) p' rs' (lim' : list BitOffset) :
  emit_comments mode fuel nd nv rem p rs lim = Ok (p', rs', lim') ->
  exists ms behind pushed,
    rs' = rs ++ ms
    /\ Forall (fun m => exists q,
                 m = comment_marker mode nv rem q
                 /\ offset (key (cur q)) = nd) ms
    /\ ahead_keys p = behind ++ ahead_keys p'
    /\ Forall (fun k => offset k = nd) behind
    /\ match p' with
       | None => True
       | Some q => offset (key (cur q)) <> nd
       end
    /\ lim' = pushed ++ lim
    /\ Forall (fun x => nd < x) pushed
    /\ (nest_of mode = false -> pushed = []).
Proof.
  revert p rs lim; induction fuel as [|fuel IH]; intros p rs lim H.
  - destruct p as [q|]; cbn [emit_comments] in H.
    + destruct (offset (key (cur q)) =? nd) eqn:E; [discriminate|].
      injection H as <- <- <-. exists [], [], [].
      rewrite app_nil_r. repeat split; auto.
      apply Z.eqb_neq in E. exact E.
    + injection H as <- <- <-. exists [], [], [].
      rewrite app_nil_r. repeat split; auto.
  - destruct p as [q|]; cbn [emit_comments] in H.
    + destruct (offset (key (cur q)) =? nd) eqn:E.
      * apply Z.eqb_eq in E. unbind H. rename a into lim1.
        apply IH in H.
        destruct H as (ms & behind & pushed & Hrs & Hms & Hk & Hb & Hp' & Hl & Hpu & Hn).
        destruct (push_limit_Ok _ _ _ _ Ha) as [[Hc ->]|[Hc ->]].
        -- exists (comment_marker mode nv rem q :: ms), (key (cur q) :: behind), pushed.
           rewrite Hrs, <- app_assoc. repeat split; auto.
           ++ constructor; [exists q; split; auto | exact Hms].
           ++ rewrite ahead_keys_next_depth_first, Hk. reflexivity.
        -- exists (comment_marker mode nv rem q :: ms), (key (cur q) :: behind),
             (pushed ++ [offset (key (cur q)) + length (key (cur q))]).
           rewrite Hrs, <- !app_assoc. repeat split; auto.
           ++ constructor; [exists q; split; auto | exact Hms].
           ++ rewrite ahead_keys_next_depth_first, Hk. reflexivity.
           ++ apply Forall_app; split; [exact Hpu|].
              constructor; [|constructor].
              apply andb_true_iff in Hc. destruct Hc as [_ Hc]. lia.
           ++ intros Hnest. rewrite Hnest in Hc. discriminate.
      * injection H as <- <- <-. exists [], [], [].
        rewrite app_nil_r. repeat split; auto.
        apply Z.eqb_neq in E. exact E.
    + injection H as <- <- <-. exists [], [], [].
      rewrite app_nil_r. repeat split; auto.
Qed.

(** ** The length of a data region *)

Lemma rem_nonneg_le (a b : Z) : 0 <= a -> 0 <= Z.rem a b <= a.
Proof.
  intros Ha.
  assert (Hpos : forall c, 0 < c -> 0 <= Z.rem a c <= a).
  { intros c Hc. split; [apply Z.rem_bound_pos | apply Z.rem_le]; lia. }
  destruct (Z.lt_trichotomy b 0) as [Hb|[->|Hb]].
  - rewrite <- (Z.opp_involutive b), Z.rem_opp_r'. apply Hpos. lia.
  - replace (Z.rem a 0) with a by (destruct a; reflexivity). lia.
  - apply Hpos. exact Hb.
Qed.

Lemma rem_nonpos_ge (a b : Z) : a <= 0 -> a <= Z.rem a b <= 0.
Proof.
  intros Ha. rewrite <- (Z.opp_involutive a), Z.rem_opp_l'.
  pose proof (rem_nonneg_le (- a) b). lia.
Qed.

Lemma clamp_comment_le (nd : BitOffset) p (dr : BitOffset) :
  clamp_comment nd p dr <= dr.
Proof.
  unfold clamp_comment. destruct p as [q|]; [|lia].
  destruct (dr >? offset (key (cur q)) - nd) eqn:E; lia.
Qed.

Lemma clamp_comment_pos (nd : BitOffset) p (dr : BitOffset) :
  match p with None => True | Some q => nd < offset (key (cur q)) end ->
  0 < dr -> 0 < clamp_comment nd p dr.
Proof.
  unfold clamp_comment. destruct p as [q|]; [|lia].
  destruct (dr >? offset (key (cur q)) - nd) eqn:E; lia.
Qed.

Lemma clamp_limit_Ok (nd : BitOffset) (lim : list BitOffset) (dr dr' : BitOffset) :
  clamp_limit nd lim dr = Ok dr' -> dr' <= dr /\ (0 < dr -> 0 < dr').
Proof.
  unfold clamp_limit. destruct lim as [|top lim].
  - intros H; injection H as <-. lia.
  - destruct (nd + dr >=? top) eqn:E; intros H.
    + unbind H. injection H as <-. lia.
    + injection H as <-. lia.
Qed.

Lemma clamped_length_Ok (nd rem : BitOffset) p (lim : list BitOffset)
  (dr : BitOffset) :
  clamped_length nd rem p lim = Ok dr ->
  dr <= rem
  /\ (match p with None => True | Some q => nd < offset (key (cur q)) end ->
      0 < rem -> 0 < dr).
Proof.
  unfold clamped_length. intros H. apply clamp_limit_Ok in H.
  pose proof (clamp_comment_le nd p rem).
  split; [lia|]. intros Hp Hrem.
  pose proof (clamp_comment_pos nd p rem Hp Hrem). lia.
Qed.

Lemma clamped_length_fuel (nd rem : BitOffset) p (lim : list BitOffset) :
  clamped_length nd rem p lim <> OutOfFuel.
Proof.
  unfold clamped_length, clamp_limit. destruct lim as [|top lim]; [discriminate|].
  destruct (_ >=? _); [|discriminate].
  apply bind_fuel; [apply assert_fuel | discriminate].
Qed.

Lemma byte_floor (dr : BitOffset) :
  mkBitOffset 1 0 <= dr ->
  mkBitOffset 1 0 <= mkBitOffset (byte dr) 0 <= dr.
Proof.
  unfold mkBitOffset, byte. intros H.
  pose proof (Z.quot_rem' dr 8). pose proof (Z.rem_bound_pos dr 8). lia.
Qed.

(** The region made for [dr] bits at [nd]: it is a data region at [nd] and
    at the virtual position [nv], of the length [dr'] that is returned; [dr']
    is at most [dr], and at least one bit if [dr] is; a region made by a
    factory has at least one bit in any case. *)
Lemma make_data_region_Ok (dt : option (@DataType Payload))
  (nd nv dr : BitOffset) r (dr' : BitOffset) :
  make_data_region dt nd nv dr = Ok (r, dr') ->
  is_comment r = false
  /\ r_offset r = nd /\ r_virt r = nv /\ r_length r = dr'
  /\ dr' <= dr
  /\ (0 < dr -> 0 < dr')
  /\ (is_typed r = true -> 0 < dr').
Proof.
  unfold make_data_region.
  destruct (factory_for dt dr) as [[dty factory]|].
  - intros H. unbind H. injection H as <- <-. simpl.
    assert (Hpos : 0 < typed_length dty dr) by (unfold BitOffset_ZERO in Ha; lia).
    assert (Hle : typed_length dty dr <= dr).
    { revert Hpos. unfold typed_length, bo_mod, BitOffset_ZERO.
      destruct (_ && _) eqn:E.
      - apply andb_true_iff in E. lia.
      - destruct (negb _); [|lia].
        destruct (Z_le_gt_dec 0 dr) as [Hdr|Hdr].
        + pose proof (rem_nonneg_le dr (word_size dty) Hdr). lia.
        + pose proof (rem_nonpos_ge dr (word_size dty)). lia. }
    repeat split; auto.
  - destruct (dr <? mkBitOffset 1 0) eqn:E; intros H; injection H as <- <-; simpl.
    + repeat split; try reflexivity; try lia; discriminate.
    + apply Z.ltb_ge in E. pose proof (byte_floor dr E) as Hfloor.
      unfold mkBitOffset in *.
      destruct (negb (byte_aligned dr)); repeat split;
        try reflexivity; try lia; discriminate.
Qed.

Lemma make_data_region_fuel (dt : option (@DataType Payload))
  (nd nv dr : BitOffset) :
  make_data_region dt nd nv dr <> OutOfFuel.
Proof.
  unfold make_data_region. destruct (factory_for dt dr) as [[dty factory]|].
  - apply bind_fuel; [apply assert_fuel | discriminate].
  - destruct (_ <? _); discriminate.
Qed.

(** ** One iteration of the main loop *)

(** An iteration that ends well, taken apart. *)
Lemma loop_body_Ok d mode st st' :
  loop_body get_type d mode st = Ok st' ->
  exists ms behind pushed p' t types_rest dr0 r dr,
    match next_comment st with
    | None => True
    | Some q => next_data st <= offset (key (cur q))
    end
    /\ emit_comments mode (ahead (next_comment st)) (next_data st) (next_virt st)
         (remain_data st) (next_comment st) (regions st)
         (pop_limits (next_data st) (dr_limit st))
       = Ok (p', regions st ++ ms, pushed ++ pop_limits (next_data st) (dr_limit st))
    /\ Forall (fun m => exists q,
                 m = comment_marker mode (next_virt st) (remain_data st) q
                 /\ offset (key (cur q)) = next_data st) ms
    /\ ahead_keys (next_comment st) = behind ++ ahead_keys p'
    /\ Forall (fun k => offset k = next_data st) behind
    /\ match p' with
       | None => True
       | Some q => offset (key (cur q)) <> next_data st
       end
    /\ Forall (fun x => next_data st < x) pushed
    /\ (nest_of mode = false -> pushed = [])
    /\ clamped_length (next_data st) (remain_data st) p'
         (pushed ++ pop_limits (next_data st) (dr_limit st)) = Ok dr0
    /\ types_iter st = t :: types_rest
    /\ t_offset t <= next_data st < t_offset t + t_length t
    /\ make_data_region (get_type (t_info t)) (next_data st) (next_virt st)
         (Z.min dr0 (type_remaining t (next_data st))) = Ok (r, dr)
    /\ st' = mkLoopState p'
               (if next_data st + dr >=? t_offset t + t_length t
                then types_rest else types_iter st)
               (next_data st + dr) (next_virt st + dr) (remain_data st - dr)
               (regions st ++ ms ++ [r])
               (pushed ++ pop_limits (next_data st) (dr_limit st)).
Proof.
  unfold loop_body. intros H.
  unbind H. clear a. unbind H. clear a.
  unbind H. destruct a as [[p' rs'] lim'].
  pose proof Ha1 as Hemit.
  apply emit_comments_Ok in Ha1.
  destruct Ha1 as (ms & behind & pushed & -> & Hms & Hk & Hb & Hp' & -> & Hpu & Hn).
  unbind H. rename a into dr0.
  destruct (types_iter st) as [|t types_rest] eqn:Ety; [discriminate|].
  unbind H. clear a. apply andb_true_iff in Ha2.
  unbind H. destruct a as [r dr]. injection H as <-.
  exists ms, behind, pushed, p', t, types_rest, dr0, r, dr.
  rewrite <- app_assoc.
  repeat split; try assumption; try lia.
  destruct (next_comment st) as [q|]; [lia | exact I].
Qed.

Lemma loop_body_fuel d mode st :
  loop_body get_type d mode st <> OutOfFuel.
Proof.
  unfold loop_body.
  apply bind_fuel; [apply assert_fuel | intros _ _].
  apply bind_fuel; [apply assert_fuel | intros _ _].
  apply bind_fuel; [apply emit_comments_fuel; lia | intros [[p' rs'] lim'] _].
  apply bind_fuel; [apply clamped_length_fuel | intros dr0 _].
  destruct (types_iter st) as [|t types_rest]; [discriminate|].
  apply bind_fuel; [apply assert_fuel | intros _ _].
  apply bind_fuel; [apply make_data_region_fuel | intros [r dr] _].
  discriminate.
Qed.

(** ** The main loop *)

(** What every iteration keeps, and holds at the start, holds at the end. *)
Lemma main_loop_invariant (Inv : LoopState Payload -> Prop) d mode :
  (forall st st', Inv st -> 0 < remain_data st ->
     loop_body get_type d mode st = Ok st' -> Inv st') ->
  forall (fuel : nat) st rs,
    Inv st -> main_loop get_type d mode fuel st = Ok rs ->
    exists st', Inv st' /\ remain_data st' <= 0 /\ regions st' = rs.
Proof.
  intros Hstep fuel; induction fuel as [|fuel IH]; intros st rs Hst H;
    cbn [main_loop] in H; destruct (remain_data st >? 0) eqn:E;
    try discriminate.
  - injection H as <-. exists st. repeat split; [assumption | lia].
  - unbind H. rename a into st1.
    apply (IH st1 rs); [|exact H]. apply (Hstep st); [assumption | lia | assumption].
  - injection H as <-. exists st. repeat split; [assumption | lia].
Qed.

(** When every iteration takes at least a bit off [remain_data], the loop
    ends within [remain_data] iterations. *)
Lemma main_loop_fuel (Inv : LoopState Payload -> Prop) d mode :
  (forall st st', Inv st -> 0 < remain_data st ->
     loop_body get_type d mode st = Ok st' ->
     Inv st' /\ remain_data st' < remain_data st) ->
  forall (fuel : nat) st,
    Inv st -> (Z.to_nat (remain_data st) <= fuel)%nat ->
    main_loop get_type d mode fuel st <> OutOfFuel.
Proof.
  intros Hstep fuel; induction fuel as [|fuel IH]; intros st Hst Hfuel;
    cbn [main_loop]; destruct (remain_data st >? 0) eqn:E; try discriminate.
  - exfalso. lia.
  - apply bind_fuel; [apply loop_body_fuel|].
    intros st1 Hbody.
    destruct (Hstep st st1 Hst ltac:(lia) Hbody) as [Hst1 Hlt].
    apply IH; [assumption | lia].
Qed.

(** ** Regions end to end *)

Lemma data_regions_app rs ms :
  data_regions (rs ++ ms) = data_regions rs ++ data_regions ms.
Proof. unfold data_regions. apply filter_app. Qed.

Lemma data_regions_markers mode (nv rem nd : BitOffset) ms :
  Forall (fun m => exists q,
            m = comment_marker mode nv rem q /\ offset (key (cur q)) = nd) ms ->
  data_regions ms = [].
Proof.
  induction 1 as [|m ms (q & -> & _) _ IH]; [reflexivity|].
  simpl. exact IH.
Qed.

Lemma data_regions_step mode (nv rem nd : BitOffset) rs ms r :
  Forall (fun m => exists q,
            m = comment_marker mode nv rem q /\ offset (key (cur q)) = nd) ms ->
  is_comment r = false ->
  data_regions (rs ++ ms ++ [r]) = data_regions rs ++ [r].
Proof.
  intros Hms Hr.
  rewrite !data_regions_app, (data_regions_markers _ _ _ _ _ Hms).
  unfold data_regions at 2. simpl. rewrite Hr. reflexivity.
Qed.

Lemma tiles_snoc (from to : BitOffset) rs r :
  tiles from rs to -> r_offset r = to -> 0 < r_length r ->
  tiles from (rs ++ [r]) (to + r_length r).
Proof.
  revert from; induction rs as [|r0 rs IH]; simpl; intros from H Ho Hl.
  - repeat split; lia.
  - destruct H as (H1 & H2 & H3). repeat split; auto.
Qed.

Lemma tiles_total_length (from to : BitOffset) rs :
  tiles from rs to -> total_length rs = to - from.
Proof.
  revert from; induction rs as [|r rs IH]; simpl; intros from H.
  - lia.
  - destruct H as (_ & _ & H). rewrite (IH _ H). lia.
Qed.

Lemma tiles_positive (from to : BitOffset) rs :
  tiles from rs to -> Forall (fun r => 0 < r_length r) rs.
Proof.
  revert from; induction rs as [|r rs IH]; simpl; intros from H; constructor.
  - apply H.
  - apply (IH (from + r_length r)). apply H.
Qed.

Lemma ascending_app_le (l1 l2 : list Z) (x : Z) :
  ascending (l1 ++ x :: l2) = true -> Forall (fun y => y <= x) l1.
Proof.
  induction l1 as [|y l1 IH]; simpl app; intros H; constructor.
  - apply ascending_head in H. rewrite Forall_forall in H.
    apply H. apply in_elt.
  - apply IH. exact (ascending_tail _ _ H).
Qed.

(** After the comment loop the cursor is NULL or beyond [next_data], when it
    was not before [next_data] and the comments are met in ascending
    order. *)
Lemma cursor_beyond (nd : BitOffset) p p' (behind : list Key) :
  ascending (map offset (ahead_keys p)) = true ->
  match p with None => True | Some q => nd <= offset (key (cur q)) end ->
  ahead_keys p = behind ++ ahead_keys p' ->
  Forall (fun k => offset k = nd) behind ->
  match p' with None => True | Some q => offset (key (cur q)) <> nd end ->
  match p' with None => True | Some q => nd < offset (key (cur q)) end.
Proof.
  intros Hasc Hp Hk Hb Hp'. destruct p' as [q'|]; [|exact I].
  enough (nd <= offset (key (cur q'))) by lia.
  rewrite (ahead_keys_next_depth_first q') in Hk.
  destruct behind as [|k behind].
  - destruct p as [q|]; [|discriminate].
    rewrite (ahead_keys_next_depth_first q) in Hk. simpl in Hk.
    injection Hk as Hk _. rewrite <- Hk. exact Hp.
  - rewrite Hk in Hasc. rewrite map_app in Hasc. simpl in Hasc.
    apply ascending_head in Hasc. rewrite Forall_forall in Hasc.
    inversion Hb as [|? ? Hknd _]; subst.
    apply Hasc. apply in_elt.
Qed.

(** An iteration of the main loop over a document whose comments are in
    order adds one data region of at least one bit where the last one
    ended, and takes its length off [remain_data]. *)
Lemma loop_body_covered d mode (base len : BitOffset) st st' :
  covered base len st -> 0 < remain_data st ->
  loop_body get_type d mode st = Ok st' ->
  covered base len st' /\ remain_data st' < remain_data st.
Proof.
  intros (Htiles & Hsum & Hrem & Hasc) Hpos H.
  apply loop_body_Ok in H.
  destruct H as (ms & behind & pushed & p' & t & types_rest & dr0 & r & dr
                 & Hp & _ & Hms & Hk & Hb & Hp' & _ & _ & Hcl & _ & Hcov & Hmk & ->).
  pose proof (cursor_beyond _ _ _ _ Hasc Hp Hk Hb Hp') as Hbeyond.
  apply clamped_length_Ok in Hcl. destruct Hcl as [Hle0 Hpos0].
  specialize (Hpos0 Hbeyond Hpos).
  apply make_data_region_Ok in Hmk.
  destruct Hmk as (Hnc & Hoff & _ & Hlen & Hle & Hpos' & _).
  unfold type_remaining in *.
  assert (0 < dr) by (apply Hpos'; lia).
  unfold covered; simpl. repeat split; try lia.
  - rewrite (data_regions_step _ _ _ _ _ _ _ Hms Hnc), <- Hlen.
    apply tiles_snoc; [assumption | assumption | lia].
  - rewrite Hk, map_app in Hasc. exact (ascending_suffix _ _ Hasc).
Qed.

(** What the main loop pushes is a run of comment markers and then one data
    region: a property of those regions, shown at the state they are made
    in, holds of all the regions of the result. *)
Lemma main_loop_regions (Inv : LoopState Payload -> Prop)
  (P : Region Payload -> Prop) d mode :
  (forall st st', Inv st -> 0 < remain_data st ->
     loop_body get_type d mode st = Ok st' -> Inv st') ->
  (forall st q, Inv st -> 0 < remain_data st ->
     offset (key (cur q)) = next_data st ->
     P (comment_marker mode (next_virt st) (remain_data st) q)) ->
  (forall st dt dr r dr', Inv st -> 0 < remain_data st ->
     make_data_region dt (next_data st) (next_virt st) dr = Ok (r, dr') ->
     P r) ->
  forall (fuel : nat) st rs,
    Inv st -> Forall P (regions st) ->
    main_loop get_type d mode fuel st = Ok rs -> Forall P rs.
Proof.
  intros Hinv Hmarker Hdata fuel st rs Hst Hrs H.
  destruct (main_loop_invariant
              (fun st => Inv st /\ Forall P (regions st)) d mode) with
    (fuel := fuel) (st := st) (rs := rs) as (st' & [_ Hall] & _ & <-);
    auto.
  clear - Hinv Hmarker Hdata.
  intros st st' [Hst Hrs] Hpos H. split; [exact (Hinv _ _ Hst Hpos H)|].
  apply loop_body_Ok in H.
  destruct H as (ms & behind & pushed & p' & t & types_rest & dr0 & r & dr
                 & _ & _ & Hms & _ & _ & _ & _ & _ & _ & _ & _ & Hmk & ->).
  simpl. rewrite !Forall_app. repeat split.
  - exact Hrs.
  - eapply Forall_impl; [|exact Hms].
    intros m (q & -> & Hq). apply Hmarker; assumption.
  - constructor; [|constructor]. exact (Hdata _ _ _ _ _ Hst Hpos Hmk).
Qed.

(** ** The start of a compile *)

Lemma ahead_keys_first_root_node (roots : list Node) :
  ahead_keys (first_root_node roots) = forest_keys roots.
Proof.
  destruct roots as [|r roots]; [reflexivity|].
  simpl. rewrite app_nil_r. reflexivity.
Qed.

(** The loops before the main loop always end: the main loop starts at
    [base] with [len] bits to go, no region and no nesting boundary, the
    type cursor at the first range that ends after [base], and the comment
    cursor NULL when comments are hidden, else at a comment of the tree. *)
Lemma initial_state_Ok d mode (base vbase len : BitOffset) :
  exists p0 behind,
    @initial_state Payload d mode base vbase len
    = Ok (mkLoopState p0 (skip_types base (get_data_types d)) base vbase len [] [])
    /\ forest_keys (get_comments d) = behind ++ ahead_keys p0
    /\ (mode = ICM_HIDDEN -> p0 = None)
    /\ match p0 with
       | None => True
       | Some q => base <= offset (key (cur q))
       end.
Proof.
  unfold initial_state.
  destruct (skip_comments_total base (ahead (first_root_node (get_comments d)))
              (first_root_node (get_comments d)) (le_n _))
    as (p' & behind & -> & Hk & Hp').
  rewrite ahead_keys_first_root_node in Hk. simpl.
  destruct mode;
    try (exists p', behind; repeat split; [assumption | discriminate | assumption]).
  exists None, (forest_keys (get_comments d)).
  rewrite app_nil_r. repeat split.
Qed.

(** ** The data regions of a result lie end to end *)

(** When the comments of the document are met at ascending offsets in
    depth-first order, whatever else the document is like, compiling
    [len] >= 0 bits from [base] ends within the iterations allowed, either
    at a failed assertion or with a region list whose data regions lie end
    to end from [base] to [base + len]. *)
Lemma compute_regions_tiles d mode (base vbase len : BitOffset) :
  comments_ordered d = true -> 0 <= len ->
  (exists rs,
     compute_regions get_type d mode base vbase len = Ok rs
     /\ tiles base (data_regions rs) (base + len)
     /\ total_length (data_regions rs) = len)
  \/ (exists site, compute_regions get_type d mode base vbase len = Abort site).
Proof.
  intros Hord Hlen. unfold compute_regions, compute_regions_in.
  destruct (initial_state_Ok d mode base vbase len) as (p0 & behind & -> & Hk & _).
  cbn [bind].
  set (st0 := mkLoopState p0 _ _ _ _ _ _).
  assert (Hst0 : covered base len st0).
  { unfold covered, st0; simpl. repeat split; try lia.
    unfold comments_ordered in Hord. rewrite Hk, map_app in Hord.
    exact (ascending_suffix _ _ Hord). }
  destruct (main_loop get_type d mode (Z.to_nat len) st0) as [rs|site|] eqn:E.
  - left. exists rs. split; [reflexivity|].
    destruct (main_loop_invariant (covered base len) d mode) with
      (fuel := Z.to_nat len) (st := st0) (rs := rs)
      as (st' & (Htiles & Hsum & Hrem & _) & Hdone & <-); auto.
    { intros st st' Hst Hpos H.
      exact (proj1 (loop_body_covered _ _ _ _ _ _ Hst Hpos H)). }
    replace (base + len) with (next_data st') by lia.
    split; [exact Htiles|].
    rewrite (tiles_total_length _ _ _ Htiles). lia.
  - right. exists site. reflexivity.
  - exfalso. revert E.
    apply (main_loop_fuel (covered base len));
      [| exact Hst0 | unfold st0; simpl; lia].
    intros st st' Hst Hpos H. exact (loop_body_covered _ _ _ _ _ _ Hst Hpos H).
Qed.

(** ** No assertion fails on a well-formed document *)

Lemma well_nested_suffix (behind ks : list Key) :
  well_nested (behind ++ ks) = true -> well_nested ks = true.
Proof.
  induction behind as [|c behind IH]; simpl app; intros H; [exact H|].
  cbn [well_nested] in H. apply andb_true_iff in H. apply IH, H.
Qed.

Lemma well_nested_head (c : Key) (post : list Key) :
  well_nested (c :: post) = true ->
  0 < length c ->
  forall c', In c' post -> offset c' < offset c + length c ->
             offset c' + length c' <= offset c + length c.
Proof.
  cbn [well_nested]. intros H Hlen c' Hin Hlt.
  apply andb_true_iff in H. destruct H as [H _].
  rewrite forallb_forall in H. specialize (H c' Hin).
  apply orb_true_iff in H. destruct H as [H|H]; [|lia].
  apply orb_true_iff in H. destruct H as [H|H]; lia.
Qed.

Lemma limits_respected_suffix (lim : list BitOffset) (behind ks : list Key) :
  limits_respected lim (behind ++ ks) -> limits_respected lim ks.
Proof.
  intros H l c Hl Hc. apply (H l c Hl). apply in_or_app. right. exact Hc.
Qed.

Lemma pop_limits_suffix (nd : BitOffset) (lim : list BitOffset) :
  exists popped, lim = popped ++ pop_limits nd lim.
Proof.
  induction lim as [|top lim [popped IH]]; [exists []; reflexivity|].
  cbn [pop_limits]. destruct (top <=? nd).
  - exists (top :: popped). simpl. rewrite <- IH. reflexivity.
  - exists []. reflexivity.
Qed.

Lemma pop_limits_top (nd : BitOffset) (lim : list BitOffset) :
  match pop_limits nd lim with [] => True | top :: _ => nd < top end.
Proof.
  induction lim as [|top lim IH]; [exact I|].
  cbn [pop_limits]. destruct (top <=? nd) eqn:E; [exact IH | lia].
Qed.

Lemma limits_respected_pop (nd : BitOffset) (lim : list BitOffset) (ks : list Key) :
  limits_respected lim ks -> limits_respected (pop_limits nd lim) ks.
Proof.
  intros H l c Hl. apply H.
  destruct (pop_limits_suffix nd lim) as [popped Hp]. rewrite Hp.
  apply in_or_app. right. exact Hl.
Qed.

(** The comment loop meets no failing assertion when the comments ahead are
    well nested and respect the boundaries on the stack, and the top of the
    stack is beyond [nd]; and it leaves things so. *)
Lemma emit_comments_safe mode (fuel : nat) (nd nv rem : BitOffset) p rs
  (lim : list BitOffset) :
  (nest_of mode = true ->
   well_nested (ahead_keys p) = true /\ limits_respected lim (ahead_keys p)) ->
  match lim with [] => True | top :: _ => nd < top end ->
  (ahead p <= fuel)%nat ->
  exists p' rs' lim',
    emit_comments mode fuel nd nv rem p rs lim = Ok (p', rs', lim')
    /\ (nest_of mode = true ->
        well_nested (ahead_keys p') = true
        /\ limits_respected lim' (ahead_keys p'))
    /\ match lim' with [] => True | top :: _ => nd < top end.
Proof.
  revert p rs lim; induction fuel as [|fuel IH]; intros p rs lim Hnest Htop Hfuel.
  - destruct p as [q|].
    + exfalso. rewrite ahead_next_depth_first in Hfuel. lia.
    + exists None, rs, lim. split; [reflexivity | split; assumption].
  - destruct p as [q|]; cbn [emit_comments].
    2:{ exists None, rs, lim. split; [reflexivity | split; assumption]. }
    destruct (offset (key (cur q)) =? nd) eqn:E.
    2:{ exists (Some q), rs, lim. split; [reflexivity | split; assumption]. }
    apply Z.eqb_eq in E.
    rewrite ahead_next_depth_first in Hfuel.
    rewrite ahead_keys_next_depth_first in Hnest.
    unfold push_limit.
    destruct (nest_of mode && (length (key (cur q)) >? 0)) eqn:Ec.
    + apply andb_true_iff in Ec. destruct Ec as [En Elen].
      destruct (Hnest En) as [Hwn Hlr].
      assert (Hassert : match lim with
                        | [] => true
                        | top :: _ =>
                            top >=? offset (key (cur q)) + length (key (cur q))
                        end = true).
      { destruct lim as [|top lim']; [reflexivity|].
        assert (offset (key (cur q)) + length (key (cur q)) <= top); [|lia].
        apply (Hlr top (key (cur q))); [left; reflexivity | left; reflexivity | lia]. }
      rewrite Hassert. cbn [assert bind].
      apply IH; [| lia | lia].
      intros _. split.
      * exact (well_nested_suffix [key (cur q)] _ Hwn).
      * intros l c [<-|Hl] Hc Hlt.
        -- apply (well_nested_head _ _ Hwn); [lia | exact Hc | exact Hlt].
        -- apply (Hlr l c Hl); [right; exact Hc | exact Hlt].
    + cbn [bind]. apply IH; [| exact Htop | lia].
      intros En. destruct (Hnest En) as [Hwn Hlr]. split.
      * exact (well_nested_suffix [key (cur q)] _ Hwn).
      * exact (limits_respected_suffix lim [key (cur q)] _ Hlr).
Qed.

Lemma clamp_comment_bound (nd : BitOffset) q (dr : BitOffset) :
  clamp_comment nd (Some q) dr <= offset (key (cur q)) - nd.
Proof.
  unfold clamp_comment. destruct (dr >? offset (key (cur q)) - nd) eqn:E; lia.
Qed.

Lemma clamped_length_safe (nd rem : BitOffset) p (lim : list BitOffset) :
  match lim with [] => True | top :: _ => nd < top end ->
  exists dr, clamped_length nd rem p lim = Ok dr.
Proof.
  unfold clamped_length, clamp_limit. destruct lim as [|top lim]; intros Htop.
  - eexists; reflexivity.
  - destruct (_ >=? top); [|eexists; reflexivity].
    replace (top >? nd) with true by lia. eexists; reflexivity.
Qed.

Lemma make_data_region_safe (get : TypeInfo -> option (@DataType Payload))
  (t : TypeRange) (nd nv dr : BitOffset) :
  keeps_positive get t -> 0 < dr ->
  exists r dr', make_data_region (get (t_info t)) nd nv dr = Ok (r, dr').
Proof.
  intros Hkeep Hdr. unfold make_data_region.
  destruct (factory_for (get (t_info t)) dr) as [[dty factory]|] eqn:E.
  - specialize (Hkeep dr dty factory Hdr E).
    unfold BitOffset_ZERO. replace (typed_length dty dr >? 0) with true by lia.
    eexists _, _; reflexivity.
  - destruct (dr <? mkBitOffset 1 0); eexists _, _; reflexivity.
Qed.

(** The one assertion that a well-formed document can fail: the length
    left to a factory. *)
Lemma make_data_region_cases (get : TypeInfo -> option (@DataType Payload))
  (t : TypeRange) (nd nv dr : BitOffset) :
  0 < dr ->
  (exists r dr', make_data_region (get (t_info t)) nd nv dr = Ok (r, dr'))
  \/ (make_data_region (get (t_info t)) nd nv dr = Abort A_length_positive
      /\ ~ keeps_positive get t).
Proof.
  intros Hdr. unfold make_data_region.
  destruct (factory_for (get (t_info t)) dr) as [[dty factory]|] eqn:E.
  - unfold BitOffset_ZERO. destruct (typed_length dty dr >? 0) eqn:Egt.
    + left. eexists _, _; reflexivity.
    + right. split; [reflexivity|].
      intros Hkeep. specialize (Hkeep dr dty factory Hdr E). lia.
  - left. destruct (dr <? mkBitOffset 1 0); eexists _, _; reflexivity.
Qed.

Lemma types_at_advance (nd dr : BitOffset) (t : TypeRange) (ts : list TypeRange)
  (to : BitOffset) :
  types_at nd (t :: ts) to -> 0 < dr -> dr <= type_remaining t nd ->
  types_at (nd + dr)
    (if nd + dr >=? t_offset t + t_length t then ts else t :: ts) to.
Proof.
  unfold type_remaining. intros [Hin Hcover] Hdr Hle.
  destruct (nd + dr >=? t_offset t + t_length t) eqn:E.
  - destruct ts as [|t' ts]; simpl in *; [lia|].
    destruct Hcover as (Ho & Hl & Hc). repeat split; try lia.
    rewrite Ho. exact Hc.
  - split; [lia | exact Hcover].
Qed.

(** An iteration of the main loop that starts [ready] ends well, and
    [ready] again, unless the type of the current range leaves its factory
    an empty length. *)
Lemma loop_body_ready d mode (base len : BitOffset) st :
  ready d mode base len st -> 0 < remain_data st ->
  (exists st',
     loop_body get_type d mode st = Ok st' /\ ready d mode base len st')
  \/ (loop_body get_type d mode st = Abort A_length_positive
      /\ exists t, In t (types_iter st) /\ ~ keeps_positive get_type t).
Proof.
  intros (Hcov & Hbuf & Hcur & Hnest & Hty) Hpos.
  assert (Hbody : (exists st', loop_body get_type d mode st = Ok st')
                  \/ (loop_body get_type d mode st = Abort A_length_positive
                      /\ exists t, In t (types_iter st)
                                   /\ ~ keeps_positive get_type t)).
  { unfold loop_body.
    destruct Hcov as (_ & Hsum & _ & Hasc).
    replace (next_data st + remain_data st <=? mkBitOffset (buffer_length d) 0)
      with true by lia.
    cbn [assert bind].
    replace (match next_comment st with
             | Some q => offset (key (cur q)) >=? next_data st
             | None => true
             end) with true by (destruct (next_comment st); lia).
    cbn [assert bind].
    destruct (emit_comments_safe mode (ahead (next_comment st)) (next_data st)
                (next_virt st) (remain_data st) (next_comment st) (regions st)
                (pop_limits (next_data st) (dr_limit st)))
      as (p' & rs' & lim' & Hemit & _ & Htop').
    { intros En. destruct (Hnest En) as [Hwn Hlr].
      split; [exact Hwn | exact (limits_respected_pop _ _ _ Hlr)]. }
    { apply pop_limits_top. }
    { lia. }
    rewrite Hemit. cbn [bind].
    apply emit_comments_Ok in Hemit.
    destruct Hemit as (ms & behind & pushed & _ & _ & Hk & Hb & Hp' & _).
    pose proof (cursor_beyond _ _ _ _ Hasc Hcur Hk Hb Hp') as Hbeyond.
    destruct (clamped_length_safe (next_data st) (remain_data st) p' lim' Htop')
      as [dr0 Hcl].
    rewrite Hcl. cbn [bind].
    apply clamped_length_Ok in Hcl. destruct Hcl as [_ Hdr0].
    specialize (Hdr0 Hbeyond Hpos).
    destruct (types_iter st) as [|t types_rest] eqn:Ety.
    { exfalso. simpl in Hty. lia. }
    destruct Hty as [Hin _].
    replace ((t_offset t <=? next_data st)
             && (t_offset t + t_length t >? next_data st)) with true
      by (symmetry; apply andb_true_iff; lia).
    cbn [assert bind].
    destruct (make_data_region_cases get_type t (next_data st) (next_virt st)
                (Z.min dr0 (type_remaining t (next_data st))))
      as [(r & dr & ->)|[-> Hnot]].
    { unfold type_remaining. lia. }
    - left. cbn [bind]. eexists; reflexivity.
    - right. split; [reflexivity|]. exists t. split; [left; reflexivity | exact Hnot]. }
  destruct Hbody as [[st' Hbody]|Hbody]; [left | right; exact Hbody].
  exists st'. split; [exact Hbody|].
  destruct (loop_body_covered d mode base len st st' Hcov Hpos Hbody) as [Hcov' Hlt].
  pose proof Hbody as Hinv. apply loop_body_Ok in Hinv.
  destruct Hinv as (ms & behind & pushed & p' & t & types_rest & dr0 & r & dr
                    & _ & Hemit & _ & Hk & Hb & Hp' & Hpu & _ & Hcl & Ety & Hin
                    & Hmk & ->).
  destruct Hcov as (_ & _ & _ & Hasc).
  pose proof (cursor_beyond _ _ _ _ Hasc Hcur Hk Hb Hp') as Hbeyond.
  pose proof Hcl as Hcl'. apply clamped_length_Ok in Hcl'.
  destruct Hcl' as [Hle0 Hpos0]. specialize (Hpos0 Hbeyond Hpos).
  pose proof Hmk as Hmk'. apply make_data_region_Ok in Hmk'.
  destruct Hmk' as (_ & _ & _ & _ & Hle & Hpos' & _).
  assert (Hdr : 0 < dr) by (apply Hpos'; unfold type_remaining; lia).
  unfold ready. cbn [next_comment types_iter next_data dr_limit].
  split; [exact Hcov'|]. split; [exact Hbuf|]. split; [|split].
  - destruct p' as [q'|]; [|exact I].
    unfold clamped_length in Hcl. apply clamp_limit_Ok in Hcl.
    pose proof (clamp_comment_bound (next_data st) q' (remain_data st)). lia.
  - intros En.
    destruct (emit_comments_safe mode (ahead (next_comment st)) (next_data st)
                (next_virt st) (remain_data st) (next_comment st) (regions st)
                (pop_limits (next_data st) (dr_limit st)))
      as (p1 & rs1 & lim1 & Hemit1 & Hnest1 & _).
    { intros _. destruct (Hnest En) as [Hwn Hlr].
      split; [exact Hwn | exact (limits_respected_pop _ _ _ Hlr)]. }
    { apply pop_limits_top. }
    { lia. }
    rewrite Hemit in Hemit1. injection Hemit1 as <- _ <-.
    exact (Hnest1 En).
  - rewrite Ety in Hty. rewrite Ety.
    apply types_at_advance; [exact Hty | exact Hdr | lia].
Qed.

Lemma loop_body_types (g : TypeInfo -> option (@DataType Payload)) d mode st st' :
  loop_body g d mode st = Ok st' ->
  forall t, In t (types_iter st') -> In t (types_iter st).
Proof.
  unfold loop_body. intros H.
  unbind H. unbind H. unbind_as H x Hx. destruct x as [[p' rs'] lim'].
  unbind H. destruct (types_iter st) as [|t0 types_rest]; [discriminate|].
  unbind H. unbind_as H y Hy. destruct y as [r dr]. injection H as <-.
  cbn [types_iter]. intros t. destruct (_ >=? _); simpl; tauto.
Qed.

Lemma main_loop_ready d mode (base len : BitOffset) (fuel : nat) st :
  ready d mode base len st ->
  (Z.to_nat (remain_data st) <= fuel)%nat ->
  (exists rs st',
     main_loop get_type d mode fuel st = Ok rs
     /\ covered base len st' /\ remain_data st' <= 0 /\ regions st' = rs)
  \/ (main_loop get_type d mode fuel st = Abort A_length_positive
      /\ exists t, In t (types_iter st) /\ ~ keeps_positive get_type t).
Proof.
  revert st; induction fuel as [|fuel IH]; intros st Hready Hfuel;
    cbn [main_loop]; destruct (remain_data st >? 0) eqn:E.
  - exfalso. lia.
  - left. exists (regions st), st.
    split; [reflexivity|]. split; [apply Hready|]. split; [lia | reflexivity].
  - destruct (loop_body_ready d mode base len st Hready ltac:(lia))
      as [(st1 & Hbody & Hready1)|[Hbody Hnot]].
    + rewrite Hbody. cbn [bind].
      destruct (loop_body_covered d mode base len st st1 (proj1 Hready)
                  ltac:(lia) Hbody) as [_ Hlt].
      destruct (IH st1 Hready1 ltac:(lia)) as [Hok|[Habort (t & Ht & Hnot)]].
      * left. exact Hok.
      * right. split; [exact Habort|]. exists t. split; [|exact Hnot].
        exact (loop_body_types _ _ _ _ _ Hbody t Ht).
    + right. rewrite Hbody. split; [reflexivity | exact Hnot].
  - left. exists (regions st), st.
    split; [reflexivity|]. split; [apply Hready|]. split; [lia | reflexivity].
Qed.

Lemma skip_types_incl (nd : BitOffset) (ts : list TypeRange) (t : TypeRange) :
  In t (skip_types nd ts) -> In t ts.
Proof.
  induction ts as [|t0 ts IH]; simpl; [tauto|].
  destruct (_ <=? _); [right; apply IH; assumption | simpl; tauto].
Qed.

Lemma skip_types_at (nd from to : BitOffset) (ts : list TypeRange) :
  types_cover from ts to -> from <= nd -> types_at nd (skip_types nd ts) to.
Proof.
  revert from; induction ts as [|t ts IH]; intros from Hcover Hfrom.
  - simpl in *. lia.
  - destruct Hcover as (Ho & Hl & Hcover). cbn [skip_types].
    destruct (t_offset t + t_length t <=? nd) eqn:E.
    + apply (IH (from + t_length t)); [exact Hcover | lia].
    + split; [lia|]. rewrite Ho. exact Hcover.
Qed.

(** A compile of [len] bits from [base] inside a document whose comments
    are met in ascending order (and are well nested, if the mode nests) and
    whose type ranges are a partition of the file: it ends with a region
    list whose data regions cover the range, unless a type of the document
    leaves its factory an empty length. *)
Lemma compute_regions_ready d mode (base vbase len : BitOffset) :
  comments_ordered d = true ->
  (nest_of mode = true -> comments_nested d = true) ->
  types_partition d ->
  0 <= base -> 0 <= len -> base + len <= mkBitOffset (buffer_length d) 0 ->
  (exists rs,
     compute_regions get_type d mode base vbase len = Ok rs
     /\ tiles base (data_regions rs) (base + len)
     /\ total_length (data_regions rs) = len)
  \/ (compute_regions get_type d mode base vbase len = Abort A_length_positive
      /\ exists t, In t (get_data_types d) /\ ~ keeps_positive get_type t).
Proof.
  intros Hord Hnested Htypes Hbase Hlen Hbuf.
  unfold compute_regions, compute_regions_in.
  destruct (initial_state_Ok d mode base vbase len)
    as (p0 & behind & -> & Hk & _ & Hp0).
  cbn [bind].
  set (st0 := mkLoopState p0 _ _ _ _ _ _).
  assert (Hst0 : ready d mode base len st0).
  { unfold ready, covered, st0; simpl. repeat split; try lia.
    - unfold comments_ordered in Hord. rewrite Hk, map_app in Hord.
      exact (ascending_suffix _ _ Hord).
    - exact Hp0.
    - specialize (Hnested H). unfold comments_nested in Hnested.
      rewrite Hk in Hnested. exact (well_nested_suffix _ _ Hnested).
    - intros l c [].
    - exact (skip_types_at base 0 _ _ Htypes Hbase). }
  destruct (main_loop_ready d mode base len (Z.to_nat len) st0 Hst0)
    as [(rs & st' & -> & (Htiles & Hsum & Hrem & _) & Hdone & <-)
       |[-> (t & Ht & Hnot)]].
  { unfold st0; simpl. lia. }
  - left. exists (regions st'). split; [reflexivity|].
    replace (base + len) with (next_data st') by lia.
    split; [exact Htiles|].
    rewrite (tiles_total_length _ _ _ Htiles). lia.
  - right. split; [reflexivity|]. exists t. split; [|exact Hnot].
    exact (skip_types_incl _ _ _ Ht).
Qed.

(** With types that keep lengths positive no assertion fails: the compile
    of a range of a well-formed document ends with regions that cover it. *)
Corollary compile_of_well_formed_document d mode (base vbase len : BitOffset) :
  comments_well_formed d ->
  types_partition d ->
  (forall t, In t (get_data_types d) -> keeps_positive get_type t) ->
  0 <= base -> 0 <= len -> base + len <= mkBitOffset (buffer_length d) 0 ->
  exists rs,
    compute_regions get_type d mode base vbase len = Ok rs
    /\ tiles base (data_regions rs) (base + len)
    /\ total_length (data_regions rs) = len.
Proof.
  intros Hwf Htypes Hkeep Hbase Hlen Hbuf.
  destruct (comments_well_formed_ordered d Hwf) as [Hord Hnest].
  destruct (compute_regions_ready d mode base vbase len Hord (fun _ => Hnest)
              Htypes Hbase Hlen Hbuf) as [Hok|[_ (t & Ht & Hnot)]].
  - exact Hok.
  - exfalso. exact (Hnot (Hkeep t Ht)).
Qed.

(** ** C1: the data regions cover the compiled range *)



(** ** C2: a factory is never given an empty length *)

(** The condition of the [if] that guards the factory. *)
Lemma factory_for_Some (dt : option (@DataType Payload)) (dr : BitOffset) dty factory :
  factory_for dt dr = Some (dty, factory)
  <-> dt = Some dty /\ region_factory dty = Some factory
      /\ region_fixed_size dty <= dr.
Proof.
  unfold factory_for. split.
  - destruct dt as [d0|]; [|discriminate].
    destruct (region_factory d0) as [f0|] eqn:Ef; [|discriminate].
    destruct (region_fixed_size d0 <=? dr) eqn:E; [|discriminate].
    intros [= <- <-]. repeat split; [exact Ef | lia].
  - intros (-> & -> & Hle).
    replace (region_fixed_size dty <=? dr) with true by lia. reflexivity.
Qed.

Lemma typed_length_rounded (dty : @DataType Payload) (dr : BitOffset) :
  word_size dty <> 0 ->
  (region_fixed_size dty >? BitOffset_ZERO) && (dr >? region_fixed_size dty) = false ->
  typed_length dty dr = dr - bo_mod dr (word_size dty)
  /\ bo_mod (typed_length dty dr) (word_size dty) = 0.
Proof.
  intros Hw Hfix. unfold typed_length. rewrite Hfix. unfold bo_mod, BitOffset_ZERO.
  assert (Hmul : Z.rem (dr - Z.rem dr (word_size dty)) (word_size dty) = 0).
  { pose proof (Z.quot_rem' dr (word_size dty)) as Hqr.
    replace (dr - Z.rem dr (word_size dty))
      with (Z.quot dr (word_size dty) * word_size dty) by lia.
    apply Z.rem_mul. exact Hw. }
  destruct (Z.rem dr (word_size dty) =? 0) eqn:E; simpl.
  - apply Z.eqb_eq in E. split; [lia | exact E].
  - split; [reflexivity | exact Hmul].
Qed.

(** C2.  First part: when the type of the current range has a factory and
    the clamped length [dr] is at least its fixed size, the length [len]
    handed to the factory is the fixed size if that is positive and below
    [dr], and else [dr] less its remainder by the word size, a multiple of
    the word size; the typed region is made with [len] if [len] is positive,
    and else the assertion on the length fails and no region is made.
    Second part: every typed region in the result of a compile has a
    positive length. *)
Theorem typed_region_never_empty :
  (forall (dt : option (@DataType Payload)) dty factory (nd nv dr : BitOffset),
     factory_for dt dr = Some (dty, factory) ->
     let len := typed_length dty dr in
     len = (if (0 <? region_fixed_size dty) && (region_fixed_size dty <? dr)
            then region_fixed_size dty
            else dr - bo_mod dr (word_size dty))
     /\ ((0 <? region_fixed_size dty) && (region_fixed_size dty <? dr) = false ->
         word_size dty <> 0 -> bo_mod len (word_size dty) = 0)
     /\ make_data_region dt nd nv dr
        = (if 0 <? len
           then Ok (TypedRegion nd len nv (factory nd len nv), len)
           else Abort A_length_positive))
  /\ (forall d mode (fuel : nat) (base vbase len : BitOffset) rs,
        compute_regions_in get_type d mode fuel base vbase len = Ok rs ->
        Forall (fun r => is_typed r = true -> 0 < r_length r) rs).
Proof.
  split.
  - intros dt dty factory nd nv dr Hf len.
    assert (Hb : (region_fixed_size dty >? BitOffset_ZERO) && (dr >? region_fixed_size dty)
                 = (0 <? region_fixed_size dty) && (region_fixed_size dty <? dr)).
    { unfold BitOffset_ZERO. rewrite !Z.gtb_ltb. reflexivity. }
    repeat split.
    + unfold len, typed_length. rewrite Hb. clear Hb.
      destruct ((0 <? region_fixed_size dty) && (region_fixed_size dty <? dr));
        [reflexivity|].
      unfold bo_mod, BitOffset_ZERO.
      destruct (Z.rem dr (word_size dty) =? 0) eqn:E; simpl; [|reflexivity].
      apply Z.eqb_eq in E. lia.
    + intros Hfix Hw. rewrite <- Hb in Hfix.
      exact (proj2 (typed_length_rounded dty dr Hw Hfix)).
    + unfold make_data_region. rewrite Hf. fold len.
      unfold BitOffset_ZERO. rewrite Z.gtb_ltb.
      destruct (0 <? len); reflexivity.
  - intros d mode fuel base vbase len rs H.
    unfold compute_regions_in in H. unbind H. rename a into st0.
    destruct (initial_state_Ok d mode base vbase len) as (p0 & behind & Hst0 & _).
    rewrite Hst0 in Ha. injection Ha as <-.
    apply (main_loop_regions (fun _ => True)
             (fun r => is_typed r = true -> 0 < r_length r)) in H; auto.
    + intros st q _ _ _. discriminate.
    + intros st dt dr r dr' _ _ Hmk. apply make_data_region_Ok in Hmk.
      destruct Hmk as (_ & _ & _ & -> & _ & _ & Hpos). exact Hpos.
Qed.

(** ** C4: the data region at the end of the file view *)

Lemma back_snoc {A : Type} (l : list A) (x : A) : back (l ++ [x]) = Some x.
Proof. unfold back. rewrite map_app. simpl. apply last_last. Qed.

Lemma back_None {A : Type} (l : list A) : back l = None -> l = [].
Proof.
  destruct l as [|x l] using rev_ind; [reflexivity|].
  rewrite back_snoc. discriminate.
Qed.

(** What the file view does with the regions of the file, by their last
    region. *)
Lemma close_file_regions_back d rs r :
  back rs = Some r ->
  close_file_regions d rs
  = Ok (if is_DataRegionDocHighlight r then rs
        else rs ++ [anchor (buffer_length d)]).
Proof.
  unfold close_file_regions. intros ->.
  destruct (is_DataRegionDocHighlight r); reflexivity.
Qed.

(** The result of a compile never ends with a comment marker: the main loop
    pushes a data region at the end of every iteration.  The file view
    therefore never meets a comment marker as the last region of the file;
    the data region it appends comes after a typed or a bit-remainder
    block. *)
Lemma compute_regions_back d mode (fuel : nat) (base vbase len : BitOffset) rs r :
  compute_regions_in get_type d mode fuel base vbase len = Ok rs ->
  back rs = Some r -> is_comment r = false.
Proof.
  intros H. unfold compute_regions_in in H. unbind H. rename a into st0.
  destruct (initial_state_Ok d mode base vbase len) as (p0 & behind & Hst0 & _).
  rewrite Hst0 in Ha. injection Ha as <-.
  destruct (main_loop_invariant
              (fun st => forall r, back (regions st) = Some r -> is_comment r = false)
              d mode) with (fuel := fuel) (rs := rs)
              (st := mkLoopState p0 (skip_types base (get_data_types d)) base
                       vbase len (@nil (Region Payload)) [])
    as (st' & Hst' & _ & <-); auto.
  - intros st st' _ _ Hbody r0. apply loop_body_Ok in Hbody.
    destruct Hbody as (ms & ? & ? & ? & ? & ? & ? & r1 & dr
                       & _ & _ & _ & _ & _ & _ & _ & _ & _ & _ & _ & Hmk & ->).
    simpl. rewrite app_assoc, back_snoc. intros [= <-].
    apply make_data_region_Ok in Hmk. apply Hmk.
  - simpl. discriminate.
Qed.

Lemma virtual_view_concat d mode (segs : list Segment)
  (outs : list (list (Region Payload))) :
  Forall2 (fun seg out => compile_segment get_type d mode seg = Ok out) segs outs ->
  virtual_view get_type d mode segs = Ok (List.concat outs).
Proof.
  induction 1 as [|seg out segs outs Hseg _ IH]; [reflexivity|].
  cbn [virtual_view List.concat]. unfold compile_segment in Hseg.
  rewrite Hseg, IH. reflexivity.
Qed.

(** C4.  In the file view, when the regions computed for the whole file end
    with a region that is not a raw data block (a typed block, a
    bit-remainder block or a comment marker), the list handed on is those
    regions and then the zero-length raw data block at the end of the file.
    In the virtual view of a document with virtual segments, the list handed
    on is the regions of the segments one after the other, and nothing
    more. *)
Theorem anchor_in_file_view_only d mode :
  (forall rs r,
     compute_regions get_type d mode (of_bytes 0) (of_bytes 0)
       (of_bytes (buffer_length d)) = Ok rs ->
     back rs = Some r -> is_DataRegionDocHighlight r = false ->
     prepare_regions get_type d DDM_NORMAL mode
     = Ok (rs ++ [anchor (buffer_length d)]))
  /\ (forall outs,
        get_virt_to_real_segs d <> [] ->
        Forall2 (fun seg out => compile_segment get_type d mode seg = Ok out)
          (get_virt_to_real_segs d) outs ->
        prepare_regions get_type d DDM_VIRTUAL mode = Ok (List.concat outs)).
Proof.
  split.
  - intros rs r Hrs Hback Hr. unfold prepare_regions, file_view.
    rewrite Hrs. cbn [bind].
    rewrite (close_file_regions_back d rs r Hback), Hr. reflexivity.
  - intros outs Hsegs Houts. unfold prepare_regions.
    destruct (get_virt_to_real_segs d) as [|seg segs]; [contradiction|].
    apply virtual_view_concat. exact Houts.
Qed.

(** ** The registry matters only at the types of the document *)

Lemma loop_body_ext (g1 g2 : TypeInfo -> option (@DataType Payload)) d mode st :
  (forall t, In t (types_iter st) -> g1 (t_info t) = g2 (t_info t)) ->
  loop_body g1 d mode st = loop_body g2 d mode st.
Proof.
  intros Hg. unfold loop_body.
  destruct (assert A_within_buffer _); cbn [bind]; try reflexivity.
  destruct (assert A_comment_ahead _); cbn [bind]; try reflexivity.
  destruct (emit_comments _ _ _ _ _ _ _ _) as [[[p' rs'] lim']| |];
    cbn [bind]; try reflexivity.
  destruct (clamped_length _ _ _ _); cbn [bind]; try reflexivity.
  destruct (types_iter st) as [|t types_rest]; [reflexivity|].
  rewrite (Hg t (or_introl eq_refl)). reflexivity.
Qed.

Lemma main_loop_ext (g1 g2 : TypeInfo -> option (@DataType Payload)) d mode
  (fuel : nat) st :
  (forall t, In t (types_iter st) -> g1 (t_info t) = g2 (t_info t)) ->
  main_loop g1 d mode fuel st = main_loop g2 d mode fuel st.
Proof.
  revert st; induction fuel as [|fuel IH]; intros st Hg; [reflexivity|].
  cbn [main_loop]. destruct (remain_data st >? 0); [|reflexivity].
  rewrite (loop_body_ext g1 g2 d mode st Hg).
  destruct (loop_body g2 d mode st) as [st'| |] eqn:E; cbn [bind]; try reflexivity.
  apply IH. intros t Ht. apply Hg. exact (loop_body_types _ _ _ _ _ E t Ht).
Qed.

(** Two registries that agree on the types of the ranges of a document give
    the same regions. *)
Lemma compute_regions_ext (g1 g2 : TypeInfo -> option (@DataType Payload)) d mode
  (fuel : nat) (base vbase len : BitOffset) :
  (forall t, In t (get_data_types d) -> g1 (t_info t) = g2 (t_info t)) ->
  compute_regions_in g1 d mode fuel base vbase len
  = compute_regions_in g2 d mode fuel base vbase len.
Proof.
  intros Hg. unfold compute_regions_in.
  destruct (initial_state_Ok d mode base vbase len) as (p0 & behind & -> & _).
  cbn [bind]. apply main_loop_ext. cbn [types_iter].
  intros t Ht. apply Hg. exact (skip_types_incl _ _ _ Ht).
Qed.

Lemma prepare_regions_ext (g1 g2 : TypeInfo -> option (@DataType Payload)) d ddm mode :
  (forall t, In t (get_data_types d) -> g1 (t_info t) = g2 (t_info t)) ->
  prepare_regions g1 d ddm mode = prepare_regions g2 d ddm mode.
Proof.
  intros Hg.
  assert (Hfile : file_view g1 d mode = file_view g2 d mode).
  { unfold file_view, compute_regions.
    rewrite (compute_regions_ext g1 g2) by exact Hg. reflexivity. }
  assert (Hvirt : forall segs, virtual_view g1 d mode segs = virtual_view g2 d mode segs).
  { induction segs as [|seg segs IH]; [reflexivity|].
    cbn [virtual_view]. unfold compute_regions.
    rewrite (compute_regions_ext g1 g2) by exact Hg. rewrite IH. reflexivity. }
  unfold prepare_regions. rewrite Hfile.
  destruct ddm; [reflexivity|].
  destruct (get_virt_to_real_segs d); [reflexivity | apply Hvirt].
Qed.

(** ** C5: virtual and real positions advance together *)

Lemma loop_body_lockstep d mode (delta : BitOffset) st st' :
  next_virt st - next_data st = delta ->
  loop_body get_type d mode st = Ok st' ->
  next_virt st' - next_data st' = delta.
Proof.
  intros Hst H. apply loop_body_Ok in H.
  destruct H as (? & ? & ? & ? & ? & ? & ? & ? & dr
                 & _ & _ & _ & _ & _ & _ & _ & _ & _ & _ & _ & _ & ->).
  simpl. lia.
Qed.

(** C5.  Every region of a compile from the real position [base] and the
    virtual position [vbase] has its virtual position [vbase - base] after
    its real position (for a comment marker: the start of its indentation
    and the offset of its comment).  And a document with no type that has a
    factory, no comment, and the two virtual segments 0..4 at real 100 and
    5..9 at real 200 is shown in virtual view as two raw data blocks of five
    bytes: real 100 at virtual 0, then real 200 at virtual 5. *)
Theorem virtual_offset_in_lockstep :
  (forall d mode (fuel : nat) (base vbase len : BitOffset) rs,
     compute_regions_in get_type d mode fuel base vbase len = Ok rs ->
     Forall (in_lockstep (vbase - base)) rs)
  /\ (forall mode,
        get_type untyped = None ->
        prepare_regions get_type doc_two_segments DDM_VIRTUAL mode
        = Ok [DataRegionDocHighlight (of_bytes 100) (of_bytes 5) (of_bytes 0);
              DataRegionDocHighlight (of_bytes 200) (of_bytes 5) (of_bytes 5)]).
Proof.
  split.
  - intros d mode fuel base vbase len rs H.
    unfold compute_regions_in in H. unbind H. rename a into st0.
    destruct (initial_state_Ok d mode base vbase len) as (p0 & behind & Hst0 & _).
    rewrite Hst0 in Ha. injection Ha as <-.
    apply (main_loop_regions (fun st => next_virt st - next_data st = vbase - base)
             (in_lockstep (vbase - base))) in H; auto.
    + intros st st' Hst _. apply loop_body_lockstep. exact Hst.
    + intros st q Hst _ Hq. unfold in_lockstep, comment_marker; simpl. lia.
    + intros st dt dr r dr' Hst _ Hmk. apply make_data_region_Ok in Hmk.
      destruct Hmk as (_ & Ho & Hv & _). unfold in_lockstep. lia.
  - intros mode Hun.
    rewrite (prepare_regions_ext get_type (fun _ => None)).
    + destruct mode; vm_compute; reflexivity.
    + intros t [<-|[]]. exact Hun.
Qed.

(** ** C6: indentation of a comment marker *)

(** C6.  First part: in an iteration of the main loop ([remain] > 0), the
    marker of a comment of length [len] >= 0 is indented from [nv] over
    [min len remain] when the mode nests (Full-Indent, Short-Indent) and
    [len] > 0, and over nothing otherwise; and the nesting stack gets the
    end of the comment pushed in that case (or the compile aborts there),
    and is left alone otherwise.
    Second part: in the result of a compile, the marker of a comment of
    length zero is indented over nothing, and a marker indented over
    something belongs to a comment of positive length and was made in a
    mode that nests. *)
Theorem comment_marker_indent mode :
  (forall (nv remain : BitOffset) q (lim : list BitOffset),
     0 < remain -> 0 <= length (key (cur q)) ->
     let len := length (key (cur q)) in
     let nests := nest_of mode && (0 <? len) in
     @comment_marker Payload mode nv remain q
     = CommentRegion (offset (key (cur q))) len (text (cur q)) (truncate_of mode)
         nv (if nests then Z.min len remain else 0)
     /\ (if nests then 0 < Z.min len remain else True)
     /\ (forall lim', push_limit mode q lim = Ok lim' ->
           lim' = if nests then (offset (key (cur q)) + len) :: lim else lim))
  /\ (forall d (fuel : nat) (base vbase len : BitOffset) rs,
        compute_regions_in get_type d mode fuel base vbase len = Ok rs ->
        Forall (fun r : Region Payload =>
                  is_comment r = true ->
                  (comment_length_of r = 0 -> indent_length_of r = 0)
                  /\ (indent_length_of r <> 0 ->
                      nest_of mode = true /\ comment_length_of r <> 0)) rs).
Proof.
  split.
  - intros nv remain q lim Hrem Hlen len nests.
    assert (Hn : nest_of mode && (length (key (cur q)) >? 0) = nests).
    { unfold nests, len. rewrite Z.gtb_ltb. reflexivity. }
    repeat split.
    + unfold comment_marker, nests, BitOffset_ZERO. fold len.
      destruct (nest_of mode); simpl; [|reflexivity].
      destruct (0 <? len) eqn:E; [reflexivity|].
      replace (Z.min len remain) with 0 by lia. reflexivity.
    + unfold nests. destruct (nest_of mode); simpl; [|exact I].
      destruct (0 <? len) eqn:E; [lia | exact I].
    + intros lim' H. destruct (push_limit_Ok _ _ _ _ H) as [[Hc ->]|[Hc ->]];
        rewrite Hn in Hc; rewrite Hc; reflexivity.
  - intros d fuel base vbase len rs H.
    unfold compute_regions_in in H. unbind H. rename a into st0.
    destruct (initial_state_Ok d mode base vbase len) as (p0 & behind & Hst0 & _).
    rewrite Hst0 in Ha. injection Ha as <-.
    apply (main_loop_regions (fun _ => True)
             (fun r : Region Payload =>
                is_comment r = true ->
                (comment_length_of r = 0 -> indent_length_of r = 0)
                /\ (indent_length_of r <> 0 ->
                    nest_of mode = true /\ comment_length_of r <> 0))) in H; auto.
    + intros st q _ Hpos _ _. unfold comment_marker, BitOffset_ZERO; simpl.
      destruct (nest_of mode); split; intros; lia.
    + intros st dt dr r dr' _ _ Hmk. apply make_data_region_Ok in Hmk.
      destruct Hmk as (Hc & _). rewrite Hc. discriminate.
Qed.

(** ** C7: hidden comments *)

Lemma ahead_keys_nil p : ahead_keys p = [] -> p = None.
Proof.
  destruct p as [q|]; [|reflexivity].
  rewrite ahead_keys_next_depth_first. discriminate.
Qed.

(** A NULL comment cursor stays NULL, and no marker is pushed. *)
Lemma loop_body_no_comment d mode st st' :
  next_comment st = None ->
  loop_body get_type d mode st = Ok st' ->
  next_comment st' = None
  /\ exists r, regions st' = regions st ++ [r] /\ is_comment r = false.
Proof.
  intros Hst H. apply loop_body_Ok in H.
  destruct H as (ms & behind & pushed & p' & t & types_rest & dr0 & r & dr
                 & _ & Hemit & _ & _ & _ & _ & _ & _ & _ & _ & _ & Hmk & ->).
  rewrite Hst in Hemit. simpl in Hemit. injection Hemit as <- Hms _.
  rewrite <- (app_nil_r (regions st)) in Hms at 1.
  apply app_inv_head in Hms. subst ms.
  split; [reflexivity|]. exists r. split; [reflexivity|].
  apply make_data_region_Ok in Hmk. apply Hmk.
Qed.

(** C7.  In the mode Hidden the result of a compile has no comment marker,
    and it is the result for the same document with any other comments, or
    none; so is the whole region list prepared for the document control. *)
Theorem hidden_comments_have_no_effect d (comments' : list Node) :
  let d' := mkDocument (buffer_length d) comments' (get_data_types d)
              (get_virt_to_real_segs d) in
  (forall (fuel : nat) (base vbase len : BitOffset) rs,
     compute_regions_in get_type d ICM_HIDDEN fuel base vbase len = Ok rs ->
     Forall (fun r => is_comment r = false) rs)
  /\ (forall (fuel : nat) (base vbase len : BitOffset),
        compute_regions_in get_type d ICM_HIDDEN fuel base vbase len
        = compute_regions_in get_type d' ICM_HIDDEN fuel base vbase len)
  /\ (forall ddm,
        prepare_regions get_type d ddm ICM_HIDDEN
        = prepare_regions get_type d' ddm ICM_HIDDEN).
Proof.
  intros d'.
  assert (Hsame : forall (fuel : nat) (base vbase len : BitOffset),
             compute_regions_in get_type d ICM_HIDDEN fuel base vbase len
             = compute_regions_in get_type d' ICM_HIDDEN fuel base vbase len).
  { intros fuel base vbase len. unfold compute_regions_in.
    destruct (initial_state_Ok d ICM_HIDDEN base vbase len)
      as (p0 & behind & -> & _ & Hp0 & _).
    destruct (initial_state_Ok d' ICM_HIDDEN base vbase len)
      as (p0' & behind' & -> & _ & Hp0' & _).
    rewrite (Hp0 eq_refl), (Hp0' eq_refl). reflexivity. }
  repeat split.
  - intros fuel base vbase len rs H.
    unfold compute_regions_in in H. unbind H. rename a into st0.
    destruct (initial_state_Ok d ICM_HIDDEN base vbase len)
      as (p0 & behind & Hst0 & _ & Hp0 & _).
    rewrite Hst0, (Hp0 eq_refl) in Ha. injection Ha as <-.
    destruct (main_loop_invariant
                (fun st => next_comment st = None
                           /\ Forall (fun r => is_comment r = false) (regions st))
                d ICM_HIDDEN) with (fuel := fuel) (rs := rs)
                (st := mkLoopState None (skip_types base (get_data_types d)) base
                         vbase len (@nil (Region Payload)) [])
      as (st' & [_ Hst'] & _ & <-); auto.
    intros st st' [Hnc Hrs] _ Hbody.
    destruct (loop_body_no_comment _ _ _ _ Hnc Hbody) as (Hnc' & r & -> & Hr).
    split; [exact Hnc'|]. apply Forall_app. split; [exact Hrs|].
    constructor; [exact Hr | constructor].
  - exact Hsame.
  - intros ddm. unfold prepare_regions, file_view, compute_regions.
    assert (Hview : forall segs,
               virtual_view get_type d ICM_HIDDEN segs
               = virtual_view get_type d' ICM_HIDDEN segs).
    { induction segs as [|seg segs IH]; [reflexivity|].
      cbn [virtual_view]. unfold compute_regions. rewrite Hsame, IH. reflexivity. }
    rewrite Hsame. cbn [buffer_length get_virt_to_real_segs d'].
    destruct ddm; [reflexivity|].
    destruct (get_virt_to_real_segs d); [reflexivity|]. apply Hview.
Qed.

(** ** C8: the virtual view of a document without virtual sections *)

(** C8.  When the virtual view is asked for and the document has no virtual
    segment, the region list is the list of the file view (the compile of
    the whole file from real and virtual position 0, closed as the file view
    closes it) with one comment marker put in front; the marker takes
    nothing of the domain: the data regions are those of the file view. *)
Theorem no_virtual_sections_fallback d mode :
  get_virt_to_real_segs d = [] ->
  prepare_regions get_type d DDM_VIRTUAL mode
  = (file_regions <- prepare_regions get_type d DDM_NORMAL mode ;;
     Ok (CommentRegion (of_bytes (-1)) 0 C_TEXT false (of_bytes (-1)) 0
           :: file_regions))
  /\ prepare_regions get_type d DDM_NORMAL mode
     = (file_regions <-
          compute_regions get_type d mode (of_bytes 0) (of_bytes 0)
            (of_bytes (buffer_length d)) ;;
        close_file_regions d file_regions)
  /\ (forall file_regions,
        prepare_regions get_type d DDM_NORMAL mode = Ok file_regions ->
        exists marker,
          prepare_regions get_type d DDM_VIRTUAL mode = Ok (marker :: file_regions)
          /\ is_comment marker = true
          /\ r_length marker = 0
          /\ data_regions (marker :: file_regions) = data_regions file_regions).
Proof.
  intros Hsegs. unfold prepare_regions. rewrite Hsegs.
  repeat split.
  intros file_regions ->. eexists. repeat split.
Qed.

(** ** C9: the empty file *)

Lemma compute_regions_empty d mode (base vbase : BitOffset) :
  compute_regions get_type d mode base vbase 0 = Ok [].
Proof.
  unfold compute_regions, compute_regions_in.
  destruct (initial_state_Ok d mode base vbase 0) as (p0 & behind & -> & _).
  reflexivity.
Qed.

(** C9.  For a file of length zero the compile of the whole file pushes no
    region, and the file view hands on exactly one region: a raw data block
    of length zero at offset 0. *)
Theorem empty_file_one_region d mode :
  buffer_length d = 0 ->
  prepare_regions get_type d DDM_NORMAL mode = Ok [DataRegionDocHighlight 0 0 0].
Proof.
  intros Hlen. unfold prepare_regions, file_view. rewrite Hlen.
  change (of_bytes 0) with 0. rewrite compute_regions_empty. cbn [bind].
  unfold close_file_regions. simpl. rewrite Hlen. reflexivity.
Qed.

(** ** C10: freezing and thawing *)

(** Outside a freeze no request is pending: this holds of a new tab and
    every call keeps it. *)
Lemma call_keeps_pending_frozen (c : TabCall) (t t' : Tab Payload) :
  (repopulate_regions_frozen t = false -> repopulate_regions_pending t = false) ->
  call get_type c t = Ok t' ->
  repopulate_regions_frozen t' = false -> repopulate_regions_pending t' = false.
Proof.
  intros Hinv H. destruct c; cbn [call] in H.
  - unfold repopulate_regions in H.
    destruct (repopulate_regions_frozen t) eqn:Ef.
    + injection H as <-. simpl. discriminate.
    + unbind H. injection H as <-. simpl. intros _. apply Hinv. reflexivity.
  - injection H as <-. simpl. discriminate.
  - unfold repopulate_regions_thaw in H. cbn [repopulate_regions_pending] in H.
    destruct (repopulate_regions_pending t) eqn:Ep.
    + unbind H. injection H as <-. reflexivity.
    + injection H as <-. reflexivity.
Qed.

Lemma pending_only_when_frozen (cs : list TabCall) d ddm mode (t : Tab Payload) :
  calls get_type cs (new_tab d ddm mode) = Ok t ->
  repopulate_regions_frozen t = false -> repopulate_regions_pending t = false.
Proof.
  assert (Hgen : forall (t0 : Tab Payload),
             (repopulate_regions_frozen t0 = false ->
              repopulate_regions_pending t0 = false) ->
             calls get_type cs t0 = Ok t ->
             repopulate_regions_frozen t = false ->
             repopulate_regions_pending t = false).
  { induction cs as [|c cs IH]; intros t0 Hinv H; cbn [calls] in H.
    - injection H as <-. exact Hinv.
    - unbind H. apply (IH a); [|exact H].
      exact (call_keeps_pending_frozen c t0 a Hinv Ha). }
  apply Hgen. reflexivity.
Qed.

Lemma requests_while_frozen (n : nat) (t : Tab Payload) :
  repopulate_regions_frozen t = true ->
  calls get_type (repeat CallRepopulate n) t
  = Ok (mkTab (doc t) (document_display_mode t) (inline_comment_mode t) true
          (repopulate_regions_pending t || (0 <? n)%nat)
          (doc_ctrl_regions t) (compiles t)).
Proof.
  revert t; induction n as [|n IH]; intros t Hfrozen.
  - simpl. rewrite orb_false_r, <- Hfrozen. destruct t; reflexivity.
  - cbn [repeat calls call]. unfold repopulate_regions at 1. rewrite Hfrozen.
    cbn [bind]. rewrite IH by reflexivity.
    cbn [doc document_display_mode inline_comment_mode repopulate_regions_pending
           doc_ctrl_regions compiles orb].
    change (0 <? S n)%nat with true. rewrite orb_true_r. reflexivity.
Qed.

Lemma calls_app (cs1 cs2 : list TabCall) (t : Tab Payload) :
  calls get_type (cs1 ++ cs2) t
  = (t' <- calls get_type cs1 t ;; calls get_type cs2 t').
Proof.
  revert t; induction cs1 as [|c cs1 IH]; intros t; [reflexivity|].
  cbn [app calls]. destruct (call get_type c t); simpl; [apply IH | reflexivity..].
Qed.

(** C10.  A request made while frozen changes the pending flag to true and
    nothing else: the regions of the document control and the number of
    compiles stay.  And for a tab with no request pending, freezing, making
    [n] requests and thawing leaves the tab unfrozen with nothing pending;
    if [n] is zero the regions and the number of compiles are as before; if
    not, the regions have been computed once and replaced once, however
    large [n] is. *)
Theorem freeze_thaw_coalesces (t : Tab Payload) (n : nat) :
  repopulate_regions_pending t = false ->
  (forall t1 : Tab Payload,
     repopulate_regions_frozen t1 = true ->
     repopulate_regions get_type t1
     = Ok (mkTab (doc t1) (document_display_mode t1) (inline_comment_mode t1)
             true true (doc_ctrl_regions t1) (compiles t1)))
  /\ calls get_type (CallFreeze :: repeat CallRepopulate n) t
     = Ok (mkTab (doc t) (document_display_mode t) (inline_comment_mode t)
             true (0 <? n)%nat (doc_ctrl_regions t) (compiles t))
  /\ calls get_type (CallFreeze :: repeat CallRepopulate n ++ [CallThaw]) t
     = match n with
       | O =>
           Ok (mkTab (doc t) (document_display_mode t) (inline_comment_mode t)
                 false false (doc_ctrl_regions t) (compiles t))
       | S _ =>
           regions' <- prepare_regions get_type (doc t) (document_display_mode t)
                         (inline_comment_mode t) ;;
           Ok (mkTab (doc t) (document_display_mode t) (inline_comment_mode t)
                 false false regions' (S (compiles t)))
       end.
Proof.
  intros Hpending.
  assert (Hfrozen : calls get_type (CallFreeze :: repeat CallRepopulate n) t
                    = Ok (mkTab (doc t) (document_display_mode t)
                            (inline_comment_mode t) true (0 <? n)%nat
                            (doc_ctrl_regions t) (compiles t))).
  { cbn [calls call bind]. rewrite requests_while_frozen by reflexivity.
    simpl. rewrite Hpending. reflexivity. }
  repeat split.
  - intros t1 Hf. unfold repopulate_regions. rewrite Hf. reflexivity.
  - exact Hfrozen.
  - rewrite app_comm_cons, calls_app, Hfrozen. cbn [bind calls call].
    unfold repopulate_regions_thaw. cbn [repopulate_regions_pending].
    destruct n as [|n]; [reflexivity|].
    change (0 <? S n)%nat with true. cbn iota.
    unfold repopulate_regions. simpl.
    destruct (prepare_regions _ _ _ _); reflexivity.
Qed.

(** ** The comments that get a marker *)

Lemma marker_keys_app rs ms :
  marker_keys (rs ++ ms) = marker_keys rs ++ marker_keys ms.
Proof. unfold marker_keys. rewrite filter_app, map_app. reflexivity. Qed.

Lemma marker_keys_data r : is_comment r = false -> marker_keys [r] = [].
Proof. unfold marker_keys; simpl. intros ->. reflexivity. Qed.

Lemma marker_keys_comment_marker mode (nv rem : BitOffset) q :
  marker_keys [@comment_marker Payload mode nv rem q] = [key (cur q)].
Proof. unfold marker_keys; simpl. destruct (key (cur q)); reflexivity. Qed.

(** The comment loop pushes the markers of the comments it leaves behind,
    in their order. *)
Lemma emit_comments_marker_keys mode (fuel : nat) (nd nv rem : BitOffset) p rs
  (lim : list BitOffset) p' rs' (lim' : list BitOffset) :
  emit_comments mode fuel nd nv rem p rs lim = Ok (p', rs', lim') ->
  exists behind,
    marker_keys rs' = marker_keys rs ++ behind
    /\ ahead_keys p = behind ++ ahead_keys p'.
Proof.
  revert p rs lim; induction fuel as [|fuel IH]; intros p rs lim H.
  - destruct p as [q|]; cbn [emit_comments] in H.
    + destruct (offset (key (cur q)) =? nd); [discriminate|].
      injection H as <- <- <-. exists []. rewrite app_nil_r. split; reflexivity.
    + injection H as <- <- <-. exists []. rewrite app_nil_r. split; reflexivity.
  - destruct p as [q|]; cbn [emit_comments] in H.
    + destruct (offset (key (cur q)) =? nd).
      * unbind H. apply IH in H. destruct H as (behind & Hm & Hk).
        exists (key (cur q) :: behind). split.
        -- rewrite Hm, marker_keys_app, marker_keys_comment_marker, <- app_assoc.
           reflexivity.
        -- rewrite ahead_keys_next_depth_first, Hk. reflexivity.
      * injection H as <- <- <-. exists []. rewrite app_nil_r. split; reflexivity.
    + injection H as <- <- <-. exists []. rewrite app_nil_r. split; reflexivity.
Qed.

Lemma clamped_length_comment (nd rem : BitOffset) q (lim : list BitOffset)
  (dr : BitOffset) :
  clamped_length nd rem (Some q) lim = Ok dr -> nd + dr <= offset (key (cur q)).
Proof.
  unfold clamped_length. intros H. apply clamp_limit_Ok in H.
  destruct H as [H _]. revert H. unfold clamp_comment.
  destruct (rem >? offset (key (cur q)) - nd) eqn:E; lia.
Qed.

Lemma loop_body_shown d mode (ks : list Key) (base len : BitOffset) st st' :
  shown ks base len st -> 0 < remain_data st ->
  loop_body get_type d mode st = Ok st' -> shown ks base len st'.
Proof.
  intros (Hcov & Hge & HK & Hlt) Hpos H.
  pose proof (loop_body_covered _ _ _ _ _ _ Hcov Hpos H) as [Hcov' _].
  split; [exact Hcov'|].
  destruct Hcov as (_ & Hsum & _ & Hasc).
  apply loop_body_Ok in H.
  destruct H as (ms & behind & pushed & p' & t & types_rest & dr0 & r & dr
                 & Hp & Hemit & _ & Hk & Hb & Hp' & _ & _ & Hcl & _ & _ & Hmk & ->).
  apply emit_comments_marker_keys in Hemit. destruct Hemit as (behind' & Hm & Hk').
  assert (behind' = behind).
  { rewrite Hk in Hk'. apply app_inv_tail in Hk'. symmetry. exact Hk'. }
  subst behind'.
  apply make_data_region_Ok in Hmk. destruct Hmk as (Hnc & _ & _ & _ & Hle & _).
  assert (Hkeys : marker_keys (regions st ++ ms ++ [r])
                  = marker_keys (regions st) ++ behind).
  { rewrite app_assoc, marker_keys_app, (marker_keys_data _ Hnc), app_nil_r.
    exact Hm. }
  cbn [next_comment next_data regions]. rewrite Hkeys. split; [|split].
  - destruct p' as [q'|]; [|exact I].
    apply clamped_length_comment in Hcl. lia.
  - rewrite <- app_assoc, <- Hk. exact HK.
  - apply Forall_app. split; [exact Hlt|].
    eapply Forall_impl; [|exact Hb]. simpl. intros k Hk0. lia.
Qed.

Lemma filter_all {A : Type} (f : A -> bool) (l : list A) :
  Forall (fun x => f x = true) l -> filter f l = l.
Proof.
  induction 1 as [|x l Hx _ IH]; simpl; [reflexivity|]. rewrite Hx, IH. reflexivity.
Qed.

Lemma filter_none {A : Type} (f : A -> bool) (l : list A) :
  Forall (fun x => f x = false) l -> filter f l = [].
Proof.
  induction 1 as [|x l Hx _ IH]; simpl; [reflexivity|]. rewrite Hx, IH. reflexivity.
Qed.

Lemma filter_filter {A : Type} (f g : A -> bool) (l : list A) :
  filter f (filter g l) = filter (fun x => g x && f x) l.
Proof.
  induction l as [|x l IH]; simpl; [reflexivity|].
  destruct (g x); simpl; [destruct (f x)|]; rewrite IH; reflexivity.
Qed.

(** Where the cursor is not before [x] and the comments ahead are met at
    ascending offsets, no comment ahead starts before [x]. *)
Lemma ahead_keys_from (x : BitOffset) p :
  ascending (map offset (ahead_keys p)) = true ->
  match p with None => True | Some q => x <= offset (key (cur q)) end ->
  Forall (fun k => x <= offset k) (ahead_keys p).
Proof.
  destruct p as [q|]; [|constructor].
  rewrite ahead_keys_next_depth_first. cbn [map]. intros Hasc Hq.
  constructor; [exact Hq|].
  apply ascending_head in Hasc. rewrite Forall_forall in *.
  intros k Hk. specialize (Hasc (offset k) (in_map offset _ _ Hk)). lia.
Qed.

(** The markers of a compile that starts with no region are those of the
    comments ahead of the cursor that start before the end of the range. *)
Lemma main_loop_marker_keys d mode (fuel : nat) (base len : BitOffset) st rs :
  covered base len st ->
  match next_comment st with
  | None => True
  | Some q => next_data st <= offset (key (cur q))
  end ->
  regions st = [] ->
  main_loop get_type d mode fuel st = Ok rs ->
  marker_keys rs
  = filter (fun k => offset k <? base + len) (ahead_keys (next_comment st)).
Proof.
  intros Hcov Hge Hnil H.
  destruct (main_loop_invariant (shown (ahead_keys (next_comment st)) base len)
              d mode) with (fuel := fuel) (st := st) (rs := rs)
    as (st' & (Hcov' & Hge' & HK & Hlt) & Hdone & <-).
  - intros s s'. apply loop_body_shown.
  - split; [exact Hcov|]. split; [exact Hge|]. rewrite Hnil. split; [reflexivity|].
    constructor.
  - exact H.
  - rewrite <- HK, filter_app.
    destruct Hcov' as (_ & Hsum & Hrem & Hasc).
    rewrite filter_all, filter_none, app_nil_r; [reflexivity| |].
    + pose proof (ahead_keys_from (next_data st') _ Hasc Hge') as Hfrom.
      eapply Forall_impl; [|exact Hfrom]. simpl. intros k Hk. lia.
    + eapply Forall_impl; [|exact Hlt]. simpl. intros k Hk. lia.
Qed.

(** A step of the skipping loop over a tree that is closed before
    [base] leaves only comments behind that start before [base]. *)
Lemma closed_before_unfold (base : BitOffset) (n : Node) :
  closed_before base n
  = (if offset (key n) <? base
     then forallb (fun c => offset c <? base) (forest_keys (children n))
     else true)
    && forallb (closed_before base) (children n).
Proof. destruct n; reflexivity. Qed.

Lemma reach_closed_climb (base : BitOffset) (c : Node) (ns : list Node)
  (ab : list (Node * list Node)) :
  forallb (closed_before base) ns = true ->
  forallb (fun a => forallb (closed_before base) (snd a)) ab = true ->
  reach_closed_before base (get_next (climb_from c ns ab)) = true.
Proof.
  revert c ns; induction ab as [|[a an] ab IH]; intros c ns Hns Hab.
  - destruct ns as [|n ns]; [reflexivity|].
    unfold get_next; cbn. cbn in Hns. rewrite Hns. reflexivity.
  - destruct ns as [|n ns].
    + cbn [climb_from]. cbn in Hab. apply andb_true_iff in Hab.
      apply IH; apply Hab.
    + unfold get_next; cbn. cbn in Hns, Hab. rewrite Hns, Hab. reflexivity.
Qed.

Lemma skip_step_closed (base : BitOffset) q :
  reach_closed_before base (Some q) = true ->
  offset (key (cur q)) < base ->
  reach_closed_before base (skip_step base q) = true
  /\ exists behind,
       ahead_keys (Some q) = key (cur q) :: behind ++ ahead_keys (skip_step base q)
       /\ Forall (fun k => offset k < base) behind.
Proof.
  intros Hreach Hlt. cbn [reach_closed_before] in Hreach.
  apply andb_true_iff in Hreach. destruct Hreach as [Hreach Hab].
  apply andb_true_iff in Hreach. destruct Hreach as [Hcur Hns].
  rewrite closed_before_unfold in Hcur.
  apply andb_true_iff in Hcur. destruct Hcur as [Hbelow Hcs].
  assert (E : (offset (key (cur q)) <? base) = true) by lia.
  rewrite E in Hbelow.
  assert (Hup : reach_closed_before base (next_sibling_up q) = true
                /\ exists behind,
                     ahead_keys (Some q)
                     = key (cur q) :: behind ++ ahead_keys (next_sibling_up q)
                     /\ Forall (fun k => offset k < base) behind).
  { split; [apply reach_closed_climb; assumption|].
    exists (forest_keys (children (cur q))). split.
    - rewrite ahead_keys_next_sibling_up, node_keys_unfold. reflexivity.
    - apply Forall_forall. intros k Hk.
      rewrite forallb_forall in Hbelow. specialize (Hbelow k Hk). lia. }
  unfold skip_step.
  destruct (get_first_child q) as [fc|] eqn:Efc; [|exact Hup].
  destruct (_ || _); [|exact Hup].
  split.
  - unfold get_first_child in Efc.
    destruct (children (cur q)) as [|c cs]; [discriminate|].
    injection Efc as <-. cbn. cbn in Hcs. rewrite Hcs, Hns, Hab. reflexivity.
  - exists []. split; [|constructor]. simpl.
    pose proof (ahead_keys_next_depth_first q) as H.
    unfold next_depth_first in H. rewrite Efc in H. exact H.
Qed.

Lemma skip_comments_closed (base : BitOffset) (fuel : nat) p :
  (ahead p <= fuel)%nat -> reach_closed_before base p = true ->
  exists p' behind,
    skip_comments fuel base p = Ok p'
    /\ ahead_keys p = behind ++ ahead_keys p'
    /\ Forall (fun k => offset k < base) behind
    /\ match p' with
       | None => True
       | Some q => base <= offset (key (cur q))
       end.
Proof.
  revert p; induction fuel as [|fuel IH]; intros p Hfuel Hreach.
  - destruct p as [q|].
    + exfalso. rewrite ahead_next_depth_first in Hfuel. lia.
    + exists None, []. repeat split. constructor.
  - destruct p as [q|]; cbn [skip_comments].
    + destruct (offset (key (cur q)) <? base) eqn:E.
      * pose proof (ahead_skip_step base q) as Hlt.
        destruct (skip_step_closed base q Hreach ltac:(lia))
          as (Hreach' & b & Hb & Hbefore).
        destruct (IH (skip_step base q)) as (p' & behind & Hs & Hk & Hbeh & Hp');
          [lia | exact Hreach'|].
        exists p', (key (cur q) :: b ++ behind).
        split; [exact Hs|]. split; [|split; [|exact Hp']].
        -- rewrite Hb, Hk. simpl. rewrite <- app_assoc. reflexivity.
        -- constructor; [lia|]. apply Forall_app. split; assumption.
      * exists (Some q), []. repeat split; [constructor | lia].
    + exists None, []. repeat split. constructor.
Qed.

Lemma reach_closed_first_root_node (base : BitOffset) (roots : list Node) :
  forallb (closed_before base) roots = true ->
  reach_closed_before base (first_root_node roots) = true.
Proof.
  destruct roots as [|r roots]; [reflexivity|].
  cbn. intros ->. reflexivity.
Qed.

(** X1.  Where the comments are met at ascending offsets and no comment that
    starts before [base] has a comment below it that starts at [base] or
    later, the loop that skips the comments before [base] ends within as
    many steps as there are comments, and leaves the cursor with exactly the
    comments ahead that do not start before [base]. *)
Theorem skip_comments_keeps_the_rest d (base : BitOffset) :
  comments_ordered d = true ->
  forallb (closed_before base) (get_comments d) = true ->
  exists p',
    skip_comments (ahead (first_root_node (get_comments d))) base
      (first_root_node (get_comments d)) = Ok p'
    /\ ahead_keys p'
       = filter (fun k => base <=? offset k) (forest_keys (get_comments d)).
Proof.
  intros Hord Hclosed.
  destruct (skip_comments_closed base (ahead (first_root_node (get_comments d)))
              (first_root_node (get_comments d)) (le_n _)
              (reach_closed_first_root_node _ _ Hclosed))
    as (p' & behind & Hs & Hk & Hbefore & Hp').
  exists p'. split; [exact Hs|].
  rewrite ahead_keys_first_root_node in Hk.
  unfold comments_ordered in Hord. rewrite Hk, map_app in Hord.
  apply ascending_suffix in Hord.
  rewrite Hk, filter_app, filter_none, filter_all; [reflexivity| |].
  - pose proof (ahead_keys_from base _ Hord Hp') as Hfrom.
    eapply Forall_impl; [|exact Hfrom]. simpl. intros k Hk0. lia.
  - eapply Forall_impl; [|exact Hbefore]. simpl. intros k Hk0. lia.
Qed.

(** X2.  A compile of [len] bits from [base] with inline comments shown gives
    a marker to each comment that starts in the range, once and in
    depth-first order, and to no other, where the comments are met at
    ascending offsets and no comment that starts before [base] has a comment
    below it that starts at [base] or later. *)
Theorem compute_regions_markers d mode (base vbase len : BitOffset) rs :
  comments_ordered d = true ->
  forallb (closed_before base) (get_comments d) = true ->
  0 <= len -> mode <> ICM_HIDDEN ->
  compute_regions get_type d mode base vbase len = Ok rs ->
  marker_keys rs
  = filter (fun k => (base <=? offset k) && (offset k <? base + len))
      (forest_keys (get_comments d)).
Proof.
  intros Hord Hclosed Hlen Hmode H.
  destruct (skip_comments_closed base (ahead (first_root_node (get_comments d)))
              (first_root_node (get_comments d)) (le_n _)
              (reach_closed_first_root_node _ _ Hclosed))
    as (p0 & behind & Hs & Hk & Hbefore & Hp0).
  rewrite ahead_keys_first_root_node in Hk.
  unfold comments_ordered in Hord. rewrite Hk, map_app in Hord.
  apply ascending_suffix in Hord.
  unfold compute_regions, compute_regions_in, initial_state in H.
  rewrite Hs in H. cbn [bind] in H.
  assert (Hp : match mode with ICM_HIDDEN => None | _ => p0 end = p0)
    by (destruct mode; congruence).
  rewrite Hp in H.
  apply (main_loop_marker_keys d mode _ base len) in H;
    [| unfold covered; cbn [regions next_data remain_data next_comment];
       repeat split; [lia | exact Hord]
     | exact Hp0 | reflexivity].
  cbn [next_comment] in H. rewrite H.
  rewrite <- filter_filter. f_equal.
  rewrite Hk, filter_app, filter_none, filter_all; [reflexivity| |].
  - pose proof (ahead_keys_from base _ Hord Hp0) as Hfrom.
    eapply Forall_impl; [|exact Hfrom]. simpl. intros k Hk0. lia.
  - eapply Forall_impl; [|exact Hbefore]. simpl. intros k Hk0. lia.
Qed.

Lemma skip_comments_at_start (fuel : nat) (base : BitOffset) p :
  match p with None => True | Some q => base <= offset (key (cur q)) end ->
  skip_comments fuel base p = Ok p.
Proof.
  destruct fuel, p as [q|]; cbn [skip_comments]; intros Hq; try reflexivity;
    destruct (offset (key (cur q)) <? base) eqn:E; try reflexivity; lia.
Qed.

Lemma marker_keys_close_file_regions d rs rs' :
  close_file_regions d rs = Ok rs' -> marker_keys rs' = marker_keys rs.
Proof.
  unfold close_file_regions. destruct (back rs) as [last_region|].
  - destruct (negb _); intros H; injection H as <-; [|reflexivity].
    rewrite marker_keys_app. cbn. apply app_nil_r.
  - intros H. unbind H. injection H as <-.
    rewrite marker_keys_app. cbn. apply app_nil_r.
Qed.

(** X3.  The file view with inline comments shown gives a marker to each
    comment that starts inside the file, once and in depth-first order, and
    none to a comment that starts at the end of the file or after it, where
    the comments are met at ascending offsets, none negative. *)
Theorem file_view_shows_every_comment d mode rs :
  comments_ordered d = true ->
  Forall (fun k => 0 <= offset k) (forest_keys (get_comments d)) ->
  0 <= buffer_length d -> mode <> ICM_HIDDEN ->
  prepare_regions get_type d DDM_NORMAL mode = Ok rs ->
  marker_keys rs
  = filter (fun k => offset k <? of_bytes (buffer_length d))
      (forest_keys (get_comments d)).
Proof.
  intros Hord Hpos Hlen Hmode H.
  cbn [prepare_regions] in H. unfold file_view in H.
  unbind_as H file_regions Hfile.
  rewrite (marker_keys_close_file_regions _ _ _ H). clear H.
  assert (Hroot : match first_root_node (get_comments d) with
                  | None => True
                  | Some q => of_bytes 0 <= offset (key (cur q))
                  end).
  { destruct (get_comments d) as [|r roots]; [exact I|].
    cbn. rewrite Forall_forall in Hpos. apply Hpos.
    unfold forest_keys. cbn [flat_map]. rewrite node_keys_unfold. left; reflexivity. }
  unfold compute_regions, compute_regions_in, initial_state in Hfile.
  rewrite (skip_comments_at_start _ _ _ Hroot) in Hfile. cbn [bind] in Hfile.
  assert (Hp : match mode with
               | ICM_HIDDEN => None
               | _ => first_root_node (get_comments d)
               end = first_root_node (get_comments d))
    by (destruct mode; congruence).
  rewrite Hp in Hfile.
  apply (main_loop_marker_keys d mode _ (of_bytes 0) (of_bytes (buffer_length d)))
    in Hfile.
  - cbn [next_comment] in Hfile. rewrite ahead_keys_first_root_node in Hfile.
    exact Hfile.
  - unfold covered; cbn [regions next_data remain_data next_comment].
    rewrite ahead_keys_first_root_node.
    repeat split; [unfold of_bytes, mkBitOffset; lia | exact Hord].
  - exact Hroot.
  - reflexivity.
Qed.

(** ** Every marker comes before the data it is about *)

Lemma first_data_region_app rs ms r :
  first_data_region rs = Some r -> first_data_region (rs ++ ms) = Some r.
Proof.
  unfold first_data_region. induction rs as [|r0 rs IH]; simpl; [discriminate|].
  destruct (negb (is_comment r0)); [auto | exact IH].
Qed.

Lemma markers_lead_app rs ms :
  markers_lead rs = true -> markers_lead ms = true ->
  markers_lead (rs ++ ms) = true.
Proof.
  induction rs as [|r rs IH]; intros Hrs Hms; [exact Hms|].
  cbn [markers_lead app] in *. apply andb_true_iff in Hrs. destruct Hrs as [Hr Hrs].
  apply andb_true_iff. split; [|apply IH; assumption].
  destruct (is_comment r); [|reflexivity].
  destruct (first_data_region rs) as [data|] eqn:E; [|discriminate].
  rewrite (first_data_region_app _ ms _ E). exact Hr.
Qed.

Lemma markers_lead_step mode (nv rem nd : BitOffset) ms r :
  Forall (fun m => exists q,
            m = comment_marker mode nv rem q /\ offset (key (cur q)) = nd) ms ->
  is_comment r = false -> r_offset r = nd ->
  first_data_region (ms ++ [r]) = Some r /\ markers_lead (ms ++ [r]) = true.
Proof.
  intros Hms Hr Ho. induction Hms as [|m ms (q & -> & Hq) _ [IH1 IH2]].
  - cbn. unfold first_data_region. cbn. rewrite Hr. split; reflexivity.
  - split; [exact IH1|]. cbn [app markers_lead].
    change (is_comment (comment_marker mode nv rem q)) with true. cbn iota.
    rewrite IH1, IH2. cbn [r_offset comment_marker]. rewrite Ho, Hq.
    rewrite Z.eqb_refl. reflexivity.
Qed.

Lemma compute_regions_markers_lead d mode (base vbase len : BitOffset) rs :
  compute_regions get_type d mode base vbase len = Ok rs ->
  markers_lead rs = true.
Proof.
  unfold compute_regions, compute_regions_in. intros H.
  destruct (initial_state_Ok d mode base vbase len) as (p0 & behind & E & _).
  rewrite E in H. cbn [bind] in H.
  destruct (main_loop_invariant (fun st => markers_lead (regions st) = true)
              d mode) with (fuel := Z.to_nat len)
    (st := mkLoopState p0 (skip_types base (get_data_types d)) base vbase len
             (@nil (Region Payload)) []) (rs := rs)
    as (st' & Hlead & _ & <-); [| reflexivity | exact H | exact Hlead].
  clear. intros st st' Hlead _ H.
  apply loop_body_Ok in H.
  destruct H as (ms & behind & pushed & p' & t & types_rest & dr0 & r & dr
                 & _ & _ & Hms & _ & _ & _ & _ & _ & _ & _ & _ & Hmk & ->).
  apply make_data_region_Ok in Hmk. destruct Hmk as (Hnc & Ho & _).
  cbn [regions]. apply markers_lead_app; [exact Hlead|].
  exact (proj2 (markers_lead_step _ _ _ _ _ _ Hms Hnc Ho)).
Qed.

Lemma virtual_view_markers_lead d mode (segs : list Segment) rs :
  virtual_view get_type d mode segs = Ok rs -> markers_lead rs = true.
Proof.
  revert rs; induction segs as [|i segs IH]; cbn [virtual_view]; intros rs H.
  - injection H as <-. reflexivity.
  - unbind_as H v_regions Hv. unbind_as H rest Hrest. injection H as <-.
    apply markers_lead_app; [|apply IH; exact Hrest].
    exact (compute_regions_markers_lead _ _ _ _ _ _ Hv).
Qed.

(** X4.  In the list the document control is given, every comment marker is
    followed by a data region, and the first data region after it starts at
    the offset of the comment: markers stand right before the data they are
    about, with at most other markers in between.  The one exception is the
    marker that tells of a virtual view without virtual sections. *)
Theorem markers_come_before_their_data d ddm mode rs :
  (ddm = DDM_VIRTUAL -> get_virt_to_real_segs d <> []) ->
  prepare_regions get_type d ddm mode = Ok rs ->
  markers_lead rs = true.
Proof.
  intros Hsegs H.
  assert (Hfile : forall rs', file_view get_type d mode = Ok rs' ->
                              markers_lead rs' = true).
  { clear. unfold file_view. intros rs' H. unbind_as H file_regions Hfile.
    apply compute_regions_markers_lead in Hfile.
    unfold close_file_regions in H. destruct (back file_regions) as [last_region|].
    - destruct (negb _); injection H as <-; [|exact Hfile].
      apply markers_lead_app; [exact Hfile | reflexivity].
    - unbind H. injection H as <-.
      apply markers_lead_app; [exact Hfile | reflexivity]. }
  destruct ddm; cbn [prepare_regions] in H; [exact (Hfile _ H)|].
  destruct (get_virt_to_real_segs d) as [|i segs] eqn:E.
  - exfalso. apply Hsegs; reflexivity.
  - exact (virtual_view_markers_lead _ _ _ _ H).
Qed.

(** ** The type cursor at the start of a compile *)

Lemma skip_types_cover (base from to : BitOffset) (ts : list TypeRange) :
  types_cover from ts to -> from <= base < to ->
  exists before t after,
    ts = before ++ t :: after
    /\ skip_types base ts = t :: after
    /\ t_offset t <= base < t_offset t + t_length t
    /\ Forall (fun s => t_offset s + t_length s <= base) before.
Proof.
  revert from; induction ts as [|t ts IH]; cbn [types_cover skip_types];
    intros from Hcov Hbase; [lia|].
  destruct Hcov as (Ho & Hl & Hcov).
  destruct (t_offset t + t_length t <=? base) eqn:E.
  - destruct (IH _ Hcov) as (before & t' & after & -> & Hs & Ht & Hb); [lia|].
    exists (t :: before), t', after. repeat split; try assumption; try lia.
    constructor; [lia | exact Hb].
  - exists [], t, ts. repeat split; try lia. constructor.
Qed.

(** X5.  Where the type ranges of the document are a partition of its bytes,
    the loop that moves the type cursor to [base], a position inside the
    file, stops at the range that holds [base]: every range it skips ends at
    or before [base], so the first iteration of the main loop finds a range
    and the range covers its position. *)
Theorem skip_types_finds_the_range d (base : BitOffset) :
  types_partition d -> 0 <= base < mkBitOffset (buffer_length d) 0 ->
  exists before t after,
    get_data_types d = before ++ t :: after
    /\ skip_types base (get_data_types d) = t :: after
    /\ t_offset t <= base < t_offset t + t_length t
    /\ Forall (fun s => t_offset s + t_length s <= base) before.
Proof. intros Hpart Hbase. exact (skip_types_cover _ _ _ _ Hpart Hbase). Qed.

(** ** The regions follow the document *)

Lemma repopulate_regions_current (t t' : Tab Payload) :
  (repopulate_regions_frozen t = false -> repopulate_regions_pending t = false) ->
  repopulate_regions get_type t = Ok t' -> regions_current get_type t'.
Proof.
  intros Hinv H. unfold repopulate_regions in H.
  destruct (repopulate_regions_frozen t) eqn:Ef.
  - injection H as <-. split; cbn; discriminate.
  - unbind_as H regions' Hregions. injection H as <-.
    split; cbn; intros _; [apply Hinv; reflexivity | exact Hregions].
Qed.

(** The file view does not read the virtual segments. *)
Lemma file_view_segments (bl : Z) (cs : list Node) (ts : list TypeRange)
  (segs segs' : list Segment) mode :
  file_view get_type (mkDocument bl cs ts segs) mode
  = file_view get_type (mkDocument bl cs ts segs') mode.
Proof. reflexivity. Qed.

Lemma handle_current (e : TabEvent) (t t' : Tab Payload) :
  regions_current get_type t -> handle get_type e t = Ok t' ->
  regions_current get_type t'.
Proof.
  intros [Hpend Hcur] H.
  destruct e; cbn [handle] in H;
    unfold set_inline_comment_mode, set_document_display_mode,
      OnDocumentDataErase, OnDocumentDataInsert, OnDocumentDataOverwrite,
      OnDocumentCommentModified, OnDocumenHighlightsChanged,
      OnDocumentDataTypesChanged, OnBulkUpdatesFrozen, OnBulkUpdatesThawed in H;
    cbv zeta in H;
    try (apply repopulate_regions_current in H; [exact H | exact Hpend]).
  - injection H as <-. split; assumption.
  - injection H as <-. split; assumption.
  - unfold OnDocumentMappingsChanged in H. cbn [with_doc document_display_mode] in H.
    destruct (document_display_mode t) eqn:Eddm.
    + injection H as <-. split; [exact Hpend|].
      cbn [with_doc doc document_display_mode inline_comment_mode
             repopulate_regions_pending doc_ctrl_regions].
      intros Hp. specialize (Hcur Hp). rewrite Eddm in *.
      cbn [prepare_regions] in *. rewrite <- Hcur.
      destruct (doc t) as [bl cs ts segs0]. apply file_view_segments.
    + apply repopulate_regions_current in H; [exact H | exact Hpend].
  - injection H as <-. split; cbn; [discriminate | exact Hcur].
  - unfold repopulate_regions_thaw in H.
    cbn [repopulate_regions_pending] in H.
    destruct (repopulate_regions_pending t) eqn:Ep.
    + unbind_as H t1 Ht1. injection H as <-.
      unfold repopulate_regions in Ht1. cbn [repopulate_regions_frozen] in Ht1.
      unbind_as Ht1 regions' Hregions. injection Ht1 as <-.
      split; cbn; intros _; [reflexivity | exact Hregions].
    + injection H as <-. split; cbn; intros _; [reflexivity | apply Hcur; reflexivity].
Qed.

(** X6.  The region list follows the document.  From a tab whose list is
    current, after any events of the document and calls of the host that end
    well, the list the document control holds is the compile of the document
    as it now is in the modes as they now are, whenever the tab is not in a
    freeze; in a freeze the list is either still current or a request is
    pending.  A change of the virtual segments that is not followed by a
    compile, in the file view, is among the events. *)
Theorem regions_follow_the_document (es : list TabEvent) (t t' : Tab Payload) :
  regions_current get_type t ->
  handles get_type es t = Ok t' ->
  regions_current get_type t'
  /\ (repopulate_regions_frozen t' = false ->
      prepare_regions get_type (doc t') (document_display_mode t')
        (inline_comment_mode t') = Ok (doc_ctrl_regions t')).
Proof.
  intros Hcur H.
  assert (Hend : regions_current get_type t').
  { revert t Hcur H. induction es as [|e es IH]; intros t Hcur H; cbn [handles] in H.
    - injection H as <-. exact Hcur.
    - unbind_as H t1 Ht1. exact (IH t1 (handle_current e t t1 Hcur Ht1) H). }
  split; [exact Hend|]. destruct Hend as [Hpend Hregions].
  intros Hf. apply Hregions, Hpend, Hf.
Qed.

Lemma handle_frozen (e : TabEvent) (t : Tab Payload) :
  repopulate_regions_frozen t = true -> e <> BULK_UPDATES_THAWED ->
  exists t',
    handle get_type e t = Ok t'
    /\ repopulate_regions_frozen t' = true
    /\ doc_ctrl_regions t' = doc_ctrl_regions t
    /\ compiles t' = compiles t.
Proof.
  intros Hf He.
  destruct e; cbn [handle];
    unfold set_inline_comment_mode, set_document_display_mode,
      OnDocumentDataErase, OnDocumentDataInsert, OnDocumentDataOverwrite,
      OnDocumentCommentModified, OnDocumenHighlightsChanged,
      OnDocumentDataTypesChanged, OnDocumentMappingsChanged,
      OnBulkUpdatesFrozen, repopulate_regions, repopulate_regions_freeze,
      with_doc;
    cbn [repopulate_regions_frozen document_display_mode];
    rewrite ?Hf;
    try (eexists; split; [reflexivity|]; cbn; repeat split; assumption).
  - destruct (document_display_mode t);
      eexists; (split; [reflexivity|]); cbn; repeat split; assumption.
  - exfalso. apply He. reflexivity.
Qed.

(** X7.  During a freeze the regions stay as they are.  Whatever events and
    calls other than the thaw come to a frozen tab, none of them fails, the
    tab stays frozen, no compile is made, and the document control keeps the
    regions it has. *)
Theorem frozen_tab_keeps_its_regions (es : list TabEvent) (t : Tab Payload) :
  repopulate_regions_frozen t = true ->
  Forall (fun e => e <> BULK_UPDATES_THAWED) es ->
  exists t',
    handles get_type es t = Ok t'
    /\ repopulate_regions_frozen t' = true
    /\ doc_ctrl_regions t' = doc_ctrl_regions t
    /\ compiles t' = compiles t.
Proof.
  intros Hf Hes. revert t Hf.
  induction Hes as [|e es He _ IH]; intros t Hf.
  - exists t. repeat split. exact Hf.
  - destruct (handle_frozen e t Hf He) as (t1 & H1 & Hf1 & Hr1 & Hc1).
    destruct (IH t1 Hf1) as (t' & H' & Hf' & Hr' & Hc').
    exists t'. cbn [handles]. rewrite H1. cbn [bind].
    repeat split; [exact H' | exact Hf' | congruence | congruence].
Qed.

(** ** Data regions do not cross the end of a nesting comment *)

Lemma pop_limits_popped (nd : BitOffset) (lim : list BitOffset) :
  exists popped,
    lim = popped ++ pop_limits nd lim /\ Forall (fun x => x <= nd) popped.
Proof.
  induction lim as [|top lim (popped & Hp & Hle)].
  - exists []. split; [reflexivity | constructor].
  - cbn [pop_limits]. destruct (top <=? nd) eqn:E.
    + exists (top :: popped). split; [simpl; f_equal; exact Hp|].
      constructor; [lia | exact Hle].
    + exists []. split; [reflexivity | constructor].
Qed.

Lemma clamp_limit_top (nd : BitOffset) (lim : list BitOffset) (dr dr' : BitOffset) :
  clamp_limit nd lim dr = Ok dr' ->
  match lim with [] => True | top :: _ => nd + dr' <= top end.
Proof.
  unfold clamp_limit. destruct lim as [|top lim]; [trivial|].
  destruct (nd + dr >=? top) eqn:E; intros H.
  - unbind H. injection H as <-. lia.
  - injection H as <-. lia.
Qed.

(** In a mode that nests, the comment loop keeps the stack ascending,
    drops no boundary, and leaves the end of every comment of at least one
    bit it has gone over on the stack. *)
Lemma emit_comments_limits mode (fuel : nat) (nd nv rem : BitOffset) p rs
  (lim : list BitOffset) p' rs' (lim' : list BitOffset) :
  nest_of mode = true -> ascending lim = true ->
  emit_comments mode fuel nd nv rem p rs lim = Ok (p', rs', lim') ->
  ascending lim' = true
  /\ incl lim lim'
  /\ exists ms,
       rs' = rs ++ ms
       /\ Forall (fun m =>
                    is_comment m = true /\ r_offset m = nd
                    /\ (0 < comment_length_of m ->
                        In (r_offset m + comment_length_of m) lim')) ms.
Proof.
  intros Hnest. revert p rs lim; induction fuel as [|fuel IH]; intros p rs lim Hasc H.
  - destruct p as [q|]; cbn [emit_comments] in H.
    + destruct (offset (key (cur q)) =? nd); [discriminate|].
      injection H as <- <- <-. split; [exact Hasc|]. split; [apply incl_refl|].
      exists []. rewrite app_nil_r. split; [reflexivity | constructor].
    + injection H as <- <- <-. split; [exact Hasc|]. split; [apply incl_refl|].
      exists []. rewrite app_nil_r. split; [reflexivity | constructor].
  - destruct p as [q|]; cbn [emit_comments] in H.
    + destruct (offset (key (cur q)) =? nd) eqn:E.
      * apply Z.eqb_eq in E. unbind_as H lim1 Hpush.
        assert (Hpushed : ascending lim1 = true /\ incl lim lim1
                          /\ (0 < length (key (cur q)) ->
                              In (offset (key (cur q)) + length (key (cur q))) lim1)).
        { unfold push_limit in Hpush. rewrite Hnest in Hpush. cbn [andb] in Hpush.
          destruct (length (key (cur q)) >? 0) eqn:El.
          - unbind_as Hpush u Hu. injection Hpush as <-.
            split; [|split].
            + destruct lim as [|top lim]; [reflexivity|].
              cbn [ascending]. apply andb_true_iff. split; [lia | exact Hasc].
            + apply incl_tl, incl_refl.
            + intros _. left; reflexivity.
          - injection Hpush as <-. split; [exact Hasc|]. split; [apply incl_refl|].
            intros Hl. lia. }
        destruct Hpushed as (Hasc1 & Hincl1 & Hin1).
        apply IH in H; [|exact Hasc1].
        destruct H as (Hasc' & Hincl' & ms & -> & Hms).
        split; [exact Hasc'|]. split; [exact (incl_tran Hincl1 Hincl')|].
        exists (comment_marker mode nv rem q :: ms).
        rewrite <- app_assoc. split; [reflexivity|].
        constructor; [|exact Hms].
        split; [reflexivity|]. split; [exact E|].
        cbn [comment_marker r_offset comment_length_of]. intros Hl.
        apply Hincl', Hin1, Hl.
      * injection H as <- <- <-. split; [exact Hasc|]. split; [apply incl_refl|].
        exists []. rewrite app_nil_r. split; [reflexivity | constructor].
    + injection H as <- <- <-. split; [exact Hasc|]. split; [apply incl_refl|].
      exists []. rewrite app_nil_r. split; [reflexivity | constructor].
Qed.

Lemma regions_nested_app rs ms :
  regions_nested rs -> regions_nested ms ->
  Forall (fun m => is_comment m = true -> 0 < comment_length_of m ->
                   Forall (ends_inside m) ms) rs ->
  regions_nested (rs ++ ms).
Proof.
  induction rs as [|m rs IH]; intros Hrs Hms Hcross; [exact Hms|].
  cbn [app regions_nested] in *. destruct Hrs as [Hm Hrs].
  inversion Hcross as [|? ? Hm' Hcross']; subst.
  split; [|apply IH; assumption].
  intros Hc Hl. apply Forall_app. split; [exact (Hm Hc Hl) | exact (Hm' Hc Hl)].
Qed.

Lemma ascending_In (x y : Z) (l : list Z) :
  ascending (x :: l) = true -> In y (x :: l) -> x <= y.
Proof.
  intros Hasc [<-|Hin]; [lia|].
  apply ascending_head in Hasc. rewrite Forall_forall in Hasc. exact (Hasc y Hin).
Qed.

Lemma loop_body_nesting d mode (base len : BitOffset) st st' :
  nest_of mode = true ->
  covered base len st -> nesting st -> 0 < remain_data st ->
  loop_body get_type d mode st = Ok st' -> nesting st'.
Proof.
  intros Hnest Hcov (Hnested & Hasc & Hends) Hpos H.
  pose proof (loop_body_covered _ _ _ _ _ _ Hcov Hpos H) as [_ Hless].
  apply loop_body_Ok in H.
  destruct H as (ms & behind & pushed & p' & t & types_rest & dr0 & r & dr
                 & _ & Hemit & _ & _ & _ & _ & _ & _ & Hcl & _ & _ & Hmk & ->).
  cbn [remain_data] in Hless.
  destruct (pop_limits_popped (next_data st) (dr_limit st)) as (popped & Hpop & Hpopped).
  assert (Hasc0 : ascending (pop_limits (next_data st) (dr_limit st)) = true).
  { rewrite Hpop in Hasc. exact (ascending_suffix _ _ Hasc). }
  apply (emit_comments_limits _ _ _ _ _ _ _ _ _ _ _ Hnest Hasc0) in Hemit.
  destruct Hemit as (Hasc' & Hincl & ms' & Hms' & Hmarkers).
  apply app_inv_head in Hms'. subst ms'.
  set (lim' := pushed ++ pop_limits (next_data st) (dr_limit st)) in *.
  apply make_data_region_Ok in Hmk.
  destruct Hmk as (Hnc & Hoff & _ & Hlen & Hle & _).
  assert (Htop : forall E, In E lim' -> next_data st + dr <= E).
  { intros E HE. unfold clamped_length in Hcl. apply clamp_limit_top in Hcl.
    destruct lim' as [|top lim']; [destruct HE|].
    pose proof (ascending_In _ _ _ Hasc' HE). lia. }
  assert (Hold : Forall (fun m =>
                           is_comment m = true -> 0 < comment_length_of m ->
                           r_offset m + comment_length_of m <= next_data st
                           \/ In (r_offset m + comment_length_of m) lim')
                   (regions st)).
  { eapply Forall_impl; [|exact Hends]. cbn beta. intros m Hm Hc Hl.
    destruct (Hm Hc Hl) as [Hbehind|Hin]; [left; exact Hbehind|].
    rewrite Hpop in Hin. apply in_app_or in Hin. destruct Hin as [Hin|Hin].
    - left. rewrite Forall_forall in Hpopped. exact (Hpopped _ Hin).
    - right. apply Hincl. exact Hin. }
  assert (Hr : forall m, is_comment m = true -> 0 < comment_length_of m ->
                         r_offset m + comment_length_of m <= next_data st
                         \/ In (r_offset m + comment_length_of m) lim' ->
                         ends_inside m r).
  { intros m Hc Hl [Hbehind|Hin] _ Hstart; [lia|].
    rewrite Hoff, Hlen. exact (Htop _ Hin). }
  assert (Hcomments : forall m, Forall (ends_inside m) ms).
  { intros m. eapply Forall_impl; [|exact Hmarkers]. cbn beta.
    intros m' (Hc' & _) Hnc'. congruence. }
  split; [|split]; cbn [regions dr_limit next_data].
  - apply regions_nested_app; [exact Hnested| |].
    + clear - Hmarkers Hr Hnc. induction Hmarkers as [|m ms (Hc & Ho & Hin) Hms IH].
      * cbn. split; [rewrite Hnc; discriminate | exact I].
      * cbn [app regions_nested]. split; [|exact IH].
        intros _ Hl. apply Forall_app. split.
        -- eapply Forall_impl; [|exact Hms]. cbn beta.
           intros m' (Hc' & _) Hnc'. congruence.
        -- constructor; [|constructor].
           apply Hr; [exact Hc | exact Hl | right; exact (Hin Hl)].
    + rewrite Forall_forall in Hold. apply Forall_forall. intros m Hm Hc Hl.
      apply Forall_app. split; [apply Hcomments|].
      constructor; [|constructor].
      exact (Hr m Hc Hl (Hold m Hm Hc Hl)).
  - exact Hasc'.
  - rewrite !Forall_app. split; [|split].
    + eapply Forall_impl; [|exact Hold]. cbn beta. intros m Hm Hc Hl.
      destruct (Hm Hc Hl) as [Hbehind|Hin]; [left; lia | right; exact Hin].
    + eapply Forall_impl; [|exact Hmarkers]. cbn beta.
      intros m (Hc & Ho & Hin) _ Hl. right. exact (Hin Hl).
    + constructor; [|constructor]. intros Hc. congruence.
Qed.

(** X8.  In a mode that nests, a compile that ends well gives regions that
    respect the comments.  Where the comments of the document are met at
    ascending offsets, no data region that comes after the marker of a
    comment of at least one bit, and starts before the end of that comment,
    ends after it: what is shown indented under a comment is made of whole
    regions, whatever the type ranges are. *)
Theorem data_regions_stay_inside_comments d mode (base vbase len : BitOffset) rs :
  comments_ordered d = true -> 0 <= len -> nest_of mode = true ->
  compute_regions get_type d mode base vbase len = Ok rs ->
  regions_nested rs.
Proof.
  intros Hord Hlen Hnest H. unfold compute_regions, compute_regions_in in H.
  destruct (initial_state_Ok d mode base vbase len) as (p0 & behind & E & Hk & _).
  rewrite E in H. cbn [bind] in H.
  destruct (main_loop_invariant (fun st => covered base len st /\ nesting st)
              d mode) with (fuel := Z.to_nat len)
    (st := mkLoopState p0 (skip_types base (get_data_types d)) base vbase len
             (@nil (Region Payload)) []) (rs := rs)
    as (st' & [_ (Hnested & _)] & _ & <-).
  - intros st st' [Hcov Hn] Hpos Hbody. split.
    + exact (proj1 (loop_body_covered _ _ _ _ _ _ Hcov Hpos Hbody)).
    + exact (loop_body_nesting _ _ _ _ _ _ Hnest Hcov Hn Hpos Hbody).
  - split.
    + unfold covered; cbn [regions next_data remain_data next_comment].
      repeat split; [lia|].
      unfold comments_ordered in Hord. rewrite Hk, map_app in Hord.
      exact (ascending_suffix _ _ Hord).
    + unfold nesting; cbn. repeat split. constructor.
  - exact H.
  - exact Hnested.
Qed.

(** ** No assertion fails when the regions of a well-formed document are
    computed *)

Lemma total_length_app rs ms :
  total_length (rs ++ ms) = total_length rs + total_length ms.
Proof.
  induction rs as [|r rs IH]; simpl; [reflexivity|]. rewrite IH. lia.
Qed.

Lemma file_view_of_well_formed d mode :
  comments_well_formed d -> types_partition d ->
  (forall t, In t (get_data_types d) -> keeps_positive get_type t) ->
  0 <= buffer_length d ->
  exists rs,
    file_view get_type d mode = Ok rs
    /\ total_length (data_regions rs) = of_bytes (buffer_length d).
Proof.
  intros Hwf Htypes Hkeep Hlen. unfold file_view.
  destruct (compile_of_well_formed_document d mode (of_bytes 0) (of_bytes 0)
              (of_bytes (buffer_length d)) Hwf Htypes Hkeep)
    as (rs & -> & _ & Htotal);
    try (unfold of_bytes, mkBitOffset; lia).
  cbn [bind]. unfold close_file_regions.
  destruct (back rs) as [last_region|] eqn:Eback.
  - destruct (negb (is_DataRegionDocHighlight last_region)).
    + eexists. split; [reflexivity|].
      rewrite data_regions_app, total_length_app, Htotal. cbn. lia.
    + exists rs. split; [reflexivity | exact Htotal].
  - assert (rs = []) as ->.
    { destruct rs as [|r rs] using rev_ind; [reflexivity|].
      rewrite back_snoc in Eback. discriminate. }
    cbn in Htotal. unfold of_bytes, mkBitOffset in Htotal.
    assert (E : (buffer_length d =? 0) = true) by lia.
    rewrite E. cbn [assert bind]. eexists. split; [reflexivity|].
    cbn. unfold of_bytes, mkBitOffset. lia.
Qed.

Lemma virtual_view_of_well_formed d mode (segs : list Segment) :
  comments_well_formed d -> types_partition d ->
  (forall t, In t (get_data_types d) -> keeps_positive get_type t) ->
  Forall (segment_in_file d) segs ->
  exists rs,
    virtual_view get_type d mode segs = Ok rs
    /\ total_length (data_regions rs)
       = fold_right (fun s acc => of_bytes (seg_length s) + acc) 0 segs.
Proof.
  intros Hwf Htypes Hkeep Hsegs.
  induction Hsegs as [|i segs (Hreal & Hlen & Hend) _ (rest & Hrest & Htotal')].
  - exists []. split; reflexivity.
  - cbn [virtual_view fold_right].
    destruct (compile_of_well_formed_document d mode (of_bytes (real_offset i))
                (of_bytes (virt_offset i)) (of_bytes (seg_length i))
                Hwf Htypes Hkeep)
      as (rs & -> & _ & Htotal);
      try (unfold of_bytes, mkBitOffset; lia).
    rewrite Hrest. cbn [bind]. eexists. split; [reflexivity|].
    rewrite data_regions_app, total_length_app, Htotal, Htotal'. reflexivity.
Qed.

(** X9.  No assertion fails when the regions of a well-formed document are
    computed.  Where the comments are a forest in order, the type ranges a
    partition of the file, no type leaves its factory an empty length and
    the virtual segments lie inside the file, [repopulate_regions] gets its
    region list in either display mode and any comment mode, within the
    iterations allowed; and the data regions of the list take as many bits
    as the view shows of the file: the file, or its virtual segments. *)
Theorem regions_of_well_formed_document d ddm mode :
  comments_well_formed d -> types_partition d ->
  (forall t, In t (get_data_types d) -> keeps_positive get_type t) ->
  0 <= buffer_length d ->
  Forall (segment_in_file d) (get_virt_to_real_segs d) ->
  exists rs,
    prepare_regions get_type d ddm mode = Ok rs
    /\ total_length (data_regions rs) = shown_length d ddm.
Proof.
  intros Hwf Htypes Hkeep Hlen Hsegs.
  destruct (file_view_of_well_formed d mode Hwf Htypes Hkeep Hlen)
    as (file_regions & Hfile & Htotal).
  unfold prepare_regions, shown_length. destruct ddm.
  - exists file_regions. split; [exact Hfile|].
    destruct (get_virt_to_real_segs d); exact Htotal.
  - destruct (get_virt_to_real_segs d) as [|seg segs] eqn:E.
    + rewrite Hfile. cbn [bind]. eexists. split; [reflexivity|]. exact Htotal.
    + exact (virtual_view_of_well_formed d mode (seg :: segs) Hwf Htypes Hkeep Hsegs).
Qed.

(** ** A click on a comment marker *)

Lemma main_loop_marker_keys_ahead d mode (fuel : nat) st rs :
  main_loop get_type d mode fuel st = Ok rs ->
  incl (marker_keys rs)
    (marker_keys (regions st) ++ ahead_keys (next_comment st)).
Proof.
  intros H.
  destruct (main_loop_invariant
              (fun st' => incl (marker_keys (regions st') ++ ahead_keys (next_comment st'))
                            (marker_keys (regions st) ++ ahead_keys (next_comment st)))
              d mode) with (fuel := fuel) (st := st) (rs := rs)
    as (st' & Hincl & _ & <-); [| apply incl_refl | exact H |].
  - clear. intros s s' Hincl _ H.
    apply loop_body_Ok in H.
    destruct H as (ms & behind & pushed & p' & t & types_rest & dr0 & r & dr
                   & _ & Hemit & _ & Hk & _ & _ & _ & _ & _ & _ & _ & Hmk & ->).
    apply emit_comments_marker_keys in Hemit. destruct Hemit as (behind' & Hm & Hk').
    apply make_data_region_Ok in Hmk. destruct Hmk as (Hnc & _).
    cbn [regions next_comment].
    rewrite app_assoc, marker_keys_app, (marker_keys_data _ Hnc), app_nil_r, Hm.
    rewrite <- app_assoc, <- Hk'. exact Hincl.
  - intros k Hk. apply Hincl. apply in_or_app. left. exact Hk.
Qed.

Lemma compute_regions_marker_of_comment d mode (base vbase len : BitOffset) rs m :
  compute_regions get_type d mode base vbase len = Ok rs ->
  In m rs -> is_comment m = true ->
  In (mkKey (r_offset m) (comment_length_of m)) (forest_keys (get_comments d)).
Proof.
  unfold compute_regions, compute_regions_in. intros H Hm Hc.
  destruct (initial_state_Ok d mode base vbase len) as (p0 & behind & E & Hk & _).
  rewrite E in H. cbn [bind] in H.
  apply main_loop_marker_keys_ahead in H. cbn [regions next_comment app] in H.
  rewrite Hk. apply in_or_app. right. apply H.
  unfold marker_keys.
  apply (in_map (fun r => mkKey (r_offset r) (comment_length_of r))).
  apply filter_In. split; assumption.
Qed.

Lemma file_view_marker_of_comment d mode rs m :
  file_view get_type d mode = Ok rs -> In m rs -> is_comment m = true ->
  In (mkKey (r_offset m) (comment_length_of m)) (forest_keys (get_comments d)).
Proof.
  unfold file_view. intros H Hm Hc. unbind_as H file_regions Hfile.
  apply (compute_regions_marker_of_comment _ _ _ _ _ _ m Hfile); [|exact Hc].
  unfold close_file_regions in H. destruct (back file_regions) as [last_region|].
  - destruct (negb _); injection H as <-; [|exact Hm].
    apply in_app_or in Hm. destruct Hm as [Hm|[<-|[]]]; [exact Hm | discriminate].
  - unbind H. injection H as <-.
    apply in_app_or in Hm. destruct Hm as [Hm|[<-|[]]]; [exact Hm | discriminate].
Qed.

Lemma virtual_view_marker_of_comment d mode (segs : list Segment) rs m :
  virtual_view get_type d mode segs = Ok rs -> In m rs -> is_comment m = true ->
  In (mkKey (r_offset m) (comment_length_of m)) (forest_keys (get_comments d)).
Proof.
  revert rs; induction segs as [|i segs IH]; cbn [virtual_view]; intros rs H Hm Hc.
  - injection H as <-. destruct Hm.
  - unbind_as H v_regions Hv. unbind_as H rest Hrest. injection H as <-.
    apply in_app_or in Hm. destruct Hm as [Hm|Hm].
    + exact (compute_regions_marker_of_comment _ _ _ _ _ _ m Hv Hm Hc).
    + exact (IH rest Hrest Hm Hc).
Qed.

(** X10.  A click on a comment marker edits the comment of the marker.
    Where no comment of the document starts at a negative offset, every
    comment marker of the list the document control is given is the marker
    of a comment of the document, with the offset and the length of that
    comment, and [OnCommentLeftClick] with them opens the dialog that edits
    that comment; or it is the marker that tells of a virtual view without
    virtual sections, and [OnCommentLeftClick] with its offset and length
    does nothing. *)
Theorem click_on_a_marker_edits_its_comment d ddm mode rs m :
  Forall (fun k => 0 <= offset k) (forest_keys (get_comments d)) ->
  prepare_regions get_type d ddm mode = Ok rs ->
  In m rs -> is_comment m = true ->
  (m = no_sections_marker
   /\ OnCommentLeftClick (r_offset m) (comment_length_of m) = [])
  \/ (In (mkKey (r_offset m) (comment_length_of m)) (forest_keys (get_comments d))
      /\ OnCommentLeftClick (r_offset m) (comment_length_of m)
         = [EditCommentDialog_run_modal (r_offset m) (comment_length_of m)]).
Proof.
  intros Hpos H Hm Hc.
  assert (Hclick : In (mkKey (r_offset m) (comment_length_of m))
                     (forest_keys (get_comments d)) ->
                   In (mkKey (r_offset m) (comment_length_of m))
                     (forest_keys (get_comments d))
                   /\ OnCommentLeftClick (r_offset m) (comment_length_of m)
                      = [EditCommentDialog_run_modal (r_offset m)
                           (comment_length_of m)]).
  { intros Hin. split; [exact Hin|].
    rewrite Forall_forall in Hpos. specialize (Hpos _ Hin). cbn [offset] in Hpos.
    unfold OnCommentLeftClick.
    destruct (r_offset m <? 0) eqn:E; [lia | reflexivity]. }
  unfold prepare_regions in H. destruct ddm.
  - right. apply Hclick. exact (file_view_marker_of_comment _ _ _ _ H Hm Hc).
  - destruct (get_virt_to_real_segs d) as [|seg segs].
    + unbind_as H file_regions Hfile. injection H as <-.
      destruct Hm as [<-|Hm].
      * left. split; reflexivity.
      * right. apply Hclick.
        exact (file_view_marker_of_comment _ _ _ _ Hfile Hm Hc).
    + right. apply Hclick.
      exact (virtual_view_marker_of_comment _ _ _ _ _ H Hm Hc).
Qed.

End Properties.

(** * Properties of the notices of a deleted or modified file *)

Lemma each_child_window_In (f : Window -> Effect) (s : Notices) (e : Effect) :
  In e (each_child_window f s) -> exists w, e = f w.
Proof.
  unfold each_child_window. intros H.
  apply in_app_or in H. destruct H as [H|H].
  - apply in_map_iff in H. destruct H as (w & <- & _). exists w; reflexivity.
  - apply in_app_or in H.
    destruct H as [H|H];
      [destruct (doc_properties s) | destruct (goto_offset_dialog s)];
      cbn in H; try contradiction;
      destruct H as [<-|[]]; eexists; reflexivity.
Qed.

Lemma each_child_window_quiet (f : Window -> Effect) (s : Notices) :
  (forall w, answers_notice (f w) = false) ->
  existsb answers_notice (each_child_window f s) = false.
Proof.
  intros Hf. destruct (existsb _ _) eqn:E; [|reflexivity].
  apply existsb_exists in E. destruct E as (e & He & Hans).
  apply each_child_window_In in He. destruct He as [w ->].
  rewrite Hf in Hans. discriminate.
Qed.

(** Takes the cases of the flags and answers a handler looks at, as it
    looks at them. *)
Ltac case_var :=
  match goal with
  | |- context [if ?b then _ else _] => is_var b; destruct b
  | |- context [match ?x with _ => _ end] => is_var x; destruct x
  | |- context [orb ?b _] => is_var b; destruct b
  | |- context [andb ?b _] => is_var b; destruct b
  | |- context [negb ?b] => is_var b; destruct b
  | |- context [String.eqb ?a ?b] => destruct (String.eqb a b)
  end; cbn.

Ltac notice_cases s u :=
  destruct s as [hidden active deleted modified reloads ws pw gw];
  destruct u as [dirty deleted_r new_filename discard_r reload_r];
  cbn; repeat case_var.

(** The two dialogs and the choice between them leave the tab hidden or
    shown, and its parent active or not, as they were; what they do beyond
    setting the pending flags, they do on a tab that can show a dialog. *)
Lemma pending_dialogs_flags (u : Answers) (s s' : Notices) (es : list Effect) :
  pending_dialogs u s = (s', es) ->
  child_windows_hidden s' = child_windows_hidden s
  /\ parent_window_active s' = parent_window_active s
  /\ (existsb answers_notice es = true -> can_show s = true).
Proof.
  unfold pending_dialogs, file_deleted_dialog, file_modified_dialog, can_show.
  notice_cases s u; intros [= <- <-]; cbn; repeat split; congruence.
Qed.

Lemma file_deleted_dialog_flags (u : Answers) (s s' : Notices) (es : list Effect) :
  file_deleted_dialog u s = (s', es) ->
  child_windows_hidden s' = child_windows_hidden s
  /\ parent_window_active s' = parent_window_active s
  /\ (existsb answers_notice es = true -> can_show s = true).
Proof.
  unfold file_deleted_dialog, can_show.
  notice_cases s u; intros [= <- <-]; cbn; repeat split; congruence.
Qed.

Lemma file_modified_dialog_flags (u : Answers) (s s' : Notices) (es : list Effect) :
  file_modified_dialog u s = (s', es) ->
  child_windows_hidden s' = child_windows_hidden s
  /\ parent_window_active s' = parent_window_active s
  /\ (existsb answers_notice es = true -> can_show s = true).
Proof.
  unfold file_modified_dialog, can_show.
  notice_cases s u; intros [= <- <-]; cbn; repeat split; congruence.
Qed.

(** X11.  A dialog about the backing file is run, and the document is saved
    or reloaded on account of a notice, only on a tab whose child windows
    are not hidden and whose parent window is active; on any other tab the
    handlers do no more than set a pending flag, hide or show the child
    windows and forward the event. *)
Theorem dialogs_only_when_showable (c : NoticeCall) (s s' : Notices)
  (es : list Effect) :
  notice c s = (s', es) ->
  existsb answers_notice es = true ->
  can_show s' = true.
Proof.
  destruct c; cbn [notice].
  - unfold hide_child_windows. intros [= <- <-].
    rewrite each_child_window_quiet; [discriminate | reflexivity].
  - unfold unhide_child_windows.
    destruct (pending_dialogs u (set_child_windows_hidden false s))
      as [s1 dialogs] eqn:E.
    intros [= <- <-]. rewrite existsb_app, each_child_window_quiet by reflexivity.
    apply pending_dialogs_flags in E. destruct E as (Eh & Ea & Hshow).
    cbn [orb]. intros Hd. specialize (Hshow Hd).
    unfold can_show in *. rewrite Eh, Ea. exact Hshow.
  - unfold set_parent_window_active.
    destruct (parent_window_active' && _) eqn:Eguard.
    + intros E. apply pending_dialogs_flags in E. destruct E as (Eh & Ea & Hshow).
      intros Hd. specialize (Hshow Hd).
      unfold can_show in *. rewrite Eh, Ea. exact Hshow.
    + intros [= <- <-]. discriminate.
  - intros [= <- <-]. discriminate.
  - unfold OnDocumentFileDeleted.
    destruct (file_deleted_dialog u s) as [s1 dialogs] eqn:E.
    intros [= <- <-]. apply file_deleted_dialog_flags in E.
    destruct E as (Eh & Ea & Hshow). cbn [existsb answers_notice orb].
    intros Hd. specialize (Hshow Hd).
    unfold can_show in *. rewrite Eh, Ea. exact Hshow.
  - unfold OnDocumentFileModified.
    destruct (file_modified_dialog u s) as [s1 dialogs] eqn:E.
    intros [= <- <-]. apply file_modified_dialog_flags in E.
    destruct E as (Eh & Ea & Hshow). rewrite existsb_app. cbn.
    rewrite orb_false_r.
    intros Hd. specialize (Hshow Hd).
    unfold can_show in *. rewrite Eh, Ea. exact Hshow.
Qed.

Lemma notice_settled (c : NoticeCall) (s : Notices) :
  (can_show s = true ->
   file_deleted_dialog_pending s = false /\ file_modified_dialog_pending s = false) ->
  can_show (fst (notice c s)) = true ->
  file_deleted_dialog_pending (fst (notice c s)) = false
  /\ file_modified_dialog_pending (fst (notice c s)) = false.
Proof.
  destruct c; cbn [notice];
    unfold hide_child_windows, unhide_child_windows, set_parent_window_active,
      pending_dialogs, OnDocumentFileDeleted, OnDocumentFileModified,
      file_deleted_dialog, file_modified_dialog, can_show.
  - destruct s as [hidden active deleted modified reloads ws pw gw]; cbn.
    discriminate.
  - notice_cases s u; intuition congruence.
  - destruct parent_window_active'; notice_cases s u; intuition congruence.
  - destruct s as [hidden active deleted modified reloads ws pw gw]; cbn.
    intros H Hs. exact (H Hs).
  - notice_cases s u; intuition congruence.
  - notice_cases s u; intuition congruence.
Qed.

Lemma notices_fst (c : NoticeCall) (cs : list NoticeCall) (s : Notices) :
  fst (notices (c :: cs) s) = fst (notices cs (fst (notice c s))).
Proof.
  cbn [notices]. destruct (notice c s) as [s1 effects1]. cbn [fst].
  destruct (notices cs s1). reflexivity.
Qed.

(** X12.  No notice waits on a tab that can show it.  Whatever calls and
    events a new tab goes through, whenever its child windows are not hidden
    and its parent window is active, neither the notice of a deleted file
    nor the notice of a modified file is pending. *)
Theorem no_notice_waits_when_showable (ws : list Window) (cs : list NoticeCall)
  (s : Notices) :
  fst (notices cs (new_notices ws)) = s ->
  can_show s = true ->
  file_deleted_dialog_pending s = false /\ file_modified_dialog_pending s = false.
Proof.
  intros <-.
  assert (Hgen : forall s0,
             (can_show s0 = true ->
              file_deleted_dialog_pending s0 = false
              /\ file_modified_dialog_pending s0 = false) ->
             can_show (fst (notices cs s0)) = true ->
             file_deleted_dialog_pending (fst (notices cs s0)) = false
             /\ file_modified_dialog_pending (fst (notices cs s0)) = false).
  { induction cs as [|c cs IH]; intros s0 H0; [exact H0|].
    rewrite notices_fst. apply IH. apply notice_settled. exact H0. }
  apply Hgen. intros _. split; reflexivity.
Qed.

Lemma each_child_window_none (P : Effect -> bool) (f : Window -> Effect)
  (s : Notices) :
  (forall w, P (f w) = false) -> existsb P (each_child_window f s) = false.
Proof.
  intros Hf. destruct (existsb _ _) eqn:E; [|reflexivity].
  apply existsb_exists in E. destruct E as (e & He & HP).
  apply each_child_window_In in He. destruct He as [w ->].
  rewrite Hf in HP. discriminate.
Qed.

Lemma In_after_windows (f : Window -> Effect) (s : Notices)
  (dialogs : list Effect) (e : Effect) :
  (forall w, e <> f w) ->
  In e (each_child_window f s ++ dialogs) <-> In e dialogs.
Proof.
  intros Hf. split; [|intros H; apply in_or_app; right; exact H].
  intros H. apply in_app_or in H. destruct H as [H|H]; [|exact H].
  apply each_child_window_In in H. destruct H as [w ->]. exfalso. apply (Hf w).
  reflexivity.
Qed.

Lemma pending_dialogs_delivers (u : Answers) (s s' : Notices) (es : list Effect) :
  can_show s = true -> pending_dialogs u s = (s', es) ->
  (file_deleted_dialog_pending s' = false
   /\ file_modified_dialog_pending s' = false)
  /\ (file_deleted_dialog_pending s = true ->
      In FileDeletedDialog es /\ ~ In DiscardChangesDialog es
      /\ ~ In ReloadDialog es /\ ~ In doc_reload es)
  /\ (file_deleted_dialog_pending s = false ->
      file_modified_dialog_pending s = true ->
      ~ In FileDeletedDialog es
      /\ (is_dirty u = true -> In DiscardChangesDialog es)
      /\ (is_dirty u = false -> auto_reload s = false -> In ReloadDialog es)
      /\ (is_dirty u = false -> auto_reload s = true ->
          In doc_reload es /\ existsb is_dialog es = false)).
Proof.
  unfold pending_dialogs, file_deleted_dialog, file_modified_dialog, can_show.
  notice_cases s u; intros Hshow [= <- <-]; cbn; intuition congruence.
Qed.

(** X13.  A notice that had to wait is shown when the tab gets able to show
    it.  When the child windows are unhidden or the parent window becomes
    active, and the tab can then show a dialog, nothing is pending
    afterwards; a pending notice of a deleted file has had its dialog, and
    no dialog or reload for a modified file came with it, pending or not; a
    pending notice of a modified file alone has had the dialog that asks to
    discard the changes of a dirty document, or the dialog that asks to
    reload a clean one, or the reload without a dialog when the tab reloads
    by itself. *)
Theorem pending_notice_is_shown (c : NoticeCall) (u : Answers) (s s' : Notices)
  (es : list Effect) :
  c = CallUnhideChildWindows u \/ c = CallSetParentWindowActive u true ->
  notice c s = (s', es) -> can_show s' = true ->
  (file_deleted_dialog_pending s' = false
   /\ file_modified_dialog_pending s' = false)
  /\ (file_deleted_dialog_pending s = true ->
      In FileDeletedDialog es /\ ~ In DiscardChangesDialog es
      /\ ~ In ReloadDialog es /\ ~ In doc_reload es)
  /\ (file_deleted_dialog_pending s = false ->
      file_modified_dialog_pending s = true ->
      ~ In FileDeletedDialog es
      /\ (is_dirty u = true -> In DiscardChangesDialog es)
      /\ (is_dirty u = false -> auto_reload s = false -> In ReloadDialog es)
      /\ (is_dirty u = false -> auto_reload s = true ->
          In doc_reload es /\ existsb is_dialog es = false)).
Proof.
  intros [->| ->]; cbn [notice].
  - unfold unhide_child_windows.
    destruct (pending_dialogs u (set_child_windows_hidden false s))
      as [s1 dialogs] eqn:E.
    intros [= <- <-] Hshow.
    pose proof (pending_dialogs_flags _ _ _ _ E) as (Eh & Ea & _).
    apply pending_dialogs_delivers in E;
      [| unfold can_show in *; rewrite <- Eh, <- Ea; exact Hshow].
    rewrite existsb_app, each_child_window_none by reflexivity.
    rewrite !In_after_windows by discriminate.
    destruct s; exact E.
  - unfold set_parent_window_active.
    destruct (true && negb _) eqn:Eguard.
    + intros E Hshow.
      pose proof (pending_dialogs_flags _ _ _ _ E) as (Eh & Ea & _).
      apply pending_dialogs_delivers in E;
        [| unfold can_show in *; rewrite <- Eh, <- Ea; exact Hshow].
      destruct s; exact E.
    + intros [= <- <-] Hshow. exfalso. unfold can_show in Hshow.
      cbn [andb] in Eguard. rewrite Eguard in Hshow. discriminate.
Qed.

Lemma consent_app (u : Answers) (s s1 : Notices) (before es after : list Effect) :
  auto_reload s1 = auto_reload s ->
  consent u s1 es -> consent u s (before ++ es ++ after).
Proof.
  intros Ear [Hdirty Hclean]. rewrite Ear in Hclean. split.
  - intros Hd. destruct (Hdirty Hd) as [Hr Hin]. split; [exact Hr|].
    apply in_or_app; right; apply in_or_app; left; exact Hin.
  - intros Hd. destruct (Hclean Hd) as [Har|[Hr Hin]]; [left; exact Har|].
    right. split; [exact Hr|].
    apply in_or_app; right; apply in_or_app; left; exact Hin.
Qed.

Lemma file_deleted_dialog_reload (u : Answers) (s s' : Notices) (es : list Effect) :
  file_deleted_dialog u s = (s', es) ->
  ~ In doc_reload es /\ ~ In ReloadDialog es /\ auto_reload s' = auto_reload s.
Proof.
  unfold file_deleted_dialog.
  notice_cases s u; intros [= <- <-]; cbn; intuition congruence.
Qed.

Lemma file_modified_dialog_reload (u : Answers) (s s' : Notices) (es : list Effect) :
  file_modified_dialog u s = (s', es) ->
  (In doc_reload es -> consent u s es)
  /\ (auto_reload s' = true ->
      auto_reload s = true
      \/ (is_dirty u = false /\ reload_response u = ID_AUTO_RELOAD
          /\ In ReloadDialog es)).
Proof.
  unfold file_modified_dialog, consent.
  notice_cases s u; intros [= <- <-]; cbn; intuition congruence.
Qed.

Lemma pending_dialogs_reload (u : Answers) (s s' : Notices) (es : list Effect) :
  pending_dialogs u s = (s', es) ->
  (In doc_reload es -> consent u s es)
  /\ (auto_reload s' = true ->
      auto_reload s = true
      \/ (is_dirty u = false /\ reload_response u = ID_AUTO_RELOAD
          /\ In ReloadDialog es)).
Proof.
  unfold pending_dialogs.
  destruct (file_deleted_dialog_pending s).
  - intros E. apply file_deleted_dialog_reload in E.
    destruct E as (Hno & _ & Ear). split; [intros Hin; contradiction|].
    rewrite Ear. destruct s; cbn. left; assumption.
  - destruct (file_modified_dialog_pending s).
    + apply file_modified_dialog_reload.
    + intros [= <- <-]. split; [intros []|]. left; assumption.
Qed.

(** X14.  The tab reloads its document only by consent.  Where a call or an
    event makes the tab reload the document, the document was dirty and the
    user did not say no in the dialog that asks to discard the changes, or
    it was clean and either the tab reloads by itself or the user did not
    say no in the dialog that asks to reload.  And the tab reloads by itself
    afterwards only if it did before, or its host set it so, or the document
    was clean and the user chose to always reload in that dialog. *)
Theorem reload_needs_consent (c : NoticeCall) (s s' : Notices) (es : list Effect) :
  notice c s = (s', es) ->
  (In doc_reload es -> exists u, answers_of c = Some u /\ consent u s es)
  /\ (auto_reload s' = true ->
      auto_reload s = true
      \/ c = CallSetAutoReload true
      \/ exists u, answers_of c = Some u /\ is_dirty u = false
                   /\ reload_response u = ID_AUTO_RELOAD /\ In ReloadDialog es).
Proof.
  destruct c; cbn [notice answers_of].
  - unfold hide_child_windows. intros [= <- <-]. split.
    + intros Hin. apply each_child_window_In in Hin. destruct Hin as [w Hw].
      discriminate.
    + destruct s; cbn. left; assumption.
  - unfold unhide_child_windows.
    destruct (pending_dialogs u (set_child_windows_hidden false s))
      as [s1 dialogs] eqn:E.
    intros [= <- <-]. apply pending_dialogs_reload in E. destruct E as [Hre Har].
    split.
    + intros Hin. exists u. split; [reflexivity|].
      apply In_after_windows in Hin; [|discriminate].
      rewrite <- (app_nil_r dialogs).
      apply (consent_app u s (set_child_windows_hidden false s));
        [destruct s; reflexivity | exact (Hre Hin)].
    + intros H1. destruct (Har H1) as [H|(Hd & Hr & Hin)].
      * left. destruct s; exact H.
      * right; right. exists u. repeat split; try assumption.
        apply in_or_app; right; exact Hin.
  - unfold set_parent_window_active. destruct (_ && _).
    + intros E. apply pending_dialogs_reload in E. destruct E as [Hre Har].
      split.
      * intros Hin. exists u. split; [reflexivity|].
        specialize (Hre Hin). destruct s; exact Hre.
      * intros H1. destruct (Har H1) as [H|(Hd & Hr & Hin)].
        -- left. destruct s; exact H.
        -- right; right. exists u. repeat split; assumption.
    + intros [= <- <-]. split; [intros []|]. destruct s; cbn. left; assumption.
  - intros [= <- <-]. split; [intros []|]. cbn. intros ->. right; left; reflexivity.
  - unfold OnDocumentFileDeleted.
    destruct (file_deleted_dialog u s) as [s1 dialogs] eqn:E.
    intros [= <- <-]. apply file_deleted_dialog_reload in E.
    destruct E as (Hno & _ & Ear). split.
    + intros [Hin|Hin]; [discriminate | contradiction].
    + rewrite Ear. left; assumption.
  - unfold OnDocumentFileModified.
    destruct (file_modified_dialog u s) as [s1 dialogs] eqn:E.
    intros [= <- <-]. apply file_modified_dialog_reload in E.
    destruct E as [Hre Har]. split.
    + intros Hin. exists u. split; [reflexivity|].
      apply in_app_or in Hin. destruct Hin as [Hin|[Hin|[]]]; [|discriminate].
      apply (consent_app u s s [] dialogs [Forward]); [reflexivity | exact (Hre Hin)].
    + intros H1. destruct (Har H1) as [H|(Hd & Hr & Hin)]; [left; exact H|].
      right; right. exists u. repeat split; try assumption.
      apply in_or_app; left; exact Hin.
Qed.

(** * Properties of keys and paste *)

Section EditingProperties.

Variable parse_ascii_nibble : Z -> Z.
Variable utf8_str : Z -> string.
Variables WXK_NONE WXK_INSERT WXK_DELETE WXK_BACK : Z.
Variables wxMOD_NONE wxMOD_SHIFT : Z.

Local Abbreviation on_char :=
  (OnDocumentCtrlChar parse_ascii_nibble utf8_str WXK_NONE WXK_INSERT WXK_DELETE
     WXK_BACK wxMOD_NONE wxMOD_SHIFT).





(** X17.  A paste of bytes in overwrite mode stays inside the file.  With
    nothing selected and the cursor in the file, the bytes pasted are written
    over the bytes at the cursor, as many of them as there are whole bytes
    from the cursor to the end of the file and no more than were pasted; the
    write ends in the file, takes all the bytes pasted when they fit, and the
    cursor is asked to go right after it. *)
Theorem paste_overwrites_inside_the_file (v : View) (data : list Z) :
  snd (get_selection_linear v) <= 0 -> has_selection v = false ->
  get_insert_mode v = false ->
  0 <= get_cursor_position v <= of_bytes (doc_buffer_length v) ->
  exists to_write,
    paste_data v data
    = [overwrite_data (get_cursor_position v) data to_write
         (get_cursor_position v + of_bytes to_write)]
    /\ 0 <= to_write <= Z.of_nat (List.length data)
    /\ get_cursor_position v + of_bytes to_write <= of_bytes (doc_buffer_length v)
    /\ (to_write < Z.of_nat (List.length data) ->
        of_bytes (doc_buffer_length v)
        < get_cursor_position v + of_bytes (to_write + 1)).
Proof.
  intros Hsel Hnosel Hins Hcur. unfold paste_data.
  destruct (get_selection_linear v) as [selection_off selection_length].
  cbn [snd] in Hsel. unfold BitOffset_ZERO.
  assert (E : (selection_length >? 0) = false) by lia.
  rewrite E, Hnosel, Hins.
  eexists. split; [reflexivity|].
  unfold of_bytes, mkBitOffset, byte in *.
  set (c := get_cursor_position v) in *. set (L := doc_buffer_length v) in *.
  assert (Hq : 0 <= Z.quot (8 * L + 0 - c) 8) by (apply Z.quot_pos; lia).
  pose proof (Z.quot_rem' (8 * L + 0 - c) 8) as Hqr.
  pose proof (Z.rem_bound_pos (8 * L + 0 - c) 8 ltac:(lia) ltac:(lia)) as Hr.
  split; [lia|]. split; lia.
Qed.

Lemma nibble_bits_value (nibble : Z) :
  0 <= nibble < 16 ->
  bits_value [negb (Z.land nibble 8 =? 0); negb (Z.land nibble 4 =? 0);
              negb (Z.land nibble 2 =? 0); negb (Z.land nibble 1 =? 0)]
  = nibble
  /\ Z.land (Z.shiftl nibble 4) 255 = 16 * nibble.
Proof.
  intros H.
  assert (Hcases : nibble = 0 \/ nibble = 1 \/ nibble = 2 \/ nibble = 3
                   \/ nibble = 4 \/ nibble = 5 \/ nibble = 6 \/ nibble = 7
                   \/ nibble = 8 \/ nibble = 9 \/ nibble = 10 \/ nibble = 11
                   \/ nibble = 12 \/ nibble = 13 \/ nibble = 14 \/ nibble = 15)
    by lia.
  repeat (destruct Hcases as [->|Hcases]; [split; reflexivity|]).
  subst. split; reflexivity.
Qed.

(** X18.  A hex digit typed in the hex view is written as typed.  For a key
    event without modifier, or with shift only, whose key is a hex digit with
    a value under sixteen, the handler makes one of three calls and skips
    nothing: in insert mode with the cursor not on the second nibble of a
    byte of its region, it inserts at the cursor one byte that has the digit
    as its high nibble and zero as its low nibble, or rings the bell when the
    cursor is not on a byte boundary; in any other case it overwrites four
    bits at the cursor with the bits that spell the digit, the most
    significant first.  Where it writes, the cursor is asked to go four bits
    on and the selection is cleared. *)
Theorem hex_digit_is_written_as_typed (event : KeyEvent) (v : View)
  (d_offset : BitOffset) :
  hex_view_active v = true ->
  GetModifiers event = wxMOD_NONE \/ GetModifiers event = wxMOD_SHIFT ->
  isasciihex (GetKeyCode event) = true ->
  0 <= parse_ascii_nibble (GetKeyCode event) < 16 ->
  let nibble := parse_ascii_nibble (GetKeyCode event) in
  let cursor_pos := get_cursor_position v in
  let second_nibble :=
    bo_mod (cursor_pos - d_offset) (mkBitOffset 1 0) =? mkBitOffset 0 4 in
  exists commands,
    on_char false event v (Some d_offset) = Some (commands, false)
    /\ if get_insert_mode v && negb second_nibble then
         if byte_aligned cursor_pos then
           commands = [insert_data (byte cursor_pos) [16 * nibble]
                         (cursor_pos + mkBitOffset 0 4);
                       clear_selection]
         else commands = [wxBell]
       else
         exists bits,
           commands = [overwrite_bits cursor_pos bits
                         (cursor_pos + mkBitOffset 0 4);
                       clear_selection]
           /\ List.length bits = 4%nat /\ bits_value bits = nibble.
Proof.
  intros Hhex Hmod Hdigit Hnibble nibble cursor_pos second_nibble.
  destruct (nibble_bits_value _ Hnibble) as [Hbits Hbyte].
  subst nibble cursor_pos second_nibble.
  unfold OnDocumentCtrlChar. cbn [negb].
  destruct (get_selection_linear v) as [selection_off selection_length].
  assert (E : ((GetModifiers event =? wxMOD_NONE)
               || (GetModifiers event =? wxMOD_SHIFT)) = true).
  { apply orb_true_iff. destruct Hmod as [-> | ->]; [left | right];
      apply Z.eqb_refl. }
  rewrite Hhex, E, Hdigit. cbn [andb].
  destruct (get_insert_mode v && negb _).
  - destruct (byte_aligned (get_cursor_position v)); cbn [negb].
    + eexists. split; [reflexivity|]. rewrite Hbyte. reflexivity.
    + eexists. split; reflexivity.
  - eexists. split; [reflexivity|]. eexists. split; [reflexivity|].
    split; [reflexivity | exact Hbits].
Qed.

End EditingProperties.

(** * Properties of the tool panes *)

Lemma vsplit_clamp_sash_hsplit (p : Pane) (sash_position : Z) :
  vsplit_clamp_sash p sash_position = hsplit_clamp_sash p sash_position.
Proof. reflexivity. Qed.

(** Inside [int] nothing wraps. *)
Lemma int_wrap_inside (x : Z) : INT_MIN <= x <= INT_MAX -> int_wrap x = x.
Proof.
  unfold int_wrap, INT_MIN, INT_MAX. intros H.
  rewrite Z.mod_small by lia. lia.
Qed.

(** On a screen the clamp computes in [int] what it would with integers
    without bound. *)
Lemma hsplit_clamp_sash_on_screen (p : Pane) (page : Page) (pos : Z) :
  GetCurrentPage p = Some page -> on_screen p page ->
  hsplit_clamp_sash p pos
  = let extra := notebook_GetSize p - GetSize page in
    let sash_max :=
      GetClientSize p - (Z.max (GetMinSize page) 0 + extra + GetSashSize p) in
    if pos >? sash_max then sash_max
    else if GetMaxSize page >? 0 then
      let sash_min :=
        GetClientSize p - (GetMaxSize page + extra + GetSashSize p) in
      if pos <? sash_min then sash_min else pos
    else pos.
Proof.
  intros Hpage (Hc & Hs & Hn & Hg & Hm & HM).
  unfold screen_size in *. unfold hsplit_clamp_sash. rewrite Hpage. cbv zeta.
  unfold int_sub, int_add.
  rewrite (int_wrap_inside (notebook_GetSize p - GetSize page))
    by (unfold INT_MIN, INT_MAX; lia).
  rewrite (int_wrap_inside (Z.max (GetMinSize page) 0 + _))
    by (unfold INT_MIN, INT_MAX; lia).
  rewrite (int_wrap_inside (Z.max (GetMinSize page) 0 + _ + _))
    by (unfold INT_MIN, INT_MAX; lia).
  rewrite (int_wrap_inside (GetClientSize p - _))
    by (unfold INT_MIN, INT_MAX; lia).
  destruct (pos >? _); [reflexivity|].
  destruct (GetMaxSize page >? 0) eqn:EM; [|reflexivity].
  rewrite (int_wrap_inside (GetMaxSize page + _))
    by (unfold INT_MIN, INT_MAX; lia).
  rewrite (int_wrap_inside (GetMaxSize page + _ + _))
    by (unfold INT_MIN, INT_MAX; lia).
  rewrite (int_wrap_inside (GetClientSize p - _))
    by (unfold INT_MIN, INT_MAX; lia).
  reflexivity.
Qed.

Lemma hsplit_clamp_sash_bounds (p : Pane) (page : Page) (pos : Z) :
  GetCurrentPage p = Some page -> on_screen p page ->
  GetMaxSize page <= 0 \/ Z.max (GetMinSize page) 0 <= GetMaxSize page ->
  clamps_to_page hsplit_clamp_sash p page pos.
Proof.
  intros Hpage Hscreen Hcons. unfold clamps_to_page.
  assert (Hclamp := fun x => hsplit_clamp_sash_on_screen p page x Hpage Hscreen).
  cbv zeta in Hclamp. rewrite (Hclamp (hsplit_clamp_sash p pos)), (Hclamp pos).
  unfold page_room.
  repeat match goal with
         | |- context [?a >? ?b] => destruct (Z.gtb_spec a b)
         | |- context [?a <? ?b] => destruct (Z.ltb_spec a b)
         end; repeat split; intros; lia.
Qed.

(** X19.  Clamping keeps the current tool page within its sizes.  Where the
    sizes of the pane and its page are sizes on a screen (none beyond
    [2^28] pixels either way, so that the [int] arithmetic of the clamp
    does not overflow) and the maximum size of the page is not set, or is
    not less than its minimum size taken at least zero, the sash position
    given back by [hsplit_clamp_sash], and by [vsplit_clamp_sash], leaves
    the page at least its minimum size, and at most its maximum size when
    that is set; it is the position asked for when that one does so already,
    and clamping it again changes nothing. *)
Theorem clamp_sash_keeps_page_in_bounds (p : Pane) (page : Page) (pos : Z) :
  GetCurrentPage p = Some page -> on_screen p page ->
  GetMaxSize page <= 0 \/ Z.max (GetMinSize page) 0 <= GetMaxSize page ->
  clamps_to_page hsplit_clamp_sash p page pos
  /\ clamps_to_page vsplit_clamp_sash p page pos.
Proof.
  intros Hpage Hscreen Hcons. split.
  - exact (hsplit_clamp_sash_bounds p page pos Hpage Hscreen Hcons).
  - change vsplit_clamp_sash with hsplit_clamp_sash.
    exact (hsplit_clamp_sash_bounds p page pos Hpage Hscreen Hcons).
Qed.

(** X20.  A resize and a drag of the sash keep the current tool page within
    its sizes.  Where the sizes of a pane and its current page are sizes on
    a screen (none beyond [2^28] pixels either way), the pane is split and
    the sizes of the page are consistent (the maximum unset, or not less
    than the minimum taken at least zero), the sash is, once [OnSize] has set what it sets, at a
    position that leaves the page between its minimum and its maximum size,
    and [OnSize] sets nothing when the sash is at such a position already;
    and the position [OnHSplitterSashPosChanging] or
    [OnVSplitterSashPosChanging] leaves in the event does the same, and is
    the position the event came with when that one does already. *)
Theorem resize_and_drag_keep_page_in_bounds (h v : Pane) (hpage vpage : Page)
  (pos : Z) :
  GetCurrentPage h = Some hpage -> GetCurrentPage v = Some vpage ->
  on_screen h hpage -> on_screen v vpage ->
  GetMaxSize hpage <= 0 \/ Z.max (GetMinSize hpage) 0 <= GetMaxSize hpage ->
  GetMaxSize vpage <= 0 \/ Z.max (GetMinSize vpage) 0 <= GetMaxSize vpage ->
  (IsSplit h = true ->
   page_in_bounds h hpage (sash_after h (fst (OnSize h v)))
   /\ (page_in_bounds h hpage (GetSashPosition h) -> fst (OnSize h v) = []))
  /\ (IsSplit v = true ->
      page_in_bounds v vpage (sash_after v (snd (OnSize h v)))
      /\ (page_in_bounds v vpage (GetSashPosition v) -> snd (OnSize h v) = []))
  /\ page_in_bounds h hpage (OnHSplitterSashPosChanging h pos)
  /\ (page_in_bounds h hpage pos -> OnHSplitterSashPosChanging h pos = pos)
  /\ page_in_bounds v vpage (OnVSplitterSashPosChanging v pos)
  /\ (page_in_bounds v vpage pos -> OnVSplitterSashPosChanging v pos = pos).
Proof.
  intros Hh Hv Hhs Hvs Hhc Hvc.
  assert (Hchanging : forall p page x,
             GetCurrentPage p = Some page -> on_screen p page ->
             GetMaxSize page <= 0 \/ Z.max (GetMinSize page) 0 <= GetMaxSize page ->
             page_in_bounds p page
               (if negb (x =? hsplit_clamp_sash p x)
                then hsplit_clamp_sash p x else x)
             /\ (page_in_bounds p page x ->
                 (if negb (x =? hsplit_clamp_sash p x)
                  then hsplit_clamp_sash p x else x) = x)).
  { intros p page x Hp Hs Hc.
    destruct (hsplit_clamp_sash_bounds p page x Hp Hs Hc) as (Hmin & Hmax & Hfix & _).
    destruct (x =? hsplit_clamp_sash p x) eqn:E; cbn [negb].
    - apply Z.eqb_eq in E. rewrite <- E in Hmin, Hmax.
      split; [split; assumption | reflexivity].
    - split; [split; assumption|]. intros [Hlo Hhi]. exact (Hfix Hlo Hhi). }
  assert (Hsize : forall p page,
             GetCurrentPage p = Some page -> on_screen p page ->
             GetMaxSize page <= 0 \/ Z.max (GetMinSize page) 0 <= GetMaxSize page ->
             page_in_bounds p page
               (sash_after p
                  (if negb (GetSashPosition p =? hsplit_clamp_sash p (GetSashPosition p))
                   then [SetSashPosition (hsplit_clamp_sash p (GetSashPosition p))]
                   else []))
             /\ (page_in_bounds p page (GetSashPosition p) ->
                 (if negb (GetSashPosition p =? hsplit_clamp_sash p (GetSashPosition p))
                  then [SetSashPosition (hsplit_clamp_sash p (GetSashPosition p))]
                  else []) = [])).
  { intros p page Hp Hs Hc.
    destruct (hsplit_clamp_sash_bounds p page (GetSashPosition p) Hp Hs Hc)
      as (Hmin & Hmax & Hfix & _).
    destruct (GetSashPosition p =? hsplit_clamp_sash p (GetSashPosition p)) eqn:E;
      cbn [negb]; unfold sash_after; cbn [fold_left].
    - apply Z.eqb_eq in E. rewrite <- E in Hmin, Hmax.
      split; [split; assumption | reflexivity].
    - split; [split; assumption|]. intros [Hlo Hhi].
      rewrite (Hfix Hlo Hhi) in E. rewrite Z.eqb_refl in E. discriminate. }
  unfold OnSize, OnHSplitterSashPosChanging, OnVSplitterSashPosChanging.
  cbn [fst snd]. change vsplit_clamp_sash with hsplit_clamp_sash.
  split; [intros ->; exact (Hsize h hpage Hh Hhs Hhc)|].
  split; [intros ->; exact (Hsize v vpage Hv Hvs Hvc)|].
  split; [exact (proj1 (Hchanging h hpage pos Hh Hhs Hhc))|].
  split; [exact (proj2 (Hchanging h hpage pos Hh Hhs Hhc))|].
  split; [exact (proj1 (Hchanging v vpage pos Hv Hvs Hvc))|].
  exact (proj2 (Hchanging v vpage pos Hv Hvs Hvc)).
Qed.

Ltac adjust_cases :=
  repeat (match goal with
          | p : Page |- _ => destruct p
          | |- context [if ?b then _ else _] => is_var b; destruct b
          | |- context [match ?x with _ => _ end] => is_var x; destruct x
          | |- context [negb ?b] => is_var b; destruct b
          | |- context [?a >? ?b] => destruct (a >? b)
          | |- context [?a <? ?b] => destruct (a <? b)
          end; cbn).

Lemma vtools_call_settled (c : AdjustCall) (s : Adjust * nat) :
  adjust_settled s -> adjust_settled (fst (vtools_call c s)).
Proof.
  destruct s as [[pending force init] bound]. unfold adjust_settled.
  cbn [fst snd adjust_pending adjust_force]. intros [-> Hf].
  destruct pending, force; try (specialize (Hf eq_refl); discriminate);
    destruct c as [[page client sash nb is_split pos] f|f|[page client sash nb is_split pos]];
    cbn [vtools_call];
    unfold vtools_adjust_now_idle, vtools_adjust, vtools_adjust_on_idle;
    cbn; adjust_cases; cbn; split; congruence.
Qed.

Lemma htools_call_settled (c : AdjustCall) (s : Adjust * nat) :
  adjust_settled s -> adjust_settled (fst (htools_call c s)).
Proof.
  destruct s as [[pending force init] bound]. unfold adjust_settled.
  cbn [fst snd adjust_pending adjust_force]. intros [-> Hf].
  destruct pending, force; try (specialize (Hf eq_refl); discriminate);
    destruct c as [[page client sash nb is_split pos] f|f|[page client sash nb is_split pos]];
    cbn [htools_call];
    unfold htools_adjust_now_idle, htools_adjust, htools_adjust_on_idle;
    cbn; adjust_cases; cbn; split; congruence.
Qed.

Lemma adjust_calls_fst
  (call1 : AdjustCall -> Adjust * nat -> (Adjust * nat) * list PaneEffect)
  (c : AdjustCall) (cs : list AdjustCall) (s : Adjust * nat) :
  fst (adjust_calls call1 (c :: cs) s)
  = fst (adjust_calls call1 cs (fst (call1 c s))).
Proof.
  cbn [adjust_calls]. destruct (call1 c s) as [s1 effects1]. cbn [fst].
  destruct (adjust_calls call1 cs s1). reflexivity.
Qed.

Lemma adjust_calls_settled
  (call1 : AdjustCall -> Adjust * nat -> (Adjust * nat) * list PaneEffect) :
  (forall c s, adjust_settled s -> adjust_settled (fst (call1 c s))) ->
  forall cs s, adjust_settled s -> adjust_settled (fst (adjust_calls call1 cs s)).
Proof.
  intros Hstep cs; induction cs as [|c cs IH]; intros s Hs; [exact Hs|].
  rewrite adjust_calls_fst. apply IH, Hstep, Hs.
Qed.

(** X21.  The idle handler of a tool pane is bound exactly while an adjust is
    pending.  Whatever calls of the adjust functions and idle events a new
    tab goes through, for the vertical pane and for the horizontal one, one
    handler is bound to the idle event when an adjust is pending and none
    when not: the handler is never bound twice and never left bound; and a
    forced resize is never left over from an adjust that was done. *)
Theorem idle_handler_bound_while_pending (cs : list AdjustCall) :
  adjust_settled (fst (adjust_calls vtools_call cs new_adjust))
  /\ adjust_settled (fst (adjust_calls htools_call cs new_adjust)).
Proof.
  split; apply adjust_calls_settled;
    try apply vtools_call_settled; try apply htools_call_settled;
    split; [reflexivity | discriminate | reflexivity | discriminate].
Qed.

Lemma adjust_calls_pending
  (call1 : AdjustCall -> Adjust * nat -> (Adjust * nat) * list PaneEffect) :
  (forall c pending_force init bound,
     is_idle_event c = false ->
     call1 c (mkAdjust true pending_force init, bound)
     = ((mkAdjust true (pending_force || asks_force c) init, bound), [])) ->
  forall cs pending_force init bound,
    existsb is_idle_event cs = false ->
    adjust_calls call1 cs (mkAdjust true pending_force init, bound)
    = ((mkAdjust true (pending_force || existsb asks_force cs) init, bound), []).
Proof.
  intros Hstep cs; induction cs as [|c cs IH]; intros force init bound Hcs.
  - cbn. rewrite orb_false_r. reflexivity.
  - cbn [existsb] in Hcs. apply orb_false_iff in Hcs. destruct Hcs as [Hc Hcs].
    cbn [adjust_calls existsb]. rewrite (Hstep c force init bound Hc).
    rewrite (IH _ _ _ Hcs). rewrite orb_assoc. reflexivity.
Qed.

Lemma vtools_call_pending (c : AdjustCall) (pending_force : bool) (init : Z)
  (bound : nat) :
  is_idle_event c = false ->
  vtools_call c (mkAdjust true pending_force init, bound)
  = ((mkAdjust true (pending_force || asks_force c) init, bound), []).
Proof.
  destruct c as [p f|f|p]; [| |discriminate]; intros _;
    cbn [vtools_call]; unfold vtools_adjust, vtools_adjust_on_idle;
    destruct pending_force, f; reflexivity.
Qed.

Lemma htools_call_pending (c : AdjustCall) (pending_force : bool) (init : Z)
  (bound : nat) :
  is_idle_event c = false ->
  htools_call c (mkAdjust true pending_force init, bound)
  = ((mkAdjust true (pending_force || asks_force c) init, bound), []).
Proof.
  destruct c as [p f|f|p]; [| |discriminate]; intros _;
    cbn [htools_call]; unfold htools_adjust, htools_adjust_on_idle;
    destruct pending_force, f; reflexivity.
Qed.

(** X22.  Requests to adjust a tool pane are coalesced.  After a request made
    while none is pending, any further requests and direct calls of the
    adjust function before the next idle event bind no other handler and
    touch no splitter; the one adjust that is pending is to force a resize
    exactly if a resize was to be forced before or one of the calls asked
    for it; and the size saved is kept for it. *)
Theorem adjust_requests_coalesce (force_resize : bool) (cs : list AdjustCall)
  (a : Adjust) (bound : nat) :
  adjust_pending a = false ->
  existsb is_idle_event cs = false ->
  adjust_calls vtools_call (CallAdjustOnIdle force_resize :: cs) (a, bound)
  = ((mkAdjust true (adjust_force a || force_resize || existsb asks_force cs)
        (initial_size a), S bound), [Bind_wxEVT_IDLE])
  /\ adjust_calls htools_call (CallAdjustOnIdle force_resize :: cs) (a, bound)
     = ((mkAdjust true (adjust_force a || force_resize || existsb asks_force cs)
           (initial_size a), S bound), [Bind_wxEVT_IDLE]).
Proof.
  destruct a as [pending force init]. cbn [adjust_pending adjust_force initial_size].
  intros -> Hcs. split.
  - cbn [adjust_calls vtools_call]. unfold vtools_adjust_on_idle.
    destruct force_resize; cbn;
      rewrite (adjust_calls_pending vtools_call vtools_call_pending _ _ _ _ Hcs);
      rewrite ?orb_true_r, ?orb_false_r; reflexivity.
  - cbn [adjust_calls htools_call]. unfold htools_adjust_on_idle.
    destruct force_resize; cbn;
      rewrite (adjust_calls_pending htools_call htools_call_pending _ _ _ _ Hcs);
      rewrite ?orb_true_r, ?orb_false_r; reflexivity.
Qed.

(** * Properties of the context menus *)

Lemma add_comment_keys (fuel : nat) :
  (forall (p : NodePtr) (selected : list Key),
     (2 * List.length (node_keys (cur p)) <= fuel)%nat ->
     add_comment fuel p selected = Ok (selected ++ node_keys (cur p)))
  /\ (forall (p : NodePtr) (selected : list Key),
        (2 * List.length (forest_keys (cur p :: nexts p)) + 1 <= fuel)%nat ->
        add_comment_children fuel (Some p) selected
        = Ok (selected ++ forest_keys (cur p :: nexts p))).
Proof.
  induction fuel as [|fuel [IHnode IHchildren]].
  - split; intros p selected Hfuel; exfalso.
    + rewrite node_keys_unfold in Hfuel. cbn in Hfuel. lia.
    + lia.
  - split; intros p selected Hfuel.
    + cbn [add_comment]. rewrite node_keys_unfold in *.
      unfold get_first_child.
      destruct (children (cur p)) as [|c cs] eqn:E.
      * destruct fuel; reflexivity.
      * rewrite (IHchildren (mkPtr c cs ((cur p, nexts p) :: above p))).
        -- cbn [cur nexts]. rewrite <- app_assoc. reflexivity.
        -- cbn [cur nexts]. cbn [List.length] in Hfuel. lia.
    + cbn [add_comment_children].
      unfold forest_keys in *. cbn [flat_map] in *. rewrite length_app in Hfuel.
      assert (Hpos : (0 < List.length (node_keys (cur p)))%nat).
      { rewrite node_keys_unfold. cbn. lia. }
      rewrite IHnode by lia. cbn [bind].
      unfold get_next. destruct (nexts p) as [|n ns] eqn:E.
      * destruct fuel; cbn; rewrite app_nil_r; reflexivity.
      * rewrite (IHchildren (mkPtr n ns (above p))).
        -- cbn [cur nexts]. unfold forest_keys. rewrite <- app_assoc. reflexivity.
        -- cbn [cur nexts]. cbn [flat_map] in Hfuel. lia.
Qed.

(** X23.  "Copy comment(s)" copies the comment clicked and every comment
    below it.  The walk over the node of the comment, its children and
    their children ends within the steps allowed, and what it has selected
    is the comment itself first and then all the comments below it, depth
    first, each once, in the order their markers have in the document: the
    assertion that something was selected cannot fail. *)
Theorem copy_comments_selects_the_subtree (root_comment : NodePtr) :
  copy_comments root_comment = Ok (Some (node_keys (cur root_comment)))
  /\ hd_error (node_keys (cur root_comment)) = Some (key (cur root_comment)).
Proof.
  unfold copy_comments.
  rewrite (proj1 (add_comment_keys _) root_comment [] (le_n _)).
  cbn [bind app]. rewrite node_keys_unfold. split; reflexivity.
Qed.

(** X24.  What the enabled items of the data menu do.  "Compare selection..."
    is enabled exactly when the shortcut [compare_selection] compares
    instead of ringing the bell, and an enabled item compares the same
    range: the assertions of its handler hold.  "Set virtual address
    mapping..." is enabled whenever the selection starts on a byte boundary,
    whatever its length: its handler shows the dialog when the length is
    whole bytes too, and fails its assertion on the length when not. *)
Theorem enabled_menu_items (v : View) :
  (if enabled (compare_selection_item v)
   then chosen (compare_selection_item v) = Some (compare_selection v)
        /\ compare_selection v
           = [compare_range (byte (fst (get_selection_linear v)))
                (byte (snd (get_selection_linear v)))]
   else compare_selection v = [wxBell])
  /\ (0 < snd (get_selection_linear v) ->
      exists item,
        virtual_mapping_item v = Some item
        /\ enabled item = byte_aligned (fst (get_selection_linear v))
        /\ (enabled item = true ->
            chosen item
            = if byte_aligned (snd (get_selection_linear v))
              then Some [VirtualMappingDialog_ShowModal
                           (byte (fst (get_selection_linear v)))
                           (byte (snd (get_selection_linear v)))]
              else None)).
Proof.
  unfold compare_selection_item, compare_selection, virtual_mapping_item.
  destruct (get_selection_linear v) as [selection_off selection_length].
  cbn [fst snd]. split.
  - cbn [enabled chosen].
    destruct (selection_length >? BitOffset_ZERO), (byte_aligned selection_off),
      (byte_aligned selection_length); cbn; try reflexivity; split; reflexivity.
  - intros Hlen. assert (E : (selection_length >? 0) = true) by lia. rewrite E.
    eexists. split; [reflexivity|]. cbn [enabled chosen].
    destruct (byte_aligned selection_off); cbn; [|split; [reflexivity|discriminate]].
    split; [reflexivity|]. intros _. reflexivity.
Qed.

(** * The properties at work on concrete documents *)


Lemma typed_region_never_empty_witness :
  make_data_region (word_types u32le) 0 0 72 = Ok (TypedRegion 0 64 0 "u32le"%string, 64)
  /\ make_data_region (word_types u32le) 0 0 16 = Abort A_length_positive
  /\ Forall (fun r : Region string => is_typed r = true -> 0 < r_length r)
       [TypedRegion 0 32 0 "u32le"%string;
        CommentRegion 32 0 "z" false 32 0;
        TypedRegion 32 32 32 "u32le"%string;
        DataRegionDocHighlight 64 32 64].
Proof.
  destruct (typed_region_never_empty string word_types) as [Hstep Hrun].
  split; [|split].
  - exact (proj2 (proj2 (Hstep (word_types u32le) _ _ 0 0 72 eq_refl))).
  - exact (proj2 (proj2 (Hstep (word_types u32le) _ _ 0 0 16 eq_refl))).
  - apply (Hrun doc_words ICM_FULL_INDENT 96%nat 0 0 96). vm_compute. reflexivity.
Defined.

Lemma anchor_in_file_view_only_witness :
  prepare_regions word_types doc_all_words DDM_NORMAL ICM_FULL
  = Ok [TypedRegion 0 64 0 "u32le"%string; DataRegionDocHighlight 64 0 64]
  /\ prepare_regions no_types doc_half_byte DDM_NORMAL ICM_FULL
     = Ok [BitArrayRegion 0 4 0; CommentRegion 4 0 "h" false 4 0;
           BitArrayRegion 4 4 4; DataRegionDocHighlight 8 0 8]
  /\ prepare_regions word_types doc_all_words_virtual DDM_VIRTUAL ICM_FULL
     = Ok [TypedRegion 0 64 0 "u32le"%string].
Proof.
  split; [|split].
  - apply (proj1 (anchor_in_file_view_only string word_types doc_all_words ICM_FULL)
             [TypedRegion 0 64 0 "u32le"%string] (TypedRegion 0 64 0 "u32le"%string));
      vm_compute; reflexivity.
  - apply (proj1 (anchor_in_file_view_only string no_types doc_half_byte ICM_FULL)
             [BitArrayRegion 0 4 0; CommentRegion 4 0 "h" false 4 0;
              BitArrayRegion 4 4 4] (BitArrayRegion 4 4 4));
      vm_compute; reflexivity.
  - apply (proj2 (anchor_in_file_view_only string word_types doc_all_words_virtual
                    ICM_FULL) [[TypedRegion 0 64 0 "u32le"%string]]).
    + discriminate.
    + constructor; [vm_compute; reflexivity | constructor].
Defined.

Lemma virtual_offset_in_lockstep_witness :
  no_types untyped = None
  /\ Forall (in_lockstep (40 - 16))
       [@CommentRegion string 16 24 "A" false 40 24;
        DataRegionDocHighlight 16 24 40; DataRegionDocHighlight 40 16 64]
  /\ prepare_regions no_types doc_two_segments DDM_VIRTUAL ICM_SHORT
     = Ok [DataRegionDocHighlight 800 40 0; DataRegionDocHighlight 1600 40 40].
Proof.
  destruct (virtual_offset_in_lockstep string no_types) as [Hrun Hscenario].
  split; [reflexivity|]. split.
  - apply (Hrun doc_one_comment ICM_FULL_INDENT 40%nat 16 40 40).
    vm_compute. reflexivity.
  - exact (Hscenario ICM_SHORT eq_refl).
Defined.

Lemma comment_marker_indent_witness :
  @comment_marker string ICM_FULL_INDENT 16 64
    (mkPtr (mkNode (mkKey 16 24) "A" []) [] [])
  = CommentRegion 16 24 "A" false 16 24
  /\ @comment_marker string ICM_FULL_INDENT 32 64
       (mkPtr (mkNode (mkKey 32 0) "z" []) [] [])
     = CommentRegion 32 0 "z" false 32 0
  /\ (forall lim',
        push_limit ICM_FULL_INDENT (mkPtr (mkNode (mkKey 16 24) "A" []) [] []) []
        = Ok lim' -> lim' = [40])
  /\ (forall lim',
        push_limit ICM_FULL_INDENT (mkPtr (mkNode (mkKey 32 0) "z" []) [] []) []
        = Ok lim' -> lim' = [])
  /\ Forall (fun r : Region string =>
               is_comment r = true ->
               (comment_length_of r = 0 -> indent_length_of r = 0)
               /\ (indent_length_of r <> 0 ->
                   nest_of ICM_FULL_INDENT = true /\ comment_length_of r <> 0))
       [TypedRegion 0 32 0 "u32le"%string;
        CommentRegion 32 0 "z" false 32 0;
        TypedRegion 32 32 32 "u32le"%string;
        DataRegionDocHighlight 64 32 64].
Proof.
  destruct (comment_marker_indent string word_types ICM_FULL_INDENT) as [Hstep Hrun].
  destruct (Hstep 16 64 (mkPtr (mkNode (mkKey 16 24) "A" []) [] []) []
              ltac:(lia) ltac:(simpl; lia)) as (Ha1 & _ & Ha3).
  destruct (Hstep 32 64 (mkPtr (mkNode (mkKey 32 0) "z" []) [] []) []
              ltac:(lia) ltac:(simpl; lia)) as (Hz1 & _ & Hz3).
  split; [exact Ha1|]. split; [exact Hz1|]. split; [exact Ha3|]. split; [exact Hz3|].
  apply (Hrun doc_words 96%nat 0 0 96). vm_compute. reflexivity.
Defined.

Lemma hidden_comments_have_no_effect_witness :
  Forall (fun r : Region string => is_comment r = false)
    [DataRegionDocHighlight 0 16 0]
  /\ compute_regions_in no_types doc_end_comment ICM_HIDDEN 16 0 0 16
     = compute_regions_in no_types
         (mkDocument 2 [] [mkTypeRange 0 16 untyped] []) ICM_HIDDEN 16 0 0 16
  /\ prepare_regions no_types doc_end_comment DDM_NORMAL ICM_HIDDEN
     = prepare_regions no_types
         (mkDocument 2 [] [mkTypeRange 0 16 untyped] []) DDM_NORMAL ICM_HIDDEN.
Proof.
  destruct (hidden_comments_have_no_effect string no_types doc_end_comment [])
    as (Hnone & Hsame & Hview).
  split; [|split].
  - apply (Hnone 16%nat 0 0 16). vm_compute. reflexivity.
  - exact (Hsame 16%nat 0 0 16).
  - exact (Hview DDM_NORMAL).
Defined.

Lemma no_virtual_sections_fallback_witness :
  get_virt_to_real_segs doc_half_byte = []
  /\ prepare_regions no_types doc_half_byte DDM_VIRTUAL ICM_FULL
     = Ok [CommentRegion (-8) 0 C_TEXT false (-8) 0;
           BitArrayRegion 0 4 0; CommentRegion 4 0 "h" false 4 0;
           BitArrayRegion 4 4 4; DataRegionDocHighlight 8 0 8].
Proof.
  split; [reflexivity|].
  destruct (no_virtual_sections_fallback string no_types doc_half_byte ICM_FULL
              eq_refl) as (Hvirtual & _ & _).
  rewrite Hvirtual. reflexivity.
Defined.

Lemma empty_file_one_region_witness :
  buffer_length doc_empty = 0
  /\ prepare_regions no_types doc_empty DDM_NORMAL ICM_FULL_INDENT
     = Ok [DataRegionDocHighlight 0 0 0].
Proof.
  split; [reflexivity|].
  exact (empty_file_one_region string no_types doc_empty ICM_FULL_INDENT eq_refl).
Defined.

Lemma freeze_thaw_coalesces_witness :
  repopulate_regions_pending (@new_tab string doc_half_byte DDM_NORMAL ICM_FULL)
  = false
  /\ calls no_types [CallFreeze; CallRepopulate; CallRepopulate; CallRepopulate]
       (new_tab doc_half_byte DDM_NORMAL ICM_FULL)
     = Ok (mkTab doc_half_byte DDM_NORMAL ICM_FULL true true [] 0)
  /\ calls no_types [CallFreeze; CallRepopulate; CallRepopulate; CallRepopulate;
                     CallThaw] (new_tab doc_half_byte DDM_NORMAL ICM_FULL)
     = Ok (mkTab doc_half_byte DDM_NORMAL ICM_FULL false false
             [BitArrayRegion 0 4 0; CommentRegion 4 0 "h" false 4 0;
              BitArrayRegion 4 4 4; DataRegionDocHighlight 8 0 8] 1)
  /\ calls no_types [CallFreeze; CallThaw] (new_tab doc_half_byte DDM_NORMAL ICM_FULL)
     = Ok (mkTab doc_half_byte DDM_NORMAL ICM_FULL false false [] 0).
Proof.
  destruct (freeze_thaw_coalesces string no_types
              (new_tab doc_half_byte DDM_NORMAL ICM_FULL) 3 eq_refl)
    as (_ & Hfrozen & Hthaw).
  destruct (freeze_thaw_coalesces string no_types
              (new_tab doc_half_byte DDM_NORMAL ICM_FULL) 0 eq_refl)
    as (_ & _ & Hnone).
  split; [reflexivity|]. split; [exact Hfrozen|]. split; [exact Hthaw | exact Hnone].
Defined.

(** A well-formed document at work: with nested comments shown indented,
    the compile of the two bytes of [doc_end_comment] ends well. *)
Example compile_of_well_formed_document_example :
  exists rs,
    compute_regions no_types doc_end_comment ICM_FULL_INDENT 0 0 16 = Ok rs
    /\ tiles 0 (data_regions rs) (0 + 16)
    /\ total_length (data_regions rs) = 16.
Proof.
  apply (compile_of_well_formed_document string no_types doc_end_comment
           ICM_FULL_INDENT 0 0 16).
  - exists 16. simpl. repeat split; lia.
  - unfold types_partition. simpl. repeat split; lia.
  - intros t _ dr dty factory _ Hf. discriminate.
  - lia.
  - lia.
  - unfold mkBitOffset. simpl. lia.
Qed.


(** * More properties at work *)

Lemma skip_comments_keeps_the_rest_witness :
  comments_ordered doc_nested_comments = true
  /\ forallb (closed_before 128) (get_comments doc_nested_comments) = true
  /\ exists p',
       skip_comments (ahead (first_root_node (get_comments doc_nested_comments)))
         128 (first_root_node (get_comments doc_nested_comments)) = Ok p'
       /\ ahead_keys p'
          = filter (fun k => 128 <=? offset k)
              (forest_keys (get_comments doc_nested_comments)).
Proof.
  split; [reflexivity|]. split; [reflexivity|].
  apply (skip_comments_keeps_the_rest doc_nested_comments 128); reflexivity.
Defined.

(** Where a comment that starts before the range has a comment below it
    that starts before the range too, and then one that starts inside it,
    the loop that skips leaves the subtree as a whole: the comment at byte 5
    of [doc_nested_comments] has no marker in the compile of bytes 4..11. *)
Example comment_after_an_earlier_sibling_is_skipped :
  forallb (closed_before 32) (get_comments doc_nested_comments) = false
  /\ compute_regions no_types doc_nested_comments ICM_FULL_INDENT 32 0 64
     = Ok [DataRegionDocHighlight 32 64 0].
Proof. split; vm_compute; reflexivity. Qed.

Lemma compute_regions_markers_witness :
  comments_ordered doc_nested_comments = true
  /\ forallb (closed_before 128) (get_comments doc_nested_comments) = true
  /\ compute_regions no_types doc_nested_comments ICM_FULL_INDENT 128 0 64
     = Ok [CommentRegion 128 16 "R" false 0 16;
           DataRegionDocHighlight 128 16 0; DataRegionDocHighlight 144 48 16]
  /\ marker_keys [@CommentRegion string 128 16 "R" false 0 16;
                  DataRegionDocHighlight 128 16 0; DataRegionDocHighlight 144 48 16]
     = filter (fun k => (128 <=? offset k) && (offset k <? 128 + 64))
         (forest_keys (get_comments doc_nested_comments)).
Proof.
  split; [reflexivity|]. split; [reflexivity|]. split; [vm_compute; reflexivity|].
  apply (compute_regions_markers string no_types doc_nested_comments
           ICM_FULL_INDENT 128 0 64).
  - reflexivity.
  - reflexivity.
  - lia.
  - discriminate.
  - vm_compute. reflexivity.
Defined.

Lemma file_view_shows_every_comment_witness :
  prepare_regions no_types doc_end_comment DDM_NORMAL ICM_FULL
  = Ok [CommentRegion 0 16 "A" false 0 0; CommentRegion 0 8 "B" false 0 0;
        DataRegionDocHighlight 0 8 0; BitArrayRegion 8 4 8;
        CommentRegion 12 0 "C" false 12 0; BitArrayRegion 12 4 12;
        DataRegionDocHighlight 16 0 16]
  /\ marker_keys
       [@CommentRegion string 0 16 "A" false 0 0; CommentRegion 0 8 "B" false 0 0;
        DataRegionDocHighlight 0 8 0; BitArrayRegion 8 4 8;
        CommentRegion 12 0 "C" false 12 0; BitArrayRegion 12 4 12;
        DataRegionDocHighlight 16 0 16]
     = filter (fun k => offset k <? of_bytes (buffer_length doc_end_comment))
         (forest_keys (get_comments doc_end_comment)).
Proof.
  split; [vm_compute; reflexivity|].
  apply (file_view_shows_every_comment string no_types doc_end_comment ICM_FULL).
  - reflexivity.
  - repeat constructor; simpl; lia.
  - simpl. lia.
  - discriminate.
  - vm_compute. reflexivity.
Defined.

Lemma markers_come_before_their_data_witness :
  prepare_regions no_types doc_nested_comments DDM_VIRTUAL ICM_SHORT
  = Ok [CommentRegion 128 16 "R" true 0 0; DataRegionDocHighlight 128 64 0]
  /\ markers_lead [@CommentRegion string 128 16 "R" true 0 0;
                   DataRegionDocHighlight 128 64 0] = true.
Proof.
  split; [vm_compute; reflexivity|].
  apply (markers_come_before_their_data string no_types doc_nested_comments
           DDM_VIRTUAL ICM_SHORT).
  - intros _. discriminate.
  - vm_compute. reflexivity.
Defined.

Lemma skip_types_finds_the_range_witness :
  types_partition doc_words
  /\ exists before t after,
       get_data_types doc_words = before ++ t :: after
       /\ skip_types 70 (get_data_types doc_words) = t :: after
       /\ t_offset t <= 70 < t_offset t + t_length t
       /\ Forall (fun s => t_offset s + t_length s <= 70) before.
Proof.
  assert (Htypes : types_partition doc_words).
  { unfold types_partition. simpl. repeat split; lia. }
  split; [exact Htypes|].
  apply (skip_types_finds_the_range doc_words 70 Htypes).
  unfold mkBitOffset. simpl. lia.
Defined.

Lemma data_regions_stay_inside_comments_witness :
  compute_regions no_types doc_end_comment ICM_FULL_INDENT 0 0 16
  = Ok [CommentRegion 0 16 "A" false 0 16; CommentRegion 0 8 "B" false 0 8;
        DataRegionDocHighlight 0 8 0; BitArrayRegion 8 4 8;
        CommentRegion 12 0 "C" false 12 0; BitArrayRegion 12 4 12]
  /\ regions_nested
       [@CommentRegion string 0 16 "A" false 0 16; CommentRegion 0 8 "B" false 0 8;
        DataRegionDocHighlight 0 8 0; BitArrayRegion 8 4 8;
        CommentRegion 12 0 "C" false 12 0; BitArrayRegion 12 4 12].
Proof.
  split; [vm_compute; reflexivity|].
  apply (data_regions_stay_inside_comments string no_types doc_end_comment
           ICM_FULL_INDENT 0 0 16).
  - reflexivity.
  - lia.
  - reflexivity.
  - vm_compute. reflexivity.
Defined.

Lemma regions_of_well_formed_document_witness :
  comments_well_formed doc_nested_comments
  /\ types_partition doc_nested_comments
  /\ Forall (segment_in_file doc_nested_comments)
       (get_virt_to_real_segs doc_nested_comments)
  /\ exists rs,
       prepare_regions no_types doc_nested_comments DDM_VIRTUAL ICM_FULL_INDENT
       = Ok rs
       /\ total_length (data_regions rs)
          = shown_length doc_nested_comments DDM_VIRTUAL.
Proof.
  assert (Hwf : comments_well_formed doc_nested_comments).
  { exists 256. simpl. repeat split; lia. }
  assert (Htypes : types_partition doc_nested_comments).
  { unfold types_partition. simpl. repeat split; lia. }
  assert (Hsegs : Forall (segment_in_file doc_nested_comments)
                    (get_virt_to_real_segs doc_nested_comments)).
  { repeat constructor; simpl; lia. }
  split; [exact Hwf|]. split; [exact Htypes|]. split; [exact Hsegs|].
  apply (regions_of_well_formed_document string no_types doc_nested_comments
           DDM_VIRTUAL ICM_FULL_INDENT Hwf Htypes).
  - intros t _ dr dty factory _ Hf. discriminate.
  - simpl. lia.
  - exact Hsegs.
Defined.

Lemma regions_follow_the_document_witness :
  regions_current no_types
    (mkTab doc_half_byte DDM_NORMAL ICM_FULL false false
       [BitArrayRegion 0 4 0; CommentRegion 4 0 "h" false 4 0;
        BitArrayRegion 4 4 4; DataRegionDocHighlight 8 0 8] 1)
  /\ handles no_types
       [BULK_UPDATES_FROZEN; EV_COMMENT_MODIFIED []; SetInlineCommentMode ICM_SHORT;
        BULK_UPDATES_THAWED; EV_MAPPINGS_CHANGED [mkSegment 0 1 0]]
       (mkTab doc_half_byte DDM_NORMAL ICM_FULL false false
          [BitArrayRegion 0 4 0; CommentRegion 4 0 "h" false 4 0;
           BitArrayRegion 4 4 4; DataRegionDocHighlight 8 0 8] 1)
     = Ok (mkTab (mkDocument 1 [] [mkTypeRange 0 8 untyped] [mkSegment 0 1 0])
             DDM_NORMAL ICM_SHORT false false [DataRegionDocHighlight 0 8 0] 2)
  /\ prepare_regions no_types
       (mkDocument 1 [] [mkTypeRange 0 8 untyped] [mkSegment 0 1 0])
       DDM_NORMAL ICM_SHORT
     = Ok [DataRegionDocHighlight 0 8 0].
Proof.
  assert (Hcurrent : regions_current no_types
                       (mkTab doc_half_byte DDM_NORMAL ICM_FULL false false
                          [BitArrayRegion 0 4 0; CommentRegion 4 0 "h" false 4 0;
                           BitArrayRegion 4 4 4; DataRegionDocHighlight 8 0 8] 1)).
  { split; [reflexivity|]. intros _. vm_compute. reflexivity. }
  split; [exact Hcurrent|]. split; [vm_compute; reflexivity|].
  apply (regions_follow_the_document string no_types
           [BULK_UPDATES_FROZEN; EV_COMMENT_MODIFIED [];
            SetInlineCommentMode ICM_SHORT; BULK_UPDATES_THAWED;
            EV_MAPPINGS_CHANGED [mkSegment 0 1 0]]
           _ (mkTab (mkDocument 1 [] [mkTypeRange 0 8 untyped] [mkSegment 0 1 0])
                DDM_NORMAL ICM_SHORT false false [DataRegionDocHighlight 0 8 0] 2)
           Hcurrent).
  - vm_compute. reflexivity.
  - reflexivity.
Defined.

Lemma frozen_tab_keeps_its_regions_witness :
  exists t',
    handles no_types
      [DATA_INSERT doc_one_comment; SetDocumentDisplayMode DDM_VIRTUAL;
       EV_MAPPINGS_CHANGED []]
      (mkTab doc_half_byte DDM_NORMAL ICM_FULL true false [] 0) = Ok t'
    /\ repopulate_regions_frozen t' = true
    /\ doc_ctrl_regions t' = []
    /\ compiles t' = 0%nat.
Proof.
  apply (frozen_tab_keeps_its_regions string no_types
           [DATA_INSERT doc_one_comment; SetDocumentDisplayMode DDM_VIRTUAL;
            EV_MAPPINGS_CHANGED []]
           (mkTab doc_half_byte DDM_NORMAL ICM_FULL true false [] 0)).
  - reflexivity.
  - repeat constructor; discriminate.
Defined.

Lemma dialogs_only_when_showable_witness :
  notice (BACKING_FILE_MODIFIED
            (mkAnswers false wxID_CANCEL EmptyString wxID_NO ID_AUTO_RELOAD))
    (new_notices [3%nat; 5%nat])
  = (mkNotices false true false false true [3%nat; 5%nat] None None,
     [ReloadDialog; doc_reload; Forward])
  /\ can_show (mkNotices false true false false true [3%nat; 5%nat] None None)
     = true.
Proof.
  split; [reflexivity|].
  apply (dialogs_only_when_showable
           (BACKING_FILE_MODIFIED
              (mkAnswers false wxID_CANCEL EmptyString wxID_NO ID_AUTO_RELOAD))
           (new_notices [3%nat; 5%nat]) _ [ReloadDialog; doc_reload; Forward]);
    reflexivity.
Defined.

Lemma no_notice_waits_when_showable_witness :
  fst (notices
         [CallHideChildWindows;
          BACKING_FILE_DELETED
            (mkAnswers false wxID_CANCEL EmptyString wxID_NO ID_AUTO_RELOAD);
          BACKING_FILE_MODIFIED
            (mkAnswers false wxID_CANCEL EmptyString wxID_NO ID_AUTO_RELOAD);
          CallUnhideChildWindows
            (mkAnswers false wxID_CANCEL EmptyString wxID_NO ID_AUTO_RELOAD)]
         (new_notices [3%nat]))
  = mkNotices false true false false false [3%nat] None None
  /\ file_deleted_dialog_pending
       (mkNotices false true false false false [3%nat] None None) = false
  /\ file_modified_dialog_pending
       (mkNotices false true false false false [3%nat] None None) = false.
Proof.
  split; [reflexivity|].
  apply (no_notice_waits_when_showable [3%nat]
           [CallHideChildWindows;
            BACKING_FILE_DELETED
              (mkAnswers false wxID_CANCEL EmptyString wxID_NO ID_AUTO_RELOAD);
            BACKING_FILE_MODIFIED
              (mkAnswers false wxID_CANCEL EmptyString wxID_NO ID_AUTO_RELOAD);
            CallUnhideChildWindows
              (mkAnswers false wxID_CANCEL EmptyString wxID_NO ID_AUTO_RELOAD)]);
    reflexivity.
Defined.

Lemma pending_notice_is_shown_witness :
  notice (CallUnhideChildWindows
            (mkAnswers false wxID_CANCEL EmptyString wxID_NO ID_AUTO_RELOAD))
    (mkNotices true true true true false [7%nat] None None)
  = (mkNotices false true false false false [7%nat] None None,
     [ShowWithoutActivating 7%nat; FileDeletedDialog])
  /\ In FileDeletedDialog [ShowWithoutActivating 7%nat; FileDeletedDialog]
  /\ ~ In ReloadDialog [ShowWithoutActivating 7%nat; FileDeletedDialog]
  /\ ~ In doc_reload [ShowWithoutActivating 7%nat; FileDeletedDialog].
Proof.
  split; [reflexivity|].
  destruct (pending_notice_is_shown
              (CallUnhideChildWindows
                 (mkAnswers false wxID_CANCEL EmptyString wxID_NO ID_AUTO_RELOAD))
              (mkAnswers false wxID_CANCEL EmptyString wxID_NO ID_AUTO_RELOAD)
              (mkNotices true true true true false [7%nat] None None)
              (mkNotices false true false false false [7%nat] None None)
              [ShowWithoutActivating 7%nat; FileDeletedDialog]
              (or_introl eq_refl) eq_refl eq_refl)
    as (_ & Hdeleted & _).
  destruct (Hdeleted eq_refl) as (Hshown & _ & Hno_dialog & Hno_reload).
  split; [exact Hshown|]. split; [exact Hno_dialog | exact Hno_reload].
Defined.

Lemma reload_needs_consent_witness :
  notice (BACKING_FILE_MODIFIED
            (mkAnswers true wxID_CANCEL EmptyString wxID_YES ID_IGNORE))
    (new_notices [])
  = (new_notices [], [DiscardChangesDialog; doc_reload; Forward])
  /\ exists u,
       answers_of (BACKING_FILE_MODIFIED
                     (mkAnswers true wxID_CANCEL EmptyString wxID_YES ID_IGNORE))
       = Some u
       /\ consent u (new_notices []) [DiscardChangesDialog; doc_reload; Forward].
Proof.
  split; [reflexivity|].
  apply (proj1 (reload_needs_consent
                  (BACKING_FILE_MODIFIED
                     (mkAnswers true wxID_CANCEL EmptyString wxID_YES ID_IGNORE))
                  (new_notices []) (new_notices [])
                  [DiscardChangesDialog; doc_reload; Forward] eq_refl)).
  simpl. right; left; reflexivity.
Defined.



Lemma paste_overwrites_inside_the_file_witness :
  paste_data (mkView 20 false (0, 0) false true false false 4) [1; 2; 3]
  = [overwrite_data 20 [1; 2; 3] 1 28]
  /\ exists to_write,
       paste_data (mkView 20 false (0, 0) false true false false 4) [1; 2; 3]
       = [overwrite_data 20 [1; 2; 3] to_write (20 + of_bytes to_write)]
       /\ 0 <= to_write <= 3
       /\ 20 + of_bytes to_write <= of_bytes 4
       /\ (to_write < 3 -> of_bytes 4 < 20 + of_bytes (to_write + 1)).
Proof.
  split; [reflexivity|].
  apply (paste_overwrites_inside_the_file
           (mkView 20 false (0, 0) false true false false 4) [1; 2; 3]).
  - simpl. lia.
  - reflexivity.
  - reflexivity.
  - unfold of_bytes, mkBitOffset. simpl. lia.
Defined.

Lemma clamp_sash_keeps_page_in_bounds_witness :
  on_screen (mkPane (Some (mkPage true 100 50 200 120)) 600 5 130 true 300)
    (mkPage true 100 50 200 120)
  /\ hsplit_clamp_sash
    (mkPane (Some (mkPage true 100 50 200 120)) 600 5 130 true 300) 590 = 535
  /\ vsplit_clamp_sash
       (mkPane (Some (mkPage true 100 50 200 120)) 600 5 130 true 300) 100 = 385
  /\ clamps_to_page hsplit_clamp_sash
       (mkPane (Some (mkPage true 100 50 200 120)) 600 5 130 true 300)
       (mkPage true 100 50 200 120) 590
  /\ clamps_to_page vsplit_clamp_sash
       (mkPane (Some (mkPage true 100 50 200 120)) 600 5 130 true 300)
       (mkPage true 100 50 200 120) 590.
Proof.
  assert (Hscreen : on_screen
                      (mkPane (Some (mkPage true 100 50 200 120)) 600 5 130 true 300)
                      (mkPage true 100 50 200 120)).
  { unfold on_screen, screen_size. simpl. lia. }
  split; [exact Hscreen|]. split; [reflexivity|]. split; [reflexivity|].
  apply (clamp_sash_keeps_page_in_bounds
           (mkPane (Some (mkPage true 100 50 200 120)) 600 5 130 true 300)
           (mkPage true 100 50 200 120) 590).
  - reflexivity.
  - exact Hscreen.
  - right. simpl. lia.
Defined.

(** Beyond the screen the clamp overflows: with a client size of [INT_MAX]
    and a notebook one pixel smaller than its page, the sum taken off the
    client size is negative, the difference leaves [int], and the sash is
    sent to [INT_MIN]. *)
Example clamp_sash_overflows :
  hsplit_clamp_sash
    (mkPane (Some (mkPage true 0 0 0 120)) INT_MAX 0 119 true 300) 300 = INT_MIN.
Proof. vm_compute. reflexivity. Qed.

Lemma adjust_requests_coalesce_witness :
  adjust_calls vtools_call
    [CallAdjustOnIdle false;
     CallAdjust (mkPane (Some (mkPage true 100 50 200 120)) 600 5 130 true 300)
       true;
     CallAdjustOnIdle false]
    (mkAdjust false false 250, 0%nat)
  = ((mkAdjust true true 250, 1%nat), [Bind_wxEVT_IDLE])
  /\ adjust_calls htools_call
       [CallAdjustOnIdle false;
        CallAdjust (mkPane (Some (mkPage true 100 50 200 120)) 600 5 130 true 300)
          true;
        CallAdjustOnIdle false]
       (mkAdjust false false 250, 0%nat)
     = ((mkAdjust true true 250, 1%nat), [Bind_wxEVT_IDLE]).
Proof.
  apply (adjust_requests_coalesce false
           [CallAdjust
              (mkPane (Some (mkPage true 100 50 200 120)) 600 5 130 true 300) true;
            CallAdjustOnIdle false]
           (mkAdjust false false 250) 0%nat); reflexivity.
Defined.

Lemma resize_and_drag_keep_page_in_bounds_witness :
  OnSize (mkPane (Some (mkPage true 100 50 200 120)) 600 5 130 true 300)
    (mkPane (Some (mkPage true 100 50 200 120)) 600 5 130 true 400)
  = ([SetSashPosition 385], [])
  /\ page_in_bounds
       (mkPane (Some (mkPage true 100 50 200 120)) 600 5 130 true 300)
       (mkPage true 100 50 200 120) 385
  /\ page_in_bounds
       (mkPane (Some (mkPage true 100 50 200 120)) 600 5 130 true 400)
       (mkPage true 100 50 200 120) 400
  /\ OnHSplitterSashPosChanging
       (mkPane (Some (mkPage true 100 50 200 120)) 600 5 130 true 300) 590 = 535
  /\ page_in_bounds
       (mkPane (Some (mkPage true 100 50 200 120)) 600 5 130 true 300)
       (mkPage true 100 50 200 120) 535.
Proof.
  destruct (resize_and_drag_keep_page_in_bounds
              (mkPane (Some (mkPage true 100 50 200 120)) 600 5 130 true 300)
              (mkPane (Some (mkPage true 100 50 200 120)) 600 5 130 true 400)
              (mkPage true 100 50 200 120) (mkPage true 100 50 200 120) 590
              eq_refl eq_refl)
    as (Hh & Hv & Hdrag & _).
  - unfold on_screen, screen_size. simpl. lia.
  - unfold on_screen, screen_size. simpl. lia.
  - right. simpl. lia.
  - right. simpl. lia.
  - split; [reflexivity|].
    split; [exact (proj1 (Hh eq_refl))|].
    split; [exact (proj1 (Hv eq_refl))|].
    split; [reflexivity | exact Hdrag].
Defined.

Lemma hex_digit_is_written_as_typed_witness :
  exists commands,
    OnDocumentCtrlChar (fun _ => 10) (fun _ => EmptyString) 0 322 127 8 0 4
      false (mkKeyEvent 65 65 4)
      (mkView 16 true (0, 0) false true false false 4) (Some 0)
    = Some (commands, false)
    /\ commands = [insert_data 2 [160] 20; clear_selection].
Proof.
  destruct (hex_digit_is_written_as_typed (fun _ => 10) (fun _ => EmptyString)
              0 322 127 8 0 4 (mkKeyEvent 65 65 4)
              (mkView 16 true (0, 0) false true false false 4) 0
              eq_refl (or_intror eq_refl) eq_refl ltac:(lia))
    as (commands & Hcall & Hcommands).
  exists commands. split; [exact Hcall | exact Hcommands].
Defined.

Lemma click_on_a_marker_edits_its_comment_witness :
  prepare_regions no_types doc_nested_comments DDM_VIRTUAL ICM_SHORT
  = Ok [CommentRegion 128 16 "R" true 0 0; DataRegionDocHighlight 128 64 0]
  /\ ((@CommentRegion string 128 16 "R" true 0 0 = no_sections_marker
       /\ OnCommentLeftClick 128 16 = [])
      \/ (In (mkKey 128 16) (forest_keys (get_comments doc_nested_comments))
          /\ OnCommentLeftClick 128 16 = [EditCommentDialog_run_modal 128 16])).
Proof.
  split; [vm_compute; reflexivity|].
  apply (click_on_a_marker_edits_its_comment string no_types doc_nested_comments
           DDM_VIRTUAL ICM_SHORT
           [CommentRegion 128 16 "R" true 0 0; DataRegionDocHighlight 128 64 0]
           (CommentRegion 128 16 "R" true 0 0)).
  - repeat constructor; simpl; lia.
  - vm_compute. reflexivity.
  - left. reflexivity.
  - reflexivity.
Defined.
